(** * actuary-bot: constitutional gates, consent anchors and Kaitiaki seals

    A shallow embedding of
      - constitutional/consent-protocol.js  (consent record ids),
      - constitutional/yamas-gates.js       (the five gates and [runAllGates]),
      - shared/kaitiaki/middleware.js       (seal chain and transport wrappers),
      - shared/kaitiaki/chain.js            (chain-of-custody linking),
      - advisor/gate-explainer.js           (the advisor's explanations),
      - server.js                           (the routes' gate contexts and
                                             chained receipts),
    followed by the properties stated about them.

    Conventions.  JavaScript numbers are read as exact rationals ([Q]);
    counters that only ever hold integers are [Z].  Strings are Rocq strings
    of 8-bit characters, standing for the UTF-8 bytes that Node hashes;
    [trim] and [toLowerCase] are given on the ASCII range.  An absent
    property ([undefined]) is [None].  A function that may throw returns a
    [result]. *)

From Stdlib Require Import ZArith QArith Qround Qabs Lqa List String Ascii Bool Lia.
From Stdlib Require Import DecimalString FinFun Znumtheory Zpow_facts.
From Stdlib Require ZmodInv.
Import ListNotations.

Set Implicit Arguments.

(* ------------------------------------------------------------------ *)
(** ** Exceptions *)

Inductive result (A : Type) : Type :=
| Ok (a : A)
| Throw (message : string).

Arguments Ok {A} a.
Arguments Throw {A} message.

Definition bind {A B} (r : result A) (k : A -> result B) : result B :=
  match r with
  | Ok a => k a
  | Throw m => Throw m
  end.

Notation "'do' x <- r ; k" := (bind r (fun x => k))
  (at level 10, x name, r at level 100, k at level 200).

(* ------------------------------------------------------------------ *)
(** ** Strings and bytes *)

Module JS.
Local Open Scope Z_scope.

Definition code (c : ascii) : Z := Z.of_N (N_of_ascii c).
Definition chr (z : Z) : ascii := ascii_of_N (Z.to_N z).

(** The bytes a string contributes to a hash or a Buffer. *)
Definition bytes_of_string (s : string) : list Z :=
  map code (list_ascii_of_string s).

(** The one-character string holding a double quote (code 34). *)
Definition dquote : string := String (chr 34) EmptyString.

(** [!s] is false exactly for a present, non-empty string. *)
Definition truthy (o : option string) : bool :=
  match o with
  | Some (String _ _) => true
  | _ => false
  end.

(** White space of the ASCII range: TAB, LF, VT, FF, CR and SPACE. *)
Definition is_space (c : ascii) : bool :=
  let n := code c in ((9 <=? n) && (n <=? 13)) || (n =? 32).

Fixpoint trimStart (s : string) : string :=
  match s with
  | String c r => if is_space c then trimStart r else s
  | EmptyString => EmptyString
  end.

Fixpoint rev_string (s acc : string) : string :=
  match s with
  | EmptyString => acc
  | String c r => rev_string r (String c acc)
  end.

Definition trimEnd (s : string) : string :=
  rev_string (trimStart (rev_string s EmptyString)) EmptyString.

Definition trim (s : string) : string := trimEnd (trimStart s).

Definition lower_char (c : ascii) : ascii :=
  let n := code c in
  if (65 <=? n) && (n <=? 90) then chr (n + 32) else c.

Fixpoint toLowerCase (s : string) : string :=
  match s with
  | EmptyString => EmptyString
  | String c r => String (lower_char c) (toLowerCase r)
  end.

(** [s.slice(0, n)] *)
Fixpoint slice0 (n : nat) (s : string) : string :=
  match n, s with
  | S m, String c r => String c (slice0 m r)
  | _, _ => EmptyString
  end.

Definition startsWith (p s : string) : bool := String.prefix p s.

Fixpoint repeat_char (c : ascii) (n : nat) : string :=
  match n with
  | O => EmptyString
  | S m => String c (repeat_char c m)
  end.

(** [s.padStart(n, '0')] *)
Definition padStart0 (n : nat) (s : string) : string :=
  (repeat_char "0"%char (n - String.length s) ++ s)%string.

(** Decimal rendering of an integer, as [String(n)] gives it. *)
Definition decimal (z : Z) : string := NilZero.string_of_int (Z.to_int z).

(** Lower-case hexadecimal digits. *)
Definition hex_digit (d : Z) : ascii :=
  if d <? 10 then chr (48 + d) else chr (87 + d).

Definition hex_value (c : ascii) : option Z :=
  let n := code c in
  if (48 <=? n) && (n <=? 57) then Some (n - 48)
  else if (97 <=? n) && (n <=? 102) then Some (n - 87)
  else if (65 <=? n) && (n <=? 70) then Some (n - 55)
  else None.

(** [n] hexadecimal digits of [x], most significant first. *)
Fixpoint hex_fixed (n : nat) (x : Z) : string :=
  match n with
  | O => EmptyString
  | S m => (hex_fixed m (x / 16) ++ String (hex_digit (x mod 16)) EmptyString)%string
  end.

Fixpoint hex_loop (fuel : nat) (x : Z) (acc : string) : string :=
  match fuel with
  | O => acc
  | S f =>
      let acc' := String (hex_digit (x mod 16)) acc in
      if x <? 16 then acc' else hex_loop f (x / 16) acc'
  end.

(** [x.toString(16)] for a non-negative integer (BigInt or Number). *)
Definition toString16 (x : Z) : string :=
  hex_loop (S (Z.to_nat (Z.log2 x))) x EmptyString.

(** [Buffer.from(bytes).toString('hex')] *)
Fixpoint hex_of_bytes (bs : list Z) : string :=
  match bs with
  | [] => EmptyString
  | b :: r => (hex_fixed 2 b ++ hex_of_bytes r)%string
  end.

(** [Buffer.from(s, 'hex')]: pairs of digits, stopping at the first pair
    that is not hexadecimal (and at an odd trailing digit). *)
Fixpoint bytes_of_hex (s : string) : list Z :=
  match s with
  | String h (String l r) =>
      match hex_value h, hex_value l with
      | Some a, Some b => (16 * a + b) :: bytes_of_hex r
      | _, _ => []
      end
  | _ => []
  end.

(** Value of a string of hexadecimal digits, [None] on any other character. *)
Fixpoint hex_parse (s : string) (acc : Z) : option Z :=
  match s with
  | EmptyString => Some acc
  | String c r =>
      match hex_value c with
      | Some d => hex_parse r (16 * acc + d)
      | None => None
      end
  end.

(** Every character is a hexadecimal digit. *)
Fixpoint all_hex (s : string) : bool :=
  match s with
  | EmptyString => true
  | String c r =>
      match hex_value c with
      | Some _ => all_hex r
      | None => false
      end
  end.

(** [BigInt('0x' + s)] for a string [s] without white space: a SyntaxError
    unless [s] is a non-empty string of digits.  The result carries the
    error's message. *)
Definition BigInt_hex (s : string) : result Z :=
  match s with
  | EmptyString => Throw "Cannot convert 0x to a BigInt"
  | _ =>
      match hex_parse s 0 with
      | Some v => Ok v
      | None => Throw ("Cannot convert 0x" ++ s ++ " to a BigInt")
      end
  end.

(** [n] bytes of [x], most significant first. *)
Fixpoint be_bytes (n : nat) (x : Z) : list Z :=
  match n with
  | O => []
  | S m => be_bytes m (x / 256) ++ [x mod 256]
  end.

(** The unsigned integer a byte sequence denotes, most significant first. *)
Definition be_value (bs : list Z) : Z :=
  fold_left (fun acc b => 256 * acc + b) bs 0.

End JS.

(* ------------------------------------------------------------------ *)
(** ** SHA-256 (FIPS 180-4), the hash behind [createHash('sha256')] *)

Module SHA256.
Local Open Scope Z_scope.

Definition w32 (x : Z) : Z := x mod 2 ^ 32.

Definition rotr (n x : Z) : Z :=
  Z.lor (Z.shiftr x n) (w32 (Z.shiftl x (32 - n))).

Definition ch (x y z : Z) : Z :=
  Z.lxor (Z.land x y) (Z.land (Z.lxor x (2 ^ 32 - 1)) z).
Definition maj (x y z : Z) : Z :=
  Z.lxor (Z.lxor (Z.land x y) (Z.land x z)) (Z.land y z).
Definition bsig0 (x : Z) : Z := Z.lxor (Z.lxor (rotr 2 x) (rotr 13 x)) (rotr 22 x).
Definition bsig1 (x : Z) : Z := Z.lxor (Z.lxor (rotr 6 x) (rotr 11 x)) (rotr 25 x).
Definition ssig0 (x : Z) : Z := Z.lxor (Z.lxor (rotr 7 x) (rotr 18 x)) (Z.shiftr x 3).
Definition ssig1 (x : Z) : Z := Z.lxor (Z.lxor (rotr 17 x) (rotr 19 x)) (Z.shiftr x 10).

(** The round constants are the first 32 fractional bits of the cube roots
    of the first 64 primes, the initial state those of the square roots of
    the first 8; both are computed here rather than tabulated. *)
Fixpoint sieve (fuel : nat) (n : Z) (found : list Z) : list Z :=
  match fuel with
  | O => rev found
  | S f =>
      if forallb (fun p => negb (n mod p =? 0)) found
      then sieve f (n + 1) (n :: found)
      else sieve f (n + 1) found
  end.

Definition primes64 : list Z := Eval vm_compute in sieve 310 2 [].

Fixpoint root_search (pow : Z -> Z) (bits : nat) (n r : Z) : Z :=
  match bits with
  | O => r
  | S b =>
      let c := r + 2 ^ Z.of_nat b in
      root_search pow b n (if pow c <=? n then c else r)
  end.

Definition K : list Z :=
  Eval vm_compute in
    map (fun p => w32 (root_search (fun c => c * c * c) 40 (p * 2 ^ 96) 0)) primes64.

Definition H0 : list Z :=
  Eval vm_compute in
    map (fun p => w32 (root_search (fun c => c * c) 40 (p * 2 ^ 64) 0)) (firstn 8 primes64).

(** Padding: 0x80, zeros up to 56 mod 64, then the bit length on 8 bytes. *)
Definition pad (msg : list Z) : list Z :=
  let len := Z.of_nat (List.length msg) in
  msg ++ [128] ++ repeat 0 (Z.to_nat ((55 - len) mod 64)) ++ JS.be_bytes 8 (8 * len).

Fixpoint be_words (bs : list Z) : list Z :=
  match bs with
  | a :: b :: c :: d :: r => (((a * 256 + b) * 256 + c) * 256 + d) :: be_words r
  | _ => []
  end.

(** One round.  The second component is the window W[t..t+15] of the
    message schedule. *)
Definition round (s : list Z * list Z) (k : Z) : list Z * list Z :=
  match s with
  | ([a; b; c; d; e; f; g; h], w) =>
      let wt := nth 0 w 0 in
      let t1 := w32 (h + bsig1 e + ch e f g + k + wt) in
      let t2 := w32 (bsig0 a + maj a b c) in
      let wn := w32 (ssig1 (nth 14 w 0) + nth 9 w 0 + ssig0 (nth 1 w 0) + wt) in
      ([w32 (t1 + t2); a; b; c; w32 (d + t1); e; f; g], tl w ++ [wn])
  | _ => s
  end.

Fixpoint add_words (xs ys : list Z) : list Z :=
  match xs, ys with
  | x :: xr, y :: yr => w32 (x + y) :: add_words xr yr
  | _, _ => []
  end.

Definition compress (H block : list Z) : list Z :=
  add_words H (fst (fold_left round K (H, block))).

Fixpoint blocks (n : nat) (ws H : list Z) : list Z :=
  match n with
  | O => H
  | S m => blocks m (skipn 16 ws) (compress H (firstn 16 ws))
  end.

Definition digest_words (msg : list Z) : list Z :=
  let ws := be_words (pad msg) in
  blocks (List.length ws / 16) ws H0.

Fixpoint hex_of_words (ws : list Z) : string :=
  match ws with
  | [] => EmptyString
  | w :: r => (JS.hex_fixed 8 w ++ hex_of_words r)%string
  end.

(** [createHash('sha256').update(buf).digest('hex')] *)
Definition sha256_bytes (msg : list Z) : string := hex_of_words (digest_words msg).

(** [createHash('sha256').update(str).digest('hex')] *)
Definition sha256 (s : string) : string := sha256_bytes (JS.bytes_of_string s).

End SHA256.

(* ------------------------------------------------------------------ *)
(** ** Primality certificates *)

Module Primality.
Local Open Scope Z_scope.

(** Trial division from [d] upwards, for at most [fuel] candidates. *)
Fixpoint trial (fuel : nat) (d n : Z) : bool :=
  match fuel with
  | O => false
  | S f =>
      if n <? d * d then true
      else if n mod d =? 0 then false
      else trial f (d + 1) n
  end.

(** A Pocklington witness [a] for the prime factor [q] of [N - 1]. *)
Definition pocklington (N q a : Z) : bool :=
  ((N - 1) mod q =? 0)
  && (Zpow_mod a (N - 1) N =? 1)
  && (Z.gcd (Zpow_mod a ((N - 1) / q) N - 1) N =? 1).

End Primality.

(* ------------------------------------------------------------------ *)
(** ** Numbers *)

Module Num.
Local Open Scope Q_scope.

Definition ltb (x y : Q) : bool := negb (Qle_bool y x).
Definition leb (x y : Q) : bool := Qle_bool x y.

(** [Math.min(a, b)] *)
Definition Math_min (a b : Q) : Q := if leb a b then a else b.

(** [Math.round(x)]: the nearest integer, a tie going up. *)
Definition Math_round (x : Q) : Z := Qfloor (x + (1 # 2)).

(** [x.toFixed(3)]: the integer [n] nearest to [1000 x] (a tie going to the
    larger), printed with three decimals. *)
Definition toFixed3 (x : Q) : string :=
  let n := Qfloor (Qabs x * 1000 + (1 # 2)) in
  ((if ltb x 0 then "-" else "")
   ++ JS.decimal (n / 1000) ++ "." ++ JS.padStart0 3 (JS.decimal (n mod 1000)))%string.

End Num.

(** Destructuring with a default: the default stands in for [undefined]. *)
Definition dflt {A} (d : A) (o : option A) : A :=
  match o with
  | Some a => a
  | None => d
  end.

(* ------------------------------------------------------------------ *)
(** ** constitutional/consent-protocol.js *)

Module Consent.
Local Open Scope string_scope.

(** [String(x)] on an optional string. *)
Definition String_ (o : option string) : string := dflt "undefined" o.

(** [JSON.stringify] of one string character. *)
Definition quote_char (c : ascii) : string :=
  let n := JS.code c in
  if (n =? 34)%Z then "\" ++ JS.dquote
  else if (n =? 92)%Z then "\\"
  else if (n =? 8)%Z then "\b"
  else if (n =? 12)%Z then "\f"
  else if (n =? 10)%Z then "\n"
  else if (n =? 13)%Z then "\r"
  else if (n =? 9)%Z then "\t"
  else if (n <? 32)%Z then "\u00" ++ JS.hex_fixed 2 n
  else String c "".

Fixpoint quote_body (s : string) : string :=
  match s with
  | EmptyString => EmptyString
  | String c r => quote_char c ++ quote_body r
  end.

(** Reading one character back off the front of a quoted body; [None] at
    the closing quote or a malformed escape.  It serves to show that the
    quoting is unambiguous. *)
Definition unquote_char (s : string) : option (ascii * string) :=
  match s with
  | EmptyString => None
  | String c r =>
      if (JS.code c =? 34)%Z then None
      else if negb (JS.code c =? 92)%Z then Some (c, r)
      else
        match r with
        | EmptyString => None
        | String e r1 =>
            let n := JS.code e in
            if (n =? 98)%Z then Some (JS.chr 8, r1)
            else if (n =? 102)%Z then Some (JS.chr 12, r1)
            else if (n =? 110)%Z then Some (JS.chr 10, r1)
            else if (n =? 114)%Z then Some (JS.chr 13, r1)
            else if (n =? 116)%Z then Some (JS.chr 9, r1)
            else if negb (n =? 117)%Z then Some (e, r1)
            else
              match r1 with
              | String _ (String _ (String h (String l r2))) =>
                  match JS.hex_value h, JS.hex_value l with
                  | Some a, Some b => Some (JS.chr (16 * a + b), r2)
                  | _, _ => None
                  end
              | _ => None
              end
        end
  end.

(** [JSON.stringify(s)] for a string [s]. *)
Definition JSON_quote (s : string) : string :=
  JS.dquote ++ quote_body s ++ JS.dquote.

(** [JSON.stringify({ cohort, scope, clinician_id })]: the properties in
    the order the object literal lists them. *)
Definition JSON_stringify_triple (cohort scope clinician_id : string) : string :=
  "{" ++ JSON_quote "cohort" ++ ":" ++ JSON_quote cohort
  ++ "," ++ JSON_quote "scope" ++ ":" ++ JSON_quote scope
  ++ "," ++ JSON_quote "clinician_id" ++ ":" ++ JSON_quote clinician_id ++ "}".

Definition canonical (cohort scope clinician_id : option string) : string :=
  JSON_stringify_triple
    (JS.toLowerCase (JS.trim (String_ cohort)))
    (JS.toLowerCase (JS.trim (String_ scope)))
    (JS.trim (String_ clinician_id)).

Definition generateConsentRecordId (cohort scope clinician_id : option string)
  : result string :=
  if negb (JS.truthy cohort) || negb (JS.truthy scope) || negb (JS.truthy clinician_id)
  then Throw "CONSENT_ERROR: cohort, scope, and clinician_id are all required"
  else
    let hash := SHA256.sha256 (canonical cohort scope clinician_id) in
    Ok ("CR-" ++ JS.slice0 32 hash).

Record validation : Type := { valid : bool; reason : string }.

Definition validateConsentRecord
  (consent_record_id cohort scope clinician_id : option string) : validation :=
  if negb (JS.truthy consent_record_id)
  then {| valid := false;
          reason := "CONSENT_INVALID: consent_record_id is missing or not a string" |}
  else
    let id := String_ consent_record_id in
    if negb (JS.startsWith "CR-" id)
    then {| valid := false;
            reason := "CONSENT_INVALID: consent_record_id must begin with CR-" |}
    else
      match generateConsentRecordId cohort scope clinician_id with
      | Throw message =>
          {| valid := false; reason := "CONSENT_INVALID: " ++ message |}
      | Ok expected =>
          if negb (String.eqb id expected)
          then {| valid := false;
                  reason := "CONSENT_INVALID: consent_record_id does not match cohort+scope+clinician_id hash" |}
          else {| valid := true; reason := "CONSENT_VALID" |}
      end.

End Consent.

(* ------------------------------------------------------------------ *)
(** ** constitutional/yamas-gates.js *)

Module Gates.
Local Open Scope string_scope.
Local Open Scope Q_scope.

(** The merged request context, with the property types of the gates'
    JSDoc annotations. *)
Record GateContext : Type := {
  equity_flag : option string;
  population_size : option Q;
  patient_facing : option bool;
  assessment_type : option string;
  confidence : option Q;
  data_quality : option string;
  model_version : option string;
  consent_record_id : option string;
  cohort : option string;
  scope : option string;
  clinician_id : option string;
  regulatory_jurisdiction : option string;
  model_count : option Q;
  dissent_flag : option bool
}.

Record GateVerdict : Type := { pass : bool; score : Q; reason : string }.

Definition includes (xs : list string) (x : string) : bool :=
  existsb (String.eqb x) xs.

(** *** Gate 1: AHIMSA (non-harm) *)

Definition FORBIDDEN_TYPES : list string :=
  ["genetic_exclusion"; "racial_profiling"; "disability_penalty"].

Definition ahimsaGate (ctx : GateContext) : GateVerdict :=
  let population_size := dflt 0 (population_size ctx) in
  let patient_facing := dflt false (patient_facing ctx) in
  let assessment_type := dflt "" (assessment_type ctx) in
  if includes FORBIDDEN_TYPES assessment_type
  then {| pass := false; score := 0.0;
          reason := "AHIMSA_VIOLATION: assessment_type '" ++ assessment_type
                    ++ "' is prohibited" |}
  else if Num.ltb 10000 population_size && negb (JS.truthy (equity_flag ctx))
  then {| pass := false; score := 0.0;
          reason := "AHIMSA_VIOLATION: large-population assessment requires equity_flag" |}
  else {| pass := true;
          score := if patient_facing then 0.80 else 0.95;
          reason := "AHIMSA_PASS" |}.

(** *** Gate 2: SATYA (truthfulness) *)

(** [typeof confidence !== 'number'] never holds of a context of this
    type; the two range tests remain. *)
Definition satyaGate (ctx : GateContext) : GateVerdict :=
  let confidence := dflt 0 (confidence ctx) in
  let data_quality := dflt "unknown" (data_quality ctx) in
  if Num.ltb confidence 0 || Num.ltb 1 confidence
  then {| pass := false; score := 0.0;
          reason := "SATYA_VIOLATION: confidence must be a number in [0, 1]" |}
  else if Num.ltb confidence 0.60
  then {| pass := false; score := 0.0;
          reason := "SATYA_VIOLATION: confidence " ++ Num.toFixed3 confidence
                    ++ " < minimum 0.60" |}
  else if String.eqb data_quality "unknown" || String.eqb data_quality "poor"
  then {| pass := false; score := 0.0;
          reason := "SATYA_VIOLATION: data_quality '" ++ data_quality
                    ++ "' is insufficient for actuarial assessment" |}
  else if negb (JS.truthy (model_version ctx))
  then {| pass := false; score := 0.0;
          reason := "SATYA_VIOLATION: model_version must be declared (prevents hidden model drift)" |}
  else {| pass := true;
          score := Num.Math_min 1.0 (confidence * 1.1);
          reason := "SATYA_PASS" |}.

(** *** Gate 3: ASTEYA (consent) *)

Definition asteyaGate (ctx : GateContext) : GateVerdict :=
  if negb (JS.truthy (consent_record_id ctx))
  then {| pass := false; score := 0.0;
          reason := "ASTEYA_VIOLATION: consent_record_id is required — no analysis without consent" |}
  else
    let validation :=
      Consent.validateConsentRecord
        (consent_record_id ctx) (cohort ctx) (scope ctx) (clinician_id ctx) in
    if negb (Consent.valid validation)
    then {| pass := false; score := 0.0;
            reason := "ASTEYA_VIOLATION: " ++ Consent.reason validation |}
    else {| pass := true; score := 0.95; reason := "ASTEYA_PASS" |}.

(** *** Gate 4: BRAHMACHARYA (domain guard) *)

Definition VALIDATED_SCOPES : list string :=
  ["life_insurance_pricing"; "health_insurance_risk"; "reinsurance_modelling";
   "population_mortality"; "drug_discovery_integration"; "dr_bot_integration"].

Definition brahmaacharyaGate (ctx : GateContext) : GateVerdict :=
  if negb (JS.truthy (scope ctx))
  then {| pass := false; score := 0.0;
          reason := "BRAHMACHARYA_VIOLATION: scope is required" |}
  else
    let scope := Consent.String_ (scope ctx) in
    if negb (includes VALIDATED_SCOPES scope)
    then {| pass := false; score := 0.0;
            reason := "BRAHMACHARYA_VIOLATION: scope '" ++ scope
                      ++ "' is not in validated scope list. "
                      ++ "Validated scopes: " ++ String.concat ", " VALIDATED_SCOPES |}
    else {| pass := true;
            score := if JS.truthy (regulatory_jurisdiction ctx) then 0.90 else 0.70;
            reason := "BRAHMACHARYA_PASS" |}.

(** *** Gate 5: APARIGRAHA (diversity) *)

Definition aparigrahaGate (ctx : GateContext) : GateVerdict :=
  let model_count := dflt 1 (model_count ctx) in
  let dissent_flag := dflt false (dissent_flag ctx) in
  if Num.ltb model_count 2 && negb dissent_flag
  then {| pass := false; score := 0.0;
          reason := "APARIGRAHA_VIOLATION: assessments must use ≥2 models or carry explicit dissent_flag=true" |}
  else {| pass := true;
          score := if Num.leb 3 model_count then 0.95
                   else if dissent_flag then 0.80 else 0.72;
          reason := "APARIGRAHA_PASS" |}.

(** *** Composite gate *)

Record Yamas : Type := {
  ahimsa : GateVerdict;
  satya : GateVerdict;
  asteya : GateVerdict;
  brahmacharya : GateVerdict;
  aparigraha : GateVerdict
}.

Record ReceiptFields : Type := {
  rf_constitutional_score : Q;
  gate_timestamp : string;
  brahmacharya_auto_reject : bool
}.

Module Verdict.
Record t : Type := {
  pass : bool;
  constitutional_score : Q;
  yamas : Yamas;
  blocked_by : list string;
  receipt_fields : ReceiptFields
}.
End Verdict.

(** [Object.entries(scores)]: the gates in the order the literal lists them. *)
Definition entries (y : Yamas) : list (string * GateVerdict) :=
  [("ahimsa", ahimsa y); ("satya", satya y); ("asteya", asteya y);
   ("brahmacharya", brahmacharya y); ("aparigraha", aparigraha y)].

(** [now] is the value of [new Date().toISOString()] at the call. *)
Definition runAllGates (now : string) (ctx : GateContext) : Verdict.t :=
  let scores :=
    {| ahimsa := ahimsaGate ctx;
       satya := satyaGate ctx;
       asteya := asteyaGate ctx;
       brahmacharya := brahmaacharyaGate ctx;
       aparigraha := aparigrahaGate ctx |} in
  let blocked_by :=
    map (fun e => fst e ++ ": " ++ reason (snd e))
        (filter (fun e => negb (pass (snd e))) (entries scores)) in
  let brahmaAuto := negb (pass (brahmacharya scores)) in
  let constitutional_score :=
    if brahmaAuto then 0
    else 0.25 * score (ahimsa scores)
         + 0.25 * score (satya scores)
         + 0.15 * score (asteya scores)
         + 0.20 * score (brahmacharya scores)
         + 0.15 * score (aparigraha scores) in
  let pass_ :=
    (Nat.eqb (List.length blocked_by) 0) && Num.leb 0.60 constitutional_score in
  {| Verdict.pass := pass_;
     Verdict.constitutional_score :=
       inject_Z (Num.Math_round (constitutional_score * 1000)) / 1000;
     Verdict.yamas := scores;
     Verdict.blocked_by := blocked_by;
     Verdict.receipt_fields :=
       {| rf_constitutional_score := constitutional_score;
          gate_timestamp := now;
          brahmacharya_auto_reject := brahmaAuto |} |}.

(** A verdict that is either a block at score 0 or a pass at a score
    from [lo] to 1. *)
Definition scored_within (lo : Q) (g : GateVerdict) : Prop :=
  (pass g = false /\ score g == 0) \/ (pass g = true /\ lo <= score g /\ score g <= 1).

(** No gate blocks. *)
Definition all_pass (ctx : GateContext) : bool :=
  pass (ahimsaGate ctx) && pass (satyaGate ctx) && pass (asteyaGate ctx)
  && pass (brahmaacharyaGate ctx) && pass (aparigrahaGate ctx).

(** The context with its two advisory properties replaced. *)
Definition with_advisory (pf : option bool) (rj : option string) (ctx : GateContext)
  : GateContext :=
  {| equity_flag := equity_flag ctx;
     population_size := population_size ctx;
     patient_facing := pf;
     assessment_type := assessment_type ctx;
     confidence := confidence ctx;
     data_quality := data_quality ctx;
     model_version := model_version ctx;
     consent_record_id := consent_record_id ctx;
     cohort := cohort ctx;
     scope := scope ctx;
     clinician_id := clinician_id ctx;
     regulatory_jurisdiction := rj;
     model_count := model_count ctx;
     dissent_flag := dissent_flag ctx |}.

End Gates.

(* ------------------------------------------------------------------ *)
(** ** shared/kaitiaki/chain.js *)

Module Chain.
Local Open Scope string_scope.
Local Open Scope Z_scope.

(** The receipt properties [chainReceipt] reads and writes.  [receipt_id]
    is [None] when it is missing or not a string; the others are [None]
    when missing or [null] ([chain_depth]: when not a number). *)
Record Receipt : Type := {
  receipt_id : option string;
  parent_receipt_id : option string;
  chain_depth : option Z;
  chain_root : option string
}.

(** The shapes of [parentReceiptOrId]. *)
Inductive ParentRef : Type :=
| NoParent                       (* null, undefined *)
| ParentId (id : string)         (* a bare receipt_id *)
| ParentReceipt (parent : Receipt). (* a full parent receipt *)

Definition chainReceipt (currentReceipt : option Receipt) (parentReceiptOrId : ParentRef)
  : result Receipt :=
  match currentReceipt with
  | Some {| receipt_id := Some ownId |} =>
      let '(parentId, parentDepth, parentRoot) :=
        match parentReceiptOrId with
        | ParentReceipt parent =>
            let parentId := receipt_id parent in
            (parentId,
             dflt 0 (chain_depth parent),
             match chain_root parent with
             | Some root => Some root
             | None => parentId
             end)
        | ParentId id =>
            if negb (String.eqb (JS.trim id) "")
            then (Some id, 0, Some id)
            else (None, 0, None)
        | NoParent => (None, 0, None)
        end in
      let hasParent := JS.truthy parentId in
      Ok {| receipt_id := Some ownId;
            parent_receipt_id := if hasParent then parentId else None;
            chain_depth := Some (if hasParent then parentDepth + 1 else 0);
            chain_root := if hasParent then parentRoot else Some ownId |}
  | _ => Throw "currentReceipt must be an object with a string receipt_id"
  end.

End Chain.

(* ------------------------------------------------------------------ *)
(** ** shared/kaitiaki/middleware.js *)

Module Kaitiaki.
Local Open Scope string_scope.
Local Open Scope Z_scope.

(** *** Crypto helpers *)

Definition hexToBigInt (hex : string) : result Z :=
  JS.BigInt_hex (JS.slice0 16 hex).

Definition P : Z := 0xffffffffffffffffffffffffffffff61.

(** Arnold Cat Map over two chain states. *)
Definition arnoldTransform (aHash bHash : string) : result string :=
  do a <- hexToBigInt aHash;
  do b <- hexToBigInt bHash;
  let x := (2 * a + b) mod P in
  let y := (a + b) mod P in
  let combined :=
    JS.padStart0 32 (JS.toString16 x) ++ JS.padStart0 32 (JS.toString16 y) in
  Ok (SHA256.sha256_bytes (JS.bytes_of_hex combined)).

(** *** Response payloads *)

#[local] Set Warnings "-register-all".

Inductive jsval : Type :=
| JUndefined
| JNull
| JBool (b : bool)
| JNum (q : Q)
| JStr (s : string)
| JArr (items : list jsval)
| JObj (props : list (string * jsval)).

(** Assignment to a property: in place when the key exists, appended
    otherwise — the effect of [{ ...obj, key: v }] and of [setHeader]. *)
Fixpoint set_prop {A} (key : string) (v : A) (props : list (string * A))
  : list (string * A) :=
  match props with
  | [] => [(key, v)]
  | (k, old) :: rest =>
      if String.eqb k key then (k, v) :: rest else (k, old) :: set_prop key v rest
  end.

(** [data !== null && typeof data === 'object' && !Array.isArray(data)] *)
Definition is_plain_object (data : jsval) : bool :=
  match data with
  | JObj _ => true
  | _ => false
  end.

(** *** Receipts *)

Module Helix.
Record t : Type := { artifact_hash : string; signature : string; public_key : string }.
End Helix.

Module Posc.
Record t : Type := {
  state : string;
  previous_state : string;
  chain_position : Z;
  genesis_hash : string
}.
End Posc.

Module PoscLink.
Record t : Type := { state : string; previous_state : string; chain_position : Z }.
End PoscLink.

Module Seals.
Record t : Type := {
  artifact_hash : string;
  drand_beacon : string;
  geonet_entropy : string;
  sadi_fingerprint : string;
  posc_link : PoscLink.t
}.
End Seals.

Record Layers : Type := { helix : Helix.t; posc : Posc.t; seals : Seals.t }.

Module Receipt.
Record t : Type := {
  receipt_id : string;
  version : string;
  timestamp : string;
  public_key : string;
  layers : Layers;
  sovereign : string;
  protocol : string
}.
End Receipt.

Module Compact.
Record t : Type := {
  receipt_id : string;
  signature : string;
  artifact_hash : string;
  public_key : string;
  chain_position : Z;
  timestamp : string
}.
End Compact.

(** Compact receipt summary embedded in response body *)
Definition compactReceipt (full : Receipt.t) : Compact.t :=
  {| Compact.receipt_id := Receipt.receipt_id full;
     Compact.signature := Helix.signature (helix (Receipt.layers full));
     Compact.artifact_hash := Helix.artifact_hash (helix (Receipt.layers full));
     Compact.public_key := Receipt.public_key full;
     Compact.chain_position := Posc.chain_position (posc (Receipt.layers full));
     Compact.timestamp := Receipt.timestamp full |}.

(** The compact receipt as the object literal [compactReceipt] returns. *)
Definition compact_value (c : Compact.t) : jsval :=
  JObj [("receipt_id", JStr (Compact.receipt_id c));
        ("signature", JStr (Compact.signature c));
        ("artifact_hash", JStr (Compact.artifact_hash c));
        ("public_key", JStr (Compact.public_key c));
        ("chain_position", JNum (inject_Z (Compact.chain_position c)));
        ("timestamp", JStr (Compact.timestamp c))].

(** [{ ...data, _kaitiaki: compact }] *)
Definition with_kaitiaki (data : jsval) (c : Compact.t) : jsval :=
  match data with
  | JObj props => JObj (set_prop "_kaitiaki" (compact_value c) props)
  | _ => data
  end.

(** *** Shared seal state *)

Record ChainState : Type := {
  chainPosition : Z;
  prevState : string;
  prevPrevState : string
}.

(** What a call reads from its environment: [Date.now()] and
    [randomBytes(2)]. *)
Record Env : Type := { ts : Z; rnd : list Z }.

Section Transport.

(** The keypair loaded at start-up, and the host functions whose results
    the module takes as given: Ed25519 signing (which throws on a key of
    the wrong size), [JSON.stringify] of an arbitrary payload (which throws
    or yields [undefined] on some values), and date formatting. *)
Variable PUBLIC_KEY : string.
Variable secretKey : list Z.
Variable sign_detached : list Z -> list Z -> result (list Z).
Variable JSON_stringify : jsval -> result (option string).
Variable toISOString : Z -> string.

Definition GENESIS_HASH : string :=
  SHA256.sha256 ("turangawaewae_transport_" ++ JS.slice0 16 PUBLIC_KEY).

Definition initial : ChainState :=
  {| chainPosition := 0; prevState := GENESIS_HASH; prevPrevState := GENESIS_HASH |}.

(** [sha256(data)] on what [JSON.stringify] returned: hashing [undefined]
    is a TypeError (ERR_INVALID_ARG_TYPE). *)
Definition sha256_of (data : option string) : result string :=
  match data with
  | Some s => Ok (SHA256.sha256 s)
  | None =>
      Throw ("The " ++ JS.dquote ++ "data" ++ JS.dquote
             ++ " argument must be of type string or an instance of Buffer,"
             ++ " TypedArray, or DataView. Received undefined")
  end.

(** Core seal.  Every step that can throw precedes the update of the
    chain state, so a throw leaves the state as it was. *)
Definition sealTransport (st : ChainState) (env : Env) (payload : jsval) (domain : string)
  : result (Receipt.t * ChainState) :=
  let ts := ts env in
  let receiptId := "KT-" ++ JS.decimal ts ++ "-" ++ JS.hex_of_bytes (rnd env) in
  do json <- JSON_stringify payload;
  do cotHash <- sha256_of json;
  let parseHash := SHA256.sha256 (domain ++ "|" ++ JS.decimal ts) in
  let artifactHash := SHA256.sha256 (cotHash ++ parseHash) in
  do sigBytes <- sign_detached (JS.bytes_of_hex artifactHash) secretKey;
  let signature := JS.hex_of_bytes sigBytes in
  do arnold <- arnoldTransform (prevPrevState st) (prevState st);
  let state := SHA256.sha256 (artifactHash ++ arnold) in
  let chainPosition := chainPosition st + 1 in
  let posc :=
    {| Posc.state := state;
       Posc.previous_state := prevState st;
       Posc.chain_position := chainPosition;
       Posc.genesis_hash := GENESIS_HASH |} in
  let seals :=
    {| Seals.artifact_hash := artifactHash;
       Seals.drand_beacon := SHA256.sha256 ("local_drand_" ++ JS.decimal ts);
       Seals.geonet_entropy := SHA256.sha256 ("local_geonet_" ++ JS.decimal ts);
       Seals.sadi_fingerprint := SHA256.sha256 (domain ++ "|" ++ artifactHash);
       Seals.posc_link :=
         {| PoscLink.state := Posc.state posc;
            PoscLink.previous_state := Posc.previous_state posc;
            PoscLink.chain_position := Posc.chain_position posc |} |} in
  Ok ({| Receipt.receipt_id := receiptId;
         Receipt.version := "3.0-transport";
         Receipt.timestamp := toISOString ts;
         Receipt.public_key := PUBLIC_KEY;
         Receipt.layers :=
           {| helix := {| Helix.artifact_hash := artifactHash;
                          Helix.signature := signature;
                          Helix.public_key := PUBLIC_KEY |};
              posc := posc;
              seals := seals |};
         Receipt.sovereign := "Regan Duff";
         Receipt.protocol := "Turangawaewae Protocol v3" |},
      {| chainPosition := chainPosition;
         prevState := state;
         prevPrevState := prevState st |}).

(** *** Express middleware *)

Record Request : Type := { method : string; path : string }.

(** The response object: its headers, and the bodies handed to the
    original [res.json]. *)
Record Response : Type := {
  headers : list (string * string);
  sent : list jsval
}.

Definition setHeader (name value : string) (res : Response) : Response :=
  {| headers := set_prop name value (headers res); sent := sent res |}.

Definition originalJson (body : jsval) (res : Response) : Response :=
  {| headers := headers res; sent := sent res ++ [body] |}.

(** What one [res.json(data)] leaves behind: the response, the lines
    written by [console.error], and the chain state. *)
Record Outcome : Type := {
  response : Response;
  console : list string;
  chain : ChainState
}.

(** The [res.json] that [kaitiakiExpressMiddleware] installs. *)
Definition kaitiakiJson (st : ChainState) (env : Env) (req : Request) (res : Response)
  (data : jsval) : Outcome :=
  let domain := method req ++ " " ++ path req in
  match sealTransport st env data domain with
  | Ok (receipt, st') =>
      let compact := compactReceipt receipt in
      let res1 := setHeader "X-Kaitiaki-Receipt-Id" (Compact.receipt_id compact) res in
      let res2 := setHeader "X-Kaitiaki-Chain-Position"
                    (JS.decimal (Compact.chain_position compact)) res1 in
      let res3 := setHeader "X-Kaitiaki-Public-Key"
                    (JS.slice0 16 (Compact.public_key compact) ++ "...") res2 in
      if is_plain_object data
      then {| response := originalJson (with_kaitiaki data compact) res3;
              console := []; chain := st' |}
      else {| response := originalJson data res3; console := []; chain := st' |}
  | Throw message =>
      {| response := originalJson data res;
         console := ["[kaitiaki-middleware] seal error (non-fatal): " ++ message];
         chain := st |}
  end.

(** *** Cloudflare Workers wrapper *)

Definition kaitiakiWrapResponse (st : ChainState) (env : Env) (data : jsval)
  (domain : option string) : jsval * ChainState :=
  let domain := dflt "cloudflare-worker" domain in
  match sealTransport st env data domain with
  | Ok (receipt, st') =>
      let compact := compactReceipt receipt in
      if is_plain_object data
      then (with_kaitiaki data compact, st')
      else (data, st')
  | Throw _ => (data, st)
  end.

(** A run of seal calls, each on the state the previous one left. *)
Fixpoint seal_all (st : ChainState) (calls : list (Env * jsval * string))
  : result (list Receipt.t * ChainState) :=
  match calls with
  | [] => Ok ([], st)
  | (env, payload, domain) :: rest =>
      do r <- sealTransport st env payload domain;
      do rs <- seal_all (snd r) rest;
      Ok (fst r :: fst rs, snd rs)
  end.

End Transport.

(** *** The mixing transform as the specification words it *)

(** A 256-bit chain state, as the module holds it: 64 hexadecimal digits. *)
Definition is_hex_digest (h : string) : bool :=
  Nat.eqb (String.length h) 64 && JS.all_hex h.

(** Both remembered states are digests: true of [initial] and kept by
    [sealTransport]. *)
Definition valid_state (st : ChainState) : Prop :=
  is_hex_digest (prevState st) = true /\ is_hex_digest (prevPrevState st) = true.

Definition seals_of (r : Receipt.t) : Seals.t := seals (Receipt.layers r).

(** The chain position a client reads off a receipt. *)
Definition position_of (r : Receipt.t) : Z :=
  Compact.chain_position (compactReceipt r).

(** The leading 64 bits of a 256-bit state given as a hex digest. *)
Definition leading64 (digest : string) : Z :=
  JS.be_value (firstn 8 (JS.bytes_of_hex digest)).

(** Two-point mixer: [x = (2a + b) mod P], [y = (a + b) mod P] on the
    leading 64 bits, each encoded on 128 bits big-endian, then hashed. *)
Definition mixing_reference (state_a state_b : string) : string :=
  let a := leading64 state_a in
  let b := leading64 state_b in
  let x := (2 * a + b) mod P in
  let y := (a + b) mod P in
  SHA256.sha256_bytes (JS.be_bytes 16 x ++ JS.be_bytes 16 y).

End Kaitiaki.

(* ------------------------------------------------------------------ *)
(** ** The contexts the specification works through *)

Module Examples.
Local Open Scope string_scope.
Local Open Scope Q_scope.

(** [derive("nz-smokers", "population_mortality", "clin-1")] *)
Definition token : option string :=
  match Consent.generateConsentRecordId
          (Some "nz-smokers") (Some "population_mortality") (Some "clin-1") with
  | Ok id => Some id
  | Throw _ => None
  end.

(** The end-to-end context, with the given confidence and scope. *)
Definition context (confidence : Q) (scope : string) (token : option string)
  : Gates.GateContext :=
  {| Gates.equity_flag := None;
     Gates.population_size := None;
     Gates.patient_facing := None;
     Gates.assessment_type := None;
     Gates.confidence := Some confidence;
     Gates.data_quality := Some "good";
     Gates.model_version := Some "v1";
     Gates.consent_record_id := token;
     Gates.cohort := Some "nz-smokers";
     Gates.scope := Some scope;
     Gates.clinician_id := Some "clin-1";
     Gates.regulatory_jurisdiction := Some "nz";
     Gates.model_count := Some 2;
     Gates.dissent_flag := None |}.

Definition end_to_end : Gates.GateContext :=
  context 0.75 "population_mortality" token.

Definition low_confidence : Gates.GateContext :=
  context 0.45 "population_mortality" token.

(** A scope outside the validated list, with a consent record that
    matches it, so that the four other gates pass. *)
Definition off_scope : Gates.GateContext :=
  context 0.75 "astrology"
    (match Consent.generateConsentRecordId
             (Some "nz-smokers") (Some "astrology") (Some "clin-1") with
     | Ok id => Some id
     | Throw _ => None
     end).

(** The context with no property at all. *)
Definition empty : Gates.GateContext :=
  {| Gates.equity_flag := None;
     Gates.population_size := None;
     Gates.patient_facing := None;
     Gates.assessment_type := None;
     Gates.confidence := None;
     Gates.data_quality := None;
     Gates.model_version := None;
     Gates.consent_record_id := None;
     Gates.cohort := None;
     Gates.scope := None;
     Gates.clinician_id := None;
     Gates.regulatory_jurisdiction := None;
     Gates.model_count := None;
     Gates.dissent_flag := None |}.

(** The entry [runAllGates] lists for the Truthfulness gate on
    [low_confidence]. *)
Definition low_confidence_entry : string :=
  "satya: SATYA_VIOLATION: confidence 0.450 < minimum 0.60".

(** A context that states a low confidence and no data quality. *)
Definition no_data_quality : Gates.GateContext :=
  {| Gates.equity_flag := None;
     Gates.population_size := None;
     Gates.patient_facing := None;
     Gates.assessment_type := None;
     Gates.confidence := Some 0.45;
     Gates.data_quality := None;
     Gates.model_version := Some "v1";
     Gates.consent_record_id := None;
     Gates.cohort := None;
     Gates.scope := None;
     Gates.clinician_id := None;
     Gates.regulatory_jurisdiction := None;
     Gates.model_count := None;
     Gates.dissent_flag := None |}.

Definition now : string := "2026-02-24T00:00:00.000Z".

(** A stand-in host for running the sealer: a key, a signer that answers
    every message, a serializer for strings, [null] and [undefined], and
    the timestamp printed as its number of milliseconds. *)
Definition PUBLIC_KEY : string :=
  "3d4017c3e843895a92b70aa74d1b7ebc9c982ccf2ec4968cc0cd55f12af4660c".

Definition secretKey : list Z := JS.bytes_of_hex PUBLIC_KEY.

Definition sign_detached (message key : list Z) : result (list Z) :=
  Ok (JS.bytes_of_hex (SHA256.sha256_bytes (key ++ message))).

Definition JSON_stringify (v : Kaitiaki.jsval) : result (option string) :=
  match v with
  | Kaitiaki.JStr s => Ok (Some (Consent.JSON_quote s))
  | Kaitiaki.JNull => Ok (Some "null")
  | Kaitiaki.JUndefined => Ok None
  | _ => Throw "Converting circular structure to JSON"
  end.

Definition toISOString (ts : Z) : string := JS.decimal ts.

Definition three_calls : list (Kaitiaki.Env * Kaitiaki.jsval * string) :=
  [({| Kaitiaki.ts := 1771891200000; Kaitiaki.rnd := [171; 205] |},
    Kaitiaki.JStr "ok", "GET /api/health");
   ({| Kaitiaki.ts := 1771891200001; Kaitiaki.rnd := [1; 2] |},
    Kaitiaki.JNull, "POST /api/v1/assess");
   ({| Kaitiaki.ts := 1771891200001; Kaitiaki.rnd := [1; 2] |},
    Kaitiaki.JNull, "POST /api/v1/assess")]%Z.

Definition local_receipt : Chain.Receipt :=
  {| Chain.receipt_id := Some "KT-AB-DD-1-abcd";
     Chain.parent_receipt_id := None;
     Chain.chain_depth := None;
     Chain.chain_root := None |}.

Definition parent_at_depth_2 : Chain.Receipt :=
  {| Chain.receipt_id := Some "KT-3-0c0c";
     Chain.parent_receipt_id := Some "KT-2-0b0b";
     Chain.chain_depth := Some 2%Z;
     Chain.chain_root := Some "KT-1-0a0a" |}.

End Examples.

(* ------------------------------------------------------------------ *)
(** ** shared/kaitiaki/chain.js: propagation between services *)

Module Propagation.
Import Kaitiaki.
Local Open Scope string_scope.

Fixpoint lookup {A} (key : string) (props : list (string * A)) : option A :=
  match props with
  | [] => None
  | (k, v) :: rest => if String.eqb k key then Some v else lookup key rest
  end.

(** [v?.[key]] for a key that no prototype defines: the property of an
    object that has it, [undefined] otherwise. *)
Definition get_prop (key : string) (v : jsval) : jsval :=
  match v with
  | JObj props => dflt JUndefined (lookup key props)
  | _ => JUndefined
  end.

(** What [extractParentReceipt] reads of a request. *)
Record Request : Type := { body : jsval; headers : jsval }.

(** [req] is [None] for [null] and [undefined]. *)
Definition extractParentReceipt (req : option Request) : option string :=
  match req with
  | None => None
  | Some req =>
      let fromBody := get_prop "parent_receipt_id" (body req) in
      let fromHeader := get_prop "x-kaitiaki-parent-receipt" (headers req) in
      let viaHeader :=
        match fromHeader with
        | JStr s => if negb (String.eqb (JS.trim s) "") then Some s else None
        | _ => None
        end in
      match fromBody with
      | JStr s => if negb (String.eqb (JS.trim s) "") then Some s else viaHeader
      | _ => viaHeader
      end
  end.

Definition buildChainHeaders (receiptId : jsval) : result (list (string * string)) :=
  match receiptId with
  | JStr s =>
      if String.eqb (JS.trim s) ""
      then Throw "receiptId must be a non-empty string"
      else Ok [("X-Kaitiaki-Parent-Receipt", s)]
  | _ => Throw "receiptId must be a non-empty string"
  end.

(** The headers as the receiving Node.js server presents them: names in
    lower case. *)
Definition received (sent : list (string * string)) : jsval :=
  JObj (map (fun h => (JS.toLowerCase (fst h), JStr (snd h))) sent).

(** The string-or-null that [extractParentReceipt] returns, as
    [chainReceipt] takes it. *)
Definition parent_ref (id : option string) : Chain.ParentRef :=
  match id with
  | Some id => Chain.ParentId id
  | None => Chain.NoParent
  end.

(** A receipt that has only its id. *)
Definition fresh (id : string) : Chain.Receipt :=
  {| Chain.receipt_id := Some id;
     Chain.parent_receipt_id := None;
     Chain.chain_depth := None;
     Chain.chain_root := None |}.

(** A chain built in one process: each receipt linked to the full receipt
    before it. *)
Fixpoint link_all (parent : Chain.ParentRef) (ids : list string)
  : result (list Chain.Receipt) :=
  match ids with
  | [] => Ok []
  | id :: rest =>
      do r <- Chain.chainReceipt (Some (fresh id)) parent;
      do rs <- link_all (Chain.ParentReceipt r) rest;
      Ok (r :: rs)
  end.

(** A chain built across services: each receipt linked to the id that the
    service before it sent in its headers. *)
Fixpoint relay_all (incoming : option Request) (ids : list string)
  : result (list Chain.Receipt) :=
  match ids with
  | [] => Ok []
  | id :: rest =>
      do r <- Chain.chainReceipt (Some (fresh id))
                (parent_ref (extractParentReceipt incoming));
      do sent <- buildChainHeaders (JStr id);
      do rs <- relay_all (Some {| body := JUndefined; headers := received sent |}) rest;
      Ok (r :: rs)
  end.

End Propagation.

(* ------------------------------------------------------------------ *)
(** ** server.js: the routes' gate contexts and chained receipts *)

Module Server.
Import Gates.
Local Open Scope string_scope.
Local Open Scope Q_scope.

(** [Math.max(a, b)] *)
Definition Math_max (a b : Q) : Q := if Num.leb a b then b else a.

(** [POST /api/v1/assess]: the context built from the request body, whose
    properties are those of a gate context.  The body's [equity_flag] is
    not read. *)
Definition assess_ctx (body : option GateContext) : GateContext :=
  let body := dflt Examples.empty body in
  {| equity_flag := None;
     population_size := Some (dflt 0 (population_size body));
     patient_facing := Some (dflt false (patient_facing body));
     assessment_type := Some (dflt "population_mortality" (assessment_type body));
     confidence := Some (dflt 0.75 (confidence body));
     data_quality := Some (dflt "good" (data_quality body));
     model_version := model_version body;
     consent_record_id := consent_record_id body;
     cohort := cohort body;
     scope := scope body;
     clinician_id := clinician_id body;
     regulatory_jurisdiction := regulatory_jurisdiction body;
     model_count := Some (dflt 2 (model_count body));
     dissent_flag := Some (dflt false (dissent_flag body)) |}.

(** [a ?? b] *)
Definition nullish {A} (a : option A) (b : A) : option A :=
  match a with
  | Some x => Some x
  | None => Some b
  end.

(** [POST /api/v1/drug_discovery_ingest] *)
Definition drug_discovery_ingest_ctx (body : option GateContext) : GateContext :=
  let body := dflt Examples.empty body in
  {| equity_flag := None;
     population_size := None;
     patient_facing := None;
     assessment_type := Some "population_mortality";
     confidence := Some 0.80;
     data_quality := Some "good";
     model_version := Some "drug-discovery-v1";
     consent_record_id := consent_record_id body;
     cohort := cohort body;
     scope := nullish (scope body) "drug_discovery_integration";
     clinician_id := clinician_id body;
     regulatory_jurisdiction := None;
     model_count := Some 2;
     dissent_flag := None |}.

(** [POST /api/v1/dr_bot_ingest]: the body also carries the adversarial
    score. *)
Record DrBotBody : Type := {
  gate_properties : GateContext;
  adversarial_score : option Q
}.

Definition dr_bot_ingest_ctx (body : option DrBotBody) : GateContext :=
  let adversarial_score :=
    match body with Some b => adversarial_score b | None => None end in
  let body :=
    match body with Some b => gate_properties b | None => Examples.empty end in
  {| equity_flag := None;
     population_size := None;
     patient_facing := None;
     assessment_type := Some "population_mortality";
     confidence :=
       Some (match adversarial_score with
             | Some s => Math_max 0 (1 - s)
             | None => 0.70
             end);
     data_quality := Some "good";
     model_version := Some "dr-bot-v1";
     consent_record_id := consent_record_id body;
     cohort := cohort body;
     scope := nullish (scope body) "dr_bot_integration";
     clinician_id := clinician_id body;
     regulatory_jurisdiction := None;
     model_count := Some 2;
     dissent_flag := Some true |}.

(** The chained receipt of the two ingest routes.  [now] is [Date.now()]
    and [random] the four characters cut from [Math.random().toString(16)]. *)
Definition ddChainedReceipt (now : Z) (random : string)
  (req : option Propagation.Request) : result Chain.Receipt :=
  let ddParentReceiptId := Propagation.extractParentReceipt req in
  let ddLocalReceipt :=
    Propagation.fresh ("KT-AB-DD-" ++ JS.decimal now ++ "-" ++ random) in
  Chain.chainReceipt (Some ddLocalReceipt) (Propagation.parent_ref ddParentReceiptId).

Definition drBotChainedReceipt (now : Z) (random : string)
  (req : option Propagation.Request) : result Chain.Receipt :=
  let drBotParentReceiptId := Propagation.extractParentReceipt req in
  let drBotLocalReceipt :=
    Propagation.fresh ("KT-AB-DRBOT-" ++ JS.decimal now ++ "-" ++ random) in
  Chain.chainReceipt (Some drBotLocalReceipt)
    (Propagation.parent_ref drBotParentReceiptId).

End Server.

(* ------------------------------------------------------------------ *)
(** ** advisor/gate-explainer.js *)

Module Explainer.
Local Open Scope string_scope.
Local Open Scope Q_scope.

(** The flat gate object [explainGates] is handed; a gate may be missing. *)
Record GateResult : Type := {
  ahimsa : option Gates.GateVerdict;
  satya : option Gates.GateVerdict;
  asteya : option Gates.GateVerdict;
  brahmacharya : option Gates.GateVerdict;
  aparigraha : option Gates.GateVerdict
}.

(** [!gate?.pass] *)
Definition fails (gate : option Gates.GateVerdict) : bool :=
  match gate with
  | Some v => negb (Gates.pass v)
  | None => true
  end.

(** [x || d] on a number: [d] stands in for [undefined] and for zero. *)
Definition or_num (x : option Q) (d : Q) : Q :=
  match x with
  | Some q => if Qeq_bool q 0 then d else q
  | None => d
  end.

(** [list.includes(x)] for a property that may be [undefined]. *)
Definition includes (xs : list string) (x : option string) : bool :=
  match x with
  | Some s => Gates.includes xs s
  | None => false
  end.

(** [if (cond) explanations.push(message)] *)
Definition push (cond : bool) (message : string) (explanations : list string)
  : list string :=
  if cond then (explanations ++ [message])%list else explanations.

Section Messages.

(** How a template literal prints a number. *)
Variable Number_toString : Q -> string.

Definition show_string (s : option string) : string := dflt "undefined" s.

Definition show_number (x : option Q) : string :=
  match x with
  | Some q => Number_toString q
  | None => "undefined"
  end.

Definition forbidden_type (ctx : Gates.GateContext) : string :=
  "BLOCKED: Assessment type " ++ JS.dquote ++ show_string (Gates.assessment_type ctx)
  ++ JS.dquote ++ " is permanently blocked — it has caused discriminatory harm. "
  ++ "Use a non-discriminatory scope instead.".

Definition equity_missing (ctx : Gates.GateContext) : string :=
  "WARNING: Population " ++ show_number (Gates.population_size ctx)
  ++ " exceeds 10,000 — equity_flag required. "
  ++ "Example: " ++ JS.dquote ++ "age-stratified" ++ JS.dquote ++ " or "
  ++ JS.dquote ++ "sex-adjusted" ++ JS.dquote ++ ".".

Definition patient_facing : string :=
  "NOTE: Patient-facing assessments reduce Ahimsa from 0.95 to 0.80. "
  ++ "Ensure other gates score well to keep composite above 0.60.".

Definition low_confidence (ctx : Gates.GateContext) : string :=
  "WARNING: Model confidence " ++ show_number (Gates.confidence ctx)
  ++ " is below the 0.60 minimum. "
  ++ "Use a better-calibrated model or improve training data.".

Definition no_model_version : string :=
  "WARNING: No model_version specified. Name the model used (e.g. "
  ++ JS.dquote ++ "cox-ph-v2.1" ++ JS.dquote ++ ").".

Definition poor_data (ctx : Gates.GateContext) : string :=
  "WARNING: Data quality " ++ JS.dquote ++ show_string (Gates.data_quality ctx)
  ++ JS.dquote ++ " fails Satya gate. "
  ++ "Only 'good', 'high', or 'excellent' pass.".

Definition no_consent : string :=
  "BLOCKED: No consent_record_id — no analysis without consent. "
  ++ "Generate a consent record with your cohort, scope, and clinician ID.".

Definition invalid_consent : string :=
  "BLOCKED: Consent record does not match cohort/scope/clinician. "
  ++ "Generate a new consent record with the current parameters.".

Definition invalid_scope (ctx : Gates.GateContext) : string :=
  "BLOCKED: Scope " ++ JS.dquote ++ show_string (Gates.scope ctx) ++ JS.dquote
  ++ " is not in the validated whitelist. "
  ++ "Valid scopes: life_insurance_pricing, health_insurance_risk, reinsurance_modelling, "
  ++ "population_mortality, drug_discovery_integration, dr_bot_integration.".

Definition no_jurisdiction : string :=
  "NOTE: No regulatory_jurisdiction. Adding one (e.g. " ++ JS.dquote ++ "nz-privacy"
  ++ JS.dquote ++ ", " ++ JS.dquote ++ "eu-gdpr" ++ JS.dquote ++ ") "
  ++ "improves Brahmacharya from 0.70 to 0.90.".

Definition single_model : string :=
  "WARNING: model_count=1 with no dissent_flag. Aparigraha requires at least 2 models "
  ++ "or dissent_flag=true for ensemble diversity.".

Definition no_dissent : string :=
  "NOTE: No dissent_flag. If alternative interpretations exist, setting dissent_flag=true "
  ++ "improves Aparigraha from 0.72 to 0.80.".

Definition FORBIDDEN_TYPES : list string :=
  ["genetic_exclusion"; "racial_profiling"; "disability_penalty"].

Definition explainGates (gateResult : option GateResult) (ctx : Gates.GateContext)
  : list string :=
  match gateResult with
  | None => []
  | Some gateResult =>
      let explanations := [] in
      (* Ahimsa *)
      let explanations :=
        if fails (ahimsa gateResult)
        then
          push (Num.ltb 10000 (or_num (Gates.population_size ctx) 0)
                && negb (JS.truthy (Gates.equity_flag ctx)))
               (equity_missing ctx)
            (push (includes FORBIDDEN_TYPES (Gates.assessment_type ctx))
                  (forbidden_type ctx) explanations)
        else push (dflt false (Gates.patient_facing ctx)) patient_facing explanations in
      (* Satya *)
      let explanations :=
        if fails (satya gateResult)
        then
          push (negb (includes ["good"; "high"; "excellent"] (Gates.data_quality ctx)))
               (poor_data ctx)
            (push (negb (JS.truthy (Gates.model_version ctx))) no_model_version
               (push (Num.ltb (or_num (Gates.confidence ctx) 0) 0.60)
                     (low_confidence ctx) explanations))
        else explanations in
      (* Asteya *)
      let explanations :=
        if fails (asteya gateResult)
        then
          if negb (JS.truthy (Gates.consent_record_id ctx))
          then push true no_consent explanations
          else push true invalid_consent explanations
        else explanations in
      (* Brahmacharya *)
      let explanations :=
        if fails (brahmacharya gateResult)
        then push true (invalid_scope ctx) explanations
        else push (negb (JS.truthy (Gates.regulatory_jurisdiction ctx)))
                  no_jurisdiction explanations in
      (* Aparigraha *)
      let explanations :=
        if Num.ltb (or_num (option_map Gates.score (aparigraha gateResult)) 1) 0.75
        then
          if Num.ltb (or_num (Gates.model_count ctx) 1) 2
             && negb (dflt false (Gates.dissent_flag ctx))
          then push true single_model explanations
          else push (negb (dflt false (Gates.dissent_flag ctx))) no_dissent explanations
        else explanations in
      explanations
  end.

(** The call in [handleAdvisorTurn]: the gates run on the context, and
    their five verdicts explained against the same context. *)
Definition flatGates (v : Gates.Verdict.t) : GateResult :=
  let y := Gates.Verdict.yamas v in
  {| ahimsa := Some (Gates.ahimsa y);
     satya := Some (Gates.satya y);
     asteya := Some (Gates.asteya y);
     brahmacharya := Some (Gates.brahmacharya y);
     aparigraha := Some (Gates.aparigraha y) |}.

Definition simulate (now : string) (ctx : Gates.GateContext) : list string :=
  explainGates (Some (flatGates (Gates.runAllGates now ctx))) ctx.

End Messages.

End Explainer.

(* ------------------------------------------------------------------ *)
(** ** What a holder of the receipts can check *)

Module Verifier.
Import Kaitiaki.

Definition posc_of (r : Receipt.t) : Posc.t := posc (Receipt.layers r).
Definition helix_of (r : Receipt.t) : Helix.t := helix (Receipt.layers r).

(** The receipts continue the chain whose last two states are [before]
    and [last]: each records the state before it, and its own state is
    the hash of its artifact hash and the mix of the two states before. *)
Fixpoint entangled (before last : string) (rs : list Receipt.t) : Prop :=
  match rs with
  | [] => True
  | r :: rest =>
      Posc.previous_state (posc_of r) = last
      /\ Posc.state (posc_of r)
         = SHA256.sha256 (Helix.artifact_hash (helix_of r) ++ mixing_reference before last)
      /\ entangled last (Posc.state (posc_of r)) rest
  end.

(** The three layers of a receipt say the same thing. *)
Definition consistent (r : Receipt.t) : Prop :=
  PoscLink.state (Seals.posc_link (seals_of r)) = Posc.state (posc_of r)
  /\ PoscLink.previous_state (Seals.posc_link (seals_of r))
     = Posc.previous_state (posc_of r)
  /\ PoscLink.chain_position (Seals.posc_link (seals_of r))
     = Posc.chain_position (posc_of r)
  /\ Seals.artifact_hash (seals_of r) = Helix.artifact_hash (helix_of r)
  /\ Helix.public_key (helix_of r) = Receipt.public_key r.

End Verifier.

(* ------------------------------------------------------------------ *)
(** ** Further contexts and requests *)

Module Scenarios.
Local Open Scope string_scope.
Local Open Scope Q_scope.

(** The end-to-end context resting on one model. *)
Definition one_model : Gates.GateContext :=
  {| Gates.equity_flag := None;
     Gates.population_size := None;
     Gates.patient_facing := None;
     Gates.assessment_type := None;
     Gates.confidence := Some 0.75;
     Gates.data_quality := Some "good";
     Gates.model_version := Some "v1";
     Gates.consent_record_id := Examples.token;
     Gates.cohort := Some "nz-smokers";
     Gates.scope := Some "population_mortality";
     Gates.clinician_id := Some "clin-1";
     Gates.regulatory_jurisdiction := Some "nz";
     Gates.model_count := Some 1;
     Gates.dissent_flag := None |}.

(** A stand-in for the printing of numbers: three decimals. *)
Definition Number_toString (q : Q) : string := Num.toFixed3 q.

(** A request that names its parent in a header only. *)
Definition downstream : Propagation.Request :=
  {| Propagation.body := Kaitiaki.JObj [("candidates", Kaitiaki.JArr [])];
     Propagation.headers :=
       Kaitiaki.JObj [("content-type", Kaitiaki.JStr "application/json");
                      ("x-kaitiaki-parent-receipt", Kaitiaki.JStr "KT-3-0c0c")] |}.

Definition health : Kaitiaki.Request :=
  {| Kaitiaki.method := "GET"; Kaitiaki.path := "/api/health" |}.

Definition blank_response : Kaitiaki.Response :=
  {| Kaitiaki.headers := [("Content-Type", "application/json")]; Kaitiaki.sent := [] |}.

Definition first_call : Kaitiaki.Env :=
  {| Kaitiaki.ts := 1771891200000; Kaitiaki.rnd := [171; 205] |}%Z.

(** A stand-in serializer for the payloads: [JSON.stringify] on strings,
    [null], booleans, arrays and objects, numbers printed by
    [Number_toString]; [undefined] is skipped in objects and [null] in
    arrays. *)
Fixpoint stringify (v : Kaitiaki.jsval) : option string :=
  match v with
  | Kaitiaki.JUndefined => None
  | Kaitiaki.JNull => Some "null"
  | Kaitiaki.JBool b => Some (if b then "true" else "false")
  | Kaitiaki.JNum q => Some (Number_toString q)
  | Kaitiaki.JStr s => Some (Consent.JSON_quote s)
  | Kaitiaki.JArr items =>
      Some ("[" ++ String.concat "," (map (fun i => dflt "null" (stringify i)) items)
            ++ "]")
  | Kaitiaki.JObj props =>
      Some ("{" ++ String.concat ","
                     (flat_map (fun p => match stringify (snd p) with
                                         | Some t => [Consent.JSON_quote (fst p) ++ ":" ++ t]
                                         | None => []
                                         end) props)
            ++ "}")
  end.

Definition JSON_stringify (v : Kaitiaki.jsval) : result (option string) :=
  Ok (stringify v).

Definition health_body : Kaitiaki.jsval :=
  Kaitiaki.JObj [("status", Kaitiaki.JStr "ok"); ("service", Kaitiaki.JStr "actuary-bot")].

End Scenarios.

(* ================================================================== *)
(** * Properties *)

Unset Implicit Arguments.
Local Open Scope string_scope.

(* ------------------------------------------------------------------ *)
(** ** Strings *)

Lemma app_assoc_s (a b c : string) : ((a ++ b) ++ c = a ++ (b ++ c))%string.
Proof. induction a as [|x a IH]; cbn; [reflexivity | now rewrite IH]. Qed.

Lemma app_nil_s (a : string) : (a ++ "")%string = a.
Proof. induction a as [|x a IH]; cbn; [reflexivity | now rewrite IH]. Qed.

Lemma length_app_s (a b : string) :
  String.length (a ++ b) = (String.length a + String.length b)%nat.
Proof. induction a as [|x a IH]; cbn; [reflexivity | now rewrite IH]. Qed.

(* ------------------------------------------------------------------ *)
(** ** Gate orchestrator *)

Section GateProperties.
Import Gates.
Local Open Scope Q_scope.

Lemma brahmacharya_blocks_unlisted_scope (ctx : GateContext) :
  (forall s, scope ctx = Some s -> ~ In s VALIDATED_SCOPES) ->
  pass (brahmaacharyaGate ctx) = false.
Proof.
  intros H. unfold brahmaacharyaGate.
  destruct (scope ctx) as [[|c s]|] eqn:E; try reflexivity.
  cbn [JS.truthy negb Consent.String_ dflt].
  destruct (includes VALIDATED_SCOPES (String c s)) eqn:I; [|reflexivity].
  exfalso. apply (H _ eq_refl).
  unfold includes in I. apply existsb_exists in I as (x & Hin & Hx).
  apply String.eqb_eq in Hx. now subst x.
Qed.

Lemma blocked_never_passes (now : string) (ctx : GateContext) :
  Verdict.blocked_by (runAllGates now ctx) <> [] ->
  Verdict.pass (runAllGates now ctx) = false.
Proof.
  unfold runAllGates. cbn [Verdict.blocked_by Verdict.pass].
  intros H.
  match goal with |- (Nat.eqb (List.length ?l) 0 && _)%bool = false =>
    destruct l; [congruence | reflexivity] end.
Qed.

(** C1.  Whenever the Boundary (brahmacharya) gate fails, and so whenever
    the scope is absent or outside the validated list, the composite score
    [runAllGates] returns is 0, rounded and unrounded alike, whatever the
    other four gates scored, and the request is denied. *)
Theorem boundary_failure_voids_composite (now : string) (ctx : GateContext) :
  pass (brahmaacharyaGate ctx) = false
  \/ (forall s, scope ctx = Some s -> ~ In s VALIDATED_SCOPES) ->
  Verdict.constitutional_score (runAllGates now ctx) == 0
  /\ rf_constitutional_score (Verdict.receipt_fields (runAllGates now ctx)) == 0
  /\ brahmacharya_auto_reject (Verdict.receipt_fields (runAllGates now ctx)) = true
  /\ Verdict.pass (runAllGates now ctx) = false.
Proof.
  intros H.
  assert (F : pass (brahmaacharyaGate ctx) = false).
  { destruct H as [H|H]; [exact H | now apply brahmacharya_blocks_unlisted_scope]. }
  unfold runAllGates.
  cbn [Verdict.constitutional_score Verdict.receipt_fields Verdict.pass
       rf_constitutional_score brahmacharya_auto_reject brahmacharya].
  rewrite F. cbn [negb].
  repeat split; try reflexivity.
  apply andb_false_r.
Qed.

(** An unlisted scope with the four other gates passing at 0.95, 0.825,
    0.95 and 0.72: the composite is 0. *)
Lemma boundary_failure_voids_composite_witness :
  (pass (ahimsaGate Examples.off_scope) = true
   /\ pass (satyaGate Examples.off_scope) = true
   /\ pass (asteyaGate Examples.off_scope) = true
   /\ pass (aparigrahaGate Examples.off_scope) = true)
  /\ Verdict.constitutional_score (runAllGates Examples.now Examples.off_scope) == 0
  /\ rf_constitutional_score
       (Verdict.receipt_fields (runAllGates Examples.now Examples.off_scope)) == 0
  /\ brahmacharya_auto_reject
       (Verdict.receipt_fields (runAllGates Examples.now Examples.off_scope)) = true
  /\ Verdict.pass (runAllGates Examples.now Examples.off_scope) = false.
Proof.
  split; [repeat split; vm_compute; reflexivity|].
  apply (boundary_failure_voids_composite Examples.now Examples.off_scope).
  right. intros s E. injection E as <-. cbn. intuition discriminate.
Defined.


(** C3, as the code has it.  With confidence 0.45 the Truthfulness gate
    fails with score 0.0 and the Boundary gate passes, so the composite is
    the weighted sum 0.25*0.95 + 0.25*0.0 + 0.15*0.95 + 0.20*0.90 +
    0.15*0.72, which is 0.668; the blocking list holds the truthfulness
    entry; and the request is denied although 0.668 meets the 0.60
    threshold, as is every request with a blocking entry. *)
Theorem low_confidence_verdict (now : string) :
  let v := runAllGates now Examples.low_confidence in
  pass (satya (Verdict.yamas v)) = false
  /\ score (satya (Verdict.yamas v)) == 0.0
  /\ pass (brahmacharya (Verdict.yamas v)) = true
  /\ rf_constitutional_score (Verdict.receipt_fields v)
     == 0.25 * 0.95 + 0.25 * 0.0 + 0.15 * 0.95 + 0.20 * 0.90 + 0.15 * 0.72
  /\ rf_constitutional_score (Verdict.receipt_fields v) == 0.668
  /\ Verdict.constitutional_score v == 0.668
  /\ Verdict.blocked_by v = [Examples.low_confidence_entry]
  /\ 0.60 <= rf_constitutional_score (Verdict.receipt_fields v)
  /\ Verdict.pass v = false
  /\ (forall now' ctx, Verdict.blocked_by (runAllGates now' ctx) <> [] ->
                       Verdict.pass (runAllGates now' ctx) = false).
Proof.
  cbv zeta.
  repeat (split; [vm_compute; first [reflexivity | discriminate]|]).
  intros now' ctx. apply blocked_never_passes.
Qed.

(** The context with no property at all has blocking entries, and is
    denied. *)
Lemma low_confidence_verdict_witness :
  Verdict.pass (runAllGates Examples.now Examples.empty) = false.
Proof.
  destruct (low_confidence_verdict Examples.now)
    as (_ & _ & _ & _ & _ & _ & _ & _ & _ & H).
  apply H. vm_compute. discriminate.
Defined.

(** The weighted sum on the low-confidence context is not 0.6565. *)
Lemma low_confidence_composite_is_not_0_6565 :
  ~ (rf_constitutional_score
       (Verdict.receipt_fields (runAllGates Examples.now Examples.low_confidence))
     == 0.6565)
  /\ ~ (0.25 * 0.95 + 0.25 * 0.0 + 0.15 * 0.95 + 0.20 * 0.90 + 0.15 * 0.72 == 0.6565).
Proof.
  split; vm_compute; discriminate.
Qed.

(** C10, as the code has it.  A context without [confidence] is blocked
    with the below-minimum reason; a context without [data_quality] whose
    confidence lies in [0.60, 1] is blocked with the data-quality reason
    (a lower or out-of-range confidence is reported first); and a context
    missing either property never passes the gate. *)
Theorem satya_missing_fields (ctx : GateContext) :
  (confidence ctx = None ->
   satyaGate ctx =
     {| pass := false; score := 0.0;
        reason := "SATYA_VIOLATION: confidence 0.000 < minimum 0.60" |})
  /\ (forall c, data_quality ctx = None -> confidence ctx = Some c ->
      0.60 <= c -> c <= 1 ->
      satyaGate ctx =
        {| pass := false; score := 0.0;
           reason := "SATYA_VIOLATION: data_quality 'unknown' is insufficient for actuarial assessment" |})
  /\ (confidence ctx = None \/ data_quality ctx = None ->
      pass (satyaGate ctx) = false).
Proof.
  split; [|split].
  - intros E. unfold satyaGate. rewrite E. reflexivity.
  - intros c Ed Ec Hlo Hhi. unfold satyaGate. rewrite Ed, Ec.
    cbn [dflt].
    assert (L0 : Num.ltb c 0 = false).
    { unfold Num.ltb. apply negb_false_iff, Qle_bool_iff.
      apply Qle_trans with 0.60; [discriminate | exact Hlo]. }
    assert (L1 : Num.ltb 1 c = false).
    { unfold Num.ltb. now apply negb_false_iff, Qle_bool_iff. }
    assert (L2 : Num.ltb c 0.60 = false).
    { unfold Num.ltb. now apply negb_false_iff, Qle_bool_iff. }
    rewrite L0, L1, L2. reflexivity.
  - intros [E|E]; unfold satyaGate; rewrite E; [reflexivity|].
    cbn [dflt]. rewrite String.eqb_refl. cbn [orb].
    repeat match goal with |- pass (if ?b then _ else _) = false =>
      destruct b; try reflexivity end.
Qed.

Lemma satya_missing_fields_witness :
  satyaGate Examples.empty =
    {| pass := false; score := 0.0;
       reason := "SATYA_VIOLATION: confidence 0.000 < minimum 0.60" |}.
Proof.
  apply (proj1 (satya_missing_fields Examples.empty)). reflexivity.
Defined.

(** A context without [data_quality] and with confidence 0.45 is blocked
    for its confidence, not for its data quality. *)
Lemma satya_low_confidence_reported_first :
  data_quality Examples.no_data_quality = None
  /\ reason (satyaGate Examples.no_data_quality)
     = "SATYA_VIOLATION: confidence 0.450 < minimum 0.60"
  /\ reason (satyaGate Examples.no_data_quality)
     <> "SATYA_VIOLATION: data_quality 'unknown' is insufficient for actuarial assessment".
Proof.
  split; [reflexivity | split; [reflexivity | vm_compute; discriminate]].
Qed.

End GateProperties.

(* ------------------------------------------------------------------ *)
(** ** Consent anchor *)

Section ConsentProperties.
Import Consent.

Lemma truthy_nonempty (s : string) : s <> "" -> JS.truthy (Some s) = true.
Proof. destruct s; [congruence | reflexivity]. Qed.

Lemma generate_nonempty (g s a : string) :
  g <> "" -> s <> "" -> a <> "" ->
  generateConsentRecordId (Some g) (Some s) (Some a)
  = Ok ("CR-" ++ JS.slice0 32 (SHA256.sha256 (canonical (Some g) (Some s) (Some a)))).
Proof.
  intros Hg Hs Ha. unfold generateConsentRecordId.
  now rewrite !truthy_nonempty.
Qed.

Lemma generate_throws_iff (g s a : option string) :
  (exists m, generateConsentRecordId g s a = Throw m)
  <-> JS.truthy g = false \/ JS.truthy s = false \/ JS.truthy a = false.
Proof.
  unfold generateConsentRecordId.
  destruct (JS.truthy g), (JS.truthy s), (JS.truthy a); cbn [negb orb];
    split; intros H; eauto;
    solve [ destruct H as (m & H); discriminate
          | destruct H as [H|[H|H]]; discriminate ].
Qed.

Lemma unquote_quote_char (c : ascii) (rest : string) :
  unquote_char (quote_char c ++ rest) = Some (c, rest).
Proof.
  destruct c as [[|] [|] [|] [|] [|] [|] [|] [|]]; reflexivity.
Qed.

(** A quoted body ends at its closing quote and nowhere earlier. *)
Lemma quote_body_unambiguous (x y r1 r2 : string) :
  quote_body x ++ JS.dquote ++ r1 = quote_body y ++ JS.dquote ++ r2 ->
  x = y /\ r1 = r2.
Proof.
  revert y. induction x as [|c x IH]; intros [|d y] H.
  - cbn in H. injection H as ->. now split.
  - apply (f_equal unquote_char) in H. cbn [quote_body] in H.
    rewrite app_assoc_s, unquote_quote_char in H. discriminate.
  - apply (f_equal unquote_char) in H. cbn [quote_body] in H.
    rewrite app_assoc_s, unquote_quote_char in H. discriminate.
  - apply (f_equal unquote_char) in H. cbn [quote_body] in H.
    rewrite !app_assoc_s, !unquote_quote_char in H.
    injection H as -> H. destruct (IH _ H) as [-> ->]. now split.
Qed.

(** The canonical form keeps the cohort and the scope apart: swapping the
    two leaves it unchanged only when they agree once trimmed and
    lower-cased.  (Whether two distinct canonical forms can share the
    first 128 bits of their SHA-256 digests is a question about the hash.) *)
Lemma canonical_swap (g s a : option string) :
  canonical g s a = canonical s g a ->
  JS.toLowerCase (JS.trim (String_ g)) = JS.toLowerCase (JS.trim (String_ s)).
Proof.
  unfold canonical, JSON_stringify_triple.
  generalize (JS.toLowerCase (JS.trim (String_ g))).
  generalize (JS.toLowerCase (JS.trim (String_ s))).
  intros ns ng H. cbn in H.
  injection H as H.
  rewrite !app_assoc_s in H.
  now apply quote_body_unambiguous in H.
Qed.

(** A parameter-swap collision between anchors is either no swap at all
    (the normalized cohort and scope agree) or a collision of SHA-256
    truncated to 32 hex digits on two different canonical forms. *)
Lemma swap_collision_is_hash_collision (g s a : string) :
  g <> "" -> s <> "" -> a <> "" ->
  generateConsentRecordId (Some s) (Some g) (Some a)
  = generateConsentRecordId (Some g) (Some s) (Some a) ->
  JS.toLowerCase (JS.trim g) = JS.toLowerCase (JS.trim s)
  \/ (canonical (Some s) (Some g) (Some a) <> canonical (Some g) (Some s) (Some a)
      /\ JS.slice0 32 (SHA256.sha256 (canonical (Some s) (Some g) (Some a)))
         = JS.slice0 32 (SHA256.sha256 (canonical (Some g) (Some s) (Some a)))).
Proof.
  intros Hg Hs Ha H.
  rewrite !generate_nonempty in H by assumption.
  injection H as H.
  destruct (string_dec (canonical (Some s) (Some g) (Some a))
                       (canonical (Some g) (Some s) (Some a))) as [E|N].
  - left. symmetry in E. exact (canonical_swap (Some g) (Some s) (Some a) E).
  - right. split; [exact N | exact H].
Qed.

(** C4.  For non-empty cohort, scope and clinician, [generateConsentRecordId]
    returns an id, and [validateConsentRecord] accepts that id against the
    same three values. *)
Theorem consent_round_trip (g s a : string) :
  g <> "" -> s <> "" -> a <> "" ->
  exists id,
    generateConsentRecordId (Some g) (Some s) (Some a) = Ok id
    /\ validateConsentRecord (Some id) (Some g) (Some s) (Some a)
       = {| valid := true; reason := "CONSENT_VALID" |}.
Proof.
  intros Hg Hs Ha.
  eexists. split; [now apply generate_nonempty|].
  unfold validateConsentRecord.
  rewrite generate_nonempty by assumption.
  generalize (JS.slice0 32 (SHA256.sha256 (canonical (Some g) (Some s) (Some a)))).
  intros h. cbn [JS.truthy append negb String_ dflt].
  replace (JS.startsWith "CR-" (String "C" (String "R" (String "-" h)))) with true.
  - cbn [negb]. now rewrite String.eqb_refl.
  - unfold JS.startsWith. cbn. destruct h; reflexivity.
Qed.

Lemma consent_round_trip_witness :
  exists id,
    generateConsentRecordId
      (Some "nz-smokers") (Some "population_mortality") (Some "clin-1") = Ok id
    /\ validateConsentRecord (Some id)
         (Some "nz-smokers") (Some "population_mortality") (Some "clin-1")
       = {| valid := true; reason := "CONSENT_VALID" |}.
Proof.
  apply (consent_round_trip "nz-smokers" "population_mortality" "clin-1");
    discriminate.
Defined.

End ConsentProperties.

(* ------------------------------------------------------------------ *)
(** ** Chain-of-custody linker *)

Section ChainProperties.
Import Chain.
Local Open Scope Z_scope.

Lemma trim_nonblank_nonempty (id : string) : JS.trim id <> "" -> id <> "".
Proof. intros H E. subst id. now apply H. Qed.

(** C9, as the code has it.  Linking a receipt whose id is [ownId]:
    with no parent, it is a root (no parent id, depth 0, root [ownId]);
    with a full parent record (a non-empty [receipt_id] and a numeric
    [chain_depth]), it takes the parent's id, the parent's depth plus one
    and the parent's root, or the parent's id when the parent records no
    root; with a bare id that is not blank (not empty once trimmed), it
    takes that id as parent and as root, at depth 1. *)
Theorem chain_link_shapes (current : Receipt) (ownId : string) :
  receipt_id current = Some ownId ->
  chainReceipt (Some current) NoParent
  = Ok {| receipt_id := Some ownId; parent_receipt_id := None;
          chain_depth := Some 0; chain_root := Some ownId |}
  /\ (forall parent pid depth,
        receipt_id parent = Some pid -> pid <> "" ->
        chain_depth parent = Some depth ->
        chainReceipt (Some current) (ParentReceipt parent)
        = Ok {| receipt_id := Some ownId; parent_receipt_id := Some pid;
                chain_depth := Some (depth + 1);
                chain_root := Some (dflt pid (chain_root parent)) |})
  /\ (forall id,
        JS.trim id <> "" ->
        chainReceipt (Some current) (ParentId id)
        = Ok {| receipt_id := Some ownId; parent_receipt_id := Some id;
                chain_depth := Some 1; chain_root := Some id |}).
Proof.
  intros Hid. destruct current as [rid cp cd cr]. cbn in Hid. subst rid.
  split; [reflexivity | split].
  - intros [prid pp pd pr] pid depth Hp Hne Hd. cbn in Hp, Hd. subst prid pd.
    unfold chainReceipt. cbn [receipt_id chain_depth chain_root dflt].
    rewrite truthy_nonempty by assumption.
    destruct pr; reflexivity.
  - intros id Hid. unfold chainReceipt.
    destruct (String.eqb (JS.trim id) "") eqn:E.
    + apply String.eqb_eq in E. contradiction.
    + cbn [negb]. rewrite truthy_nonempty by now apply trim_nonblank_nonempty.
      reflexivity.
Qed.

(** A parent at depth 2 yields depth 3 and hands its root on unchanged. *)
Lemma chain_link_shapes_witness :
  chainReceipt (Some Examples.local_receipt) (ParentReceipt Examples.parent_at_depth_2)
  = Ok {| receipt_id := Some "KT-AB-DD-1-abcd";
          parent_receipt_id := Some "KT-3-0c0c";
          chain_depth := Some 3;
          chain_root := Some "KT-1-0a0a" |}.
Proof.
  apply (proj1 (proj2 (chain_link_shapes Examples.local_receipt "KT-AB-DD-1-abcd" eq_refl))
           Examples.parent_at_depth_2 "KT-3-0c0c" 2);
    [reflexivity | discriminate | reflexivity].
Defined.

(** The one-space string is a non-empty bare id, and yet it links as a
    root: no parent id, depth 0. *)
Lemma blank_parent_id_links_as_root :
  " " <> ""
  /\ chainReceipt (Some Examples.local_receipt) (ParentId " ")
     = Ok {| receipt_id := Some "KT-AB-DD-1-abcd"; parent_receipt_id := None;
             chain_depth := Some 0; chain_root := Some "KT-AB-DD-1-abcd" |}
  /\ chainReceipt (Some Examples.local_receipt) (ParentId " ")
     <> Ok {| receipt_id := Some "KT-AB-DD-1-abcd"; parent_receipt_id := Some " ";
              chain_depth := Some 1; chain_root := Some " " |}.
Proof.
  split; [discriminate | split; [reflexivity | vm_compute; discriminate]].
Qed.

End ChainProperties.

(* ------------------------------------------------------------------ *)
(** ** Hexadecimal encodings *)

Section HexFacts.
Import JS.
Local Open Scope Z_scope.

Lemma hex_value_digit (d : Z) :
  0 <= d < 16 -> hex_value (hex_digit d) = Some d.
Proof.
  intros H.
  assert (E : d = 0 \/ d = 1 \/ d = 2 \/ d = 3 \/ d = 4 \/ d = 5 \/ d = 6 \/ d = 7
              \/ d = 8 \/ d = 9 \/ d = 10 \/ d = 11 \/ d = 12 \/ d = 13 \/ d = 14
              \/ d = 15) by lia.
  repeat (destruct E as [-> | E]; [reflexivity|]). now subst d.
Qed.

Lemma length_hex_fixed (n : nat) (x : Z) : String.length (hex_fixed n x) = n.
Proof.
  revert x. induction n as [|n IH]; intros x; cbn [hex_fixed]; [reflexivity|].
  rewrite length_app_s, IH. cbn. lia.
Qed.

(** Two digits at a time. *)
Lemma hex_fixed_two (m : nat) (x : Z) :
  hex_fixed (S (S m)) x
  = (hex_fixed m (x / 256)
     ++ String (hex_digit ((x / 16) mod 16)) (String (hex_digit (x mod 16)) ""))%string.
Proof.
  cbn [hex_fixed]. rewrite app_assoc_s. cbn [append].
  now rewrite Z.div_div by lia.
Qed.

(** Decoding a fixed-width hexadecimal number gives its big-endian bytes,
    whatever follows it. *)
Lemma bytes_of_hex_fixed (n : nat) (x : Z) (rest : string) :
  bytes_of_hex (hex_fixed (2 * n) x ++ rest)
  = (be_bytes n x ++ bytes_of_hex rest)%list.
Proof.
  revert x rest. induction n as [|n IH]; intros x rest; [reflexivity|].
  replace (2 * S n)%nat with (S (S (2 * n))) by lia.
  rewrite hex_fixed_two, app_assoc_s, IH. cbn [append be_bytes bytes_of_hex].
  rewrite !hex_value_digit by (apply Z.mod_pos_bound; lia).
  rewrite <- app_assoc. cbn [app].
  assert (E : 16 * ((x / 16) mod 16) + x mod 16 = x mod 256).
  { pose proof (Z.div_mod x 16 ltac:(lia)).
    pose proof (Z.div_mod (x / 16) 16 ltac:(lia)).
    pose proof (Z.div_mod x 256 ltac:(lia)).
    pose proof (Z.mod_pos_bound x 16 ltac:(lia)).
    pose proof (Z.mod_pos_bound (x / 16) 16 ltac:(lia)).
    pose proof (Z.mod_pos_bound x 256 ltac:(lia)).
    assert (x / 16 / 16 = x / 256) by (rewrite Z.div_div by lia; reflexivity).
    lia. }
  now rewrite E.
Qed.

(** A leading zero digit. *)
Lemma hex_fixed_lead (n : nat) (x : Z) :
  0 <= x < 16 ^ Z.of_nat n ->
  hex_fixed (S n) x = String "0" (hex_fixed n x).
Proof.
  revert x. induction n as [|n IH]; intros x H.
  - assert (x = 0) by (cbn in H; lia). now subst x.
  - change (hex_fixed (S (S n)) x)
      with (hex_fixed (S n) (x / 16) ++ String (hex_digit (x mod 16)) "")%string.
    rewrite IH; [reflexivity|].
    rewrite Nat2Z.inj_succ, Z.pow_succ_r in H by lia.
    split; [apply Z.div_pos; lia | apply Z.div_lt_upper_bound; lia].
Qed.

Lemma hex_fixed_pad (j k : nat) (x : Z) :
  0 <= x < 16 ^ Z.of_nat k ->
  hex_fixed (j + k) x = (repeat_char "0" j ++ hex_fixed k x)%string.
Proof.
  intros H. induction j as [|j IH]; [reflexivity|].
  cbn [Nat.add repeat_char append]. rewrite hex_fixed_lead, IH; [reflexivity|].
  split; [lia|]. apply Z.lt_le_trans with (16 ^ Z.of_nat k); [lia|].
  apply Z.pow_le_mono_r; lia.
Qed.

(** The digit loop of [toString16] stops at the shortest rendering. *)
Lemma hex_loop_digits (f : nat) (x : Z) (acc : string) :
  0 <= x < 16 ^ Z.of_nat (S f) ->
  exists k : nat,
    (1 <= k <= S f)%nat
    /\ (k = 1%nat \/ 16 ^ (Z.of_nat k - 1) <= x)
    /\ x < 16 ^ Z.of_nat k
    /\ hex_loop (S f) x acc = (hex_fixed k x ++ acc)%string.
Proof.
  revert x acc. induction f as [|f IH]; intros x acc H.
  - exists 1%nat. cbn in H. cbn [hex_loop].
    destruct (x <? 16) eqn:E; [|apply Z.ltb_ge in E; lia].
    repeat split; auto; cbn; lia.
  - cbn [hex_loop]. destruct (x <? 16) eqn:E.
    + exists 1%nat. apply Z.ltb_lt in E. repeat split; auto; cbn; lia.
    + apply Z.ltb_ge in E.
      assert (Hq : 0 <= x / 16 < 16 ^ Z.of_nat (S f)).
      { rewrite (Nat2Z.inj_succ (S f)), Z.pow_succ_r in H by lia.
        split; [apply Z.div_pos; lia | apply Z.div_lt_upper_bound; lia]. }
      destruct (IH (x / 16) (String (hex_digit (x mod 16)) acc) Hq)
        as (k & Hk & Hmin & Hub & Heq).
      pose proof (Z.div_mod x 16 ltac:(lia)).
      pose proof (Z.mod_pos_bound x 16 ltac:(lia)).
      exists (S k). split; [lia|]. split; [|split].
      * right. replace (Z.of_nat (S k) - 1) with (Z.of_nat k) by lia.
        destruct Hmin as [-> | Hmin]; [cbn; lia|].
        replace (Z.of_nat k) with (Z.succ (Z.of_nat k - 1)) by lia.
        rewrite Z.pow_succ_r by lia. lia.
      * rewrite Nat2Z.inj_succ, Z.pow_succ_r by lia. lia.
      * change (hex_loop (S f) (x / 16) (String (hex_digit (x mod 16)) acc)
                = (hex_fixed (S k) x ++ acc)%string).
        rewrite Heq. cbn [hex_fixed]. now rewrite app_assoc_s.
Qed.

Lemma toString16_fuel (x : Z) :
  0 <= x -> x < 16 ^ Z.of_nat (S (Z.to_nat (Z.log2 x))).
Proof.
  intros H. pose proof (Z.log2_nonneg x) as L.
  rewrite Nat2Z.inj_succ, Z2Nat.id by assumption.
  destruct (Z.eq_dec x 0) as [-> | N]; [reflexivity|].
  destruct (Z.log2_spec x ltac:(lia)) as [_ U].
  apply Z.lt_le_trans with (1 := U).
  apply Z.pow_le_mono; lia.
Qed.

(** [x.toString(16).padStart(n, '0')] is the [n]-digit rendering of [x]. *)
Lemma padStart_toString16 (n : nat) (x : Z) :
  (1 <= n)%nat -> 0 <= x < 16 ^ Z.of_nat n ->
  padStart0 n (toString16 x) = hex_fixed n x.
Proof.
  intros Hn [H0 Hx]. unfold toString16, padStart0.
  destruct (hex_loop_digits (Z.to_nat (Z.log2 x)) x "")
    as (k & Hk & Hmin & Hxk & Heq).
  { split; [assumption | now apply toString16_fuel]. }
  rewrite Heq, app_nil_s, length_hex_fixed.
  assert (Hkn : (k <= n)%nat).
  { destruct Hmin as [-> | Hmin]; [assumption|].
    assert (H : 16 ^ (Z.of_nat k - 1) < 16 ^ Z.of_nat n) by lia.
    apply Z.pow_lt_mono_r_iff in H; lia. }
  replace n with ((n - k) + k)%nat at 2 by lia.
  symmetry. apply hex_fixed_pad. lia.
Qed.

Lemma all_hex_app (a b : string) :
  all_hex (a ++ b) = all_hex a && all_hex b.
Proof.
  induction a as [|c a IH]; cbn; [reflexivity|].
  destruct (hex_value c); [exact IH | reflexivity].
Qed.

Lemma all_hex_fixed (n : nat) (x : Z) : all_hex (hex_fixed n x) = true.
Proof.
  revert x. induction n as [|n IH]; intros x; cbn [hex_fixed]; [reflexivity|].
  rewrite all_hex_app, IH. cbn [all_hex andb].
  now rewrite hex_value_digit by (apply Z.mod_pos_bound; lia).
Qed.

(** Reading the first [2k] digits as a number is reading the first [k]
    bytes big-endian. *)
Lemma hex_parse_slice (k : nat) (h : string) (acc : Z) :
  all_hex h = true -> (2 * k <= String.length h)%nat ->
  hex_parse (slice0 (2 * k) h) acc
  = Some (fold_left (fun a b => 256 * a + b) (firstn k (bytes_of_hex h)) acc).
Proof.
  revert h acc. induction k as [|k IH]; intros h acc Hh Hl; [reflexivity|].
  replace (2 * S k)%nat with (S (S (2 * k))) in * by lia.
  destruct h as [|c1 [|c2 r]]; cbn [String.length] in Hl; try lia.
  cbn [all_hex] in Hh. cbn [slice0 hex_parse bytes_of_hex].
  destruct (hex_value c1) as [v1|]; [|discriminate].
  destruct (hex_value c2) as [v2|]; [|discriminate].
  cbn [firstn fold_left]. rewrite IH by (assumption || lia).
  do 2 f_equal. lia.
Qed.

End HexFacts.

(* ------------------------------------------------------------------ *)
(** ** SHA-256 digests are 64 hexadecimal digits *)

Section DigestFacts.
Import SHA256.
Local Open Scope Z_scope.

Lemma round_length (s : list Z * list Z) (k : Z) :
  List.length (fst s) = 8%nat -> List.length (fst (round s k)) = 8%nat.
Proof.
  destruct s as [l w]. cbn [fst]. intros H.
  do 9 (destruct l as [|? l]; try discriminate H).
  reflexivity.
Qed.

Lemma rounds_length (ks : list Z) (s : list Z * list Z) :
  List.length (fst s) = 8%nat -> List.length (fst (fold_left round ks s)) = 8%nat.
Proof.
  revert s. induction ks as [|k ks IH]; intros s H; [exact H|].
  cbn [fold_left]. apply IH. now apply round_length.
Qed.

Lemma add_words_length (xs ys : list Z) :
  List.length xs = 8%nat -> List.length ys = 8%nat ->
  List.length (add_words xs ys) = 8%nat.
Proof.
  intros Hx Hy.
  do 9 (destruct xs as [|? xs]; try discriminate Hx).
  do 9 (destruct ys as [|? ys]; try discriminate Hy).
  reflexivity.
Qed.

Lemma blocks_length (n : nat) (ws H : list Z) :
  List.length H = 8%nat -> List.length (blocks n ws H) = 8%nat.
Proof.
  revert ws H. induction n as [|n IH]; intros ws H L; [exact L|].
  cbn [blocks]. apply IH. unfold compress.
  apply add_words_length; [exact L | now apply rounds_length].
Qed.

Lemma hex_of_words_digest (ws : list Z) :
  String.length (hex_of_words ws) = (8 * List.length ws)%nat
  /\ JS.all_hex (hex_of_words ws) = true.
Proof.
  induction ws as [|w ws [IHl IHh]]; [split; reflexivity|].
  cbn [hex_of_words]. split.
  - rewrite length_app_s, length_hex_fixed, IHl. cbn [List.length]. lia.
  - now rewrite all_hex_app, all_hex_fixed, IHh.
Qed.

Lemma sha256_bytes_digest (msg : list Z) :
  Kaitiaki.is_hex_digest (sha256_bytes msg) = true.
Proof.
  unfold Kaitiaki.is_hex_digest, sha256_bytes.
  destruct (hex_of_words_digest (digest_words msg)) as [L H].
  rewrite L, H. unfold digest_words. rewrite blocks_length by reflexivity.
  reflexivity.
Qed.

Lemma sha256_digest (s : string) : Kaitiaki.is_hex_digest (sha256 s) = true.
Proof. apply sha256_bytes_digest. Qed.

End DigestFacts.

(* ------------------------------------------------------------------ *)
(** ** Primality by trial division and by Pocklington's criterion *)

Section PrimalityFacts.
Import Primality.
Local Open Scope Z_scope.

Lemma small_factor (n m : Z) :
  1 < m < n -> (m | n) -> exists k, 2 <= k /\ k * k <= n /\ (k | n).
Proof.
  intros Hm [e He].
  assert (1 < e) by nia.
  destruct (Z_le_gt_dec m e).
  - exists m. repeat split; try lia; [nia | now exists e].
  - exists e. repeat split; try lia; [nia | exists m; lia].
Qed.

Lemma trial_sound (fuel : nat) (d n : Z) :
  1 < n -> 2 <= d ->
  (forall k, 2 <= k < d -> ~ (k | n)) ->
  trial fuel d n = true -> Z.prime n.
Proof.
  intros Hn. revert d. induction fuel as [|f IH]; intros d Hd Hk; cbn [trial];
    [discriminate|].
  destruct (n <? d * d) eqn:E.
  - intros _. split; [assumption|]. intros m Hm Hdiv.
    destruct (small_factor n m Hm Hdiv) as (k & K2 & Kn & Kd).
    apply Z.ltb_lt in E. apply (Hk k); [nia | assumption].
  - destruct (n mod d =? 0) eqn:M; [discriminate|].
    apply IH; [lia|]. intros k Hkr Hdiv.
    destruct (Z.eq_dec k d) as [->|]; [|apply (Hk k); [lia | assumption]].
    apply Z.eqb_neq in M. apply M. now apply Z.mod0_divide.
Qed.

Lemma trial_prime (fuel : nat) (n : Z) :
  1 < n -> trial fuel 2 n = true -> Z.prime n.
Proof. intros Hn. apply trial_sound; [assumption | lia | intros k Hk; lia]. Qed.

Lemma mod_one_cancel (p x y : Z) :
  1 < p -> (x * y) mod p = 1 -> y mod p = 1 -> x mod p = 1.
Proof.
  intros Hp Hxy Hy. rewrite Z.mul_mod, Hy, Z.mul_1_r, Z.mod_mod in Hxy by lia.
  exact Hxy.
Qed.

(** The exponents that send [a] to 1 modulo [p] are closed under gcd. *)
Lemma pow_one_gcd (p a : Z) (k : nat) :
  1 < p ->
  forall n m, 0 <= n -> 0 <= m -> (Z.to_nat (n + m) <= k)%nat ->
  a ^ n mod p = 1 -> a ^ m mod p = 1 -> a ^ Z.gcd n m mod p = 1.
Proof.
  intros Hp. induction k as [|k IH]; intros n m Hn Hm Hk En Em.
  - assert (n = 0) by lia. assert (m = 0) by lia. subst. exact En.
  - destruct (Z.eq_dec m 0) as [->|Nm]; [now rewrite Z.gcd_0_r_nonneg|].
    destruct (Z.eq_dec n 0) as [->|Nn]; [now rewrite Z.gcd_0_l_nonneg|].
    destruct (Z_le_gt_dec m n).
    + assert (E : a ^ (n - m) mod p = 1).
      { apply mod_one_cancel with (y := a ^ m); [assumption | | assumption].
        rewrite <- Z.pow_add_r by lia. now replace (n - m + m) with n by lia. }
      rewrite Z.gcd_comm, <- Z.gcd_sub_diag_r, Z.gcd_comm.
      apply IH; solve [lia | assumption].
    + assert (E : a ^ (m - n) mod p = 1).
      { apply mod_one_cancel with (y := a ^ n); [assumption | | assumption].
        rewrite <- Z.pow_add_r by lia. now replace (m - n + n) with m by lia. }
      rewrite <- Z.gcd_sub_diag_r.
      apply IH; solve [lia | assumption].
Qed.

Lemma pow_one_multiple (p a g t : Z) :
  1 < p -> 0 <= g -> 0 <= t -> a ^ g mod p = 1 -> a ^ (g * t) mod p = 1.
Proof.
  intros Hp Hg Ht E. rewrite Z.pow_mul_r by assumption.
  rewrite <- Z.mod_pow_l, E, Z.pow_1_l by assumption. apply Z.mod_1_l. lia.
Qed.

(** Pocklington's step: a witness for [q] makes [q] divide [p - 1] for
    every prime divisor [p] of [N]. *)
Lemma pocklington_step (N q a p : Z) :
  1 < N -> Z.prime q -> pocklington N q a = true ->
  Z.prime p -> (p | N) -> (q | p - 1).
Proof.
  intros HN Hq C Hp HpN. unfold pocklington in C.
  apply andb_true_iff in C as [C C3]. apply andb_true_iff in C as [C1 C2].
  apply Z.eqb_eq in C1, C2, C3.
  rewrite Zpow_mod_correct in C2, C3 by lia.
  pose proof (Z.prime_ge_2 _ Hp) as P2. pose proof (Z.prime_ge_2 _ Hq) as Q2.
  set (m := (N - 1) / q) in *.
  assert (Em : N - 1 = q * m).
  { unfold m. pose proof (Z.div_mod (N - 1) q ltac:(lia)). lia. }
  assert (Hm : 0 < m) by nia.
  assert (E1 : a ^ (N - 1) mod p = 1).
  { rewrite <- (Z.mod_mod_divide _ N p) by assumption.
    rewrite C2. apply Z.mod_1_l. lia. }
  assert (Ha : a mod p <> 0).
  { intros Z0. rewrite <- Z.mod_pow_l, Z0, Z.pow_0_l, Z.mod_0_l in E1 by lia.
    discriminate. }
  pose proof (ZmodInv.Z.fermat_nz p a Hp Ha) as F.
  assert (G : a ^ Z.gcd (N - 1) (p - 1) mod p = 1).
  { apply pow_one_gcd with (k := Z.to_nat (N - 1 + (p - 1))); try lia; assumption. }
  destruct (Z.eq_dec ((p - 1) mod q) 0) as [D|ND];
    [apply Z.mod_divide; [lia | exact D] | exfalso].
  rewrite Z.mod_divide in ND by lia.
  set (g := Z.gcd (N - 1) (p - 1)) in *.
  assert (Hg : 0 < g).
  { pose proof (Z.gcd_nonneg (N - 1) (p - 1)).
    assert (g <> 0); [|lia].
    unfold g. intros E0. apply Z.gcd_eq_0_l in E0. lia. }
  assert (Hqg : ~ (q | g)).
  { intros D. apply ND. apply Z.divide_trans with g; [assumption|].
    apply Z.gcd_divide_r. }
  assert (Hgm : (g | m)).
  { apply Z.gauss with q.
    - rewrite <- Em. apply Z.gcd_divide_l.
    - rewrite Z.gcd_comm. now apply Z.coprime_prime_l. }
  destruct Hgm as [t Ht].
  assert (E2 : a ^ m mod p = 1).
  { rewrite Ht, Z.mul_comm. apply pow_one_multiple; [lia | lia | nia | assumption]. }
  assert (D1 : (p | a ^ m mod N - 1)).
  { apply Z.mod_divide; [lia|].
    rewrite <- Zminus_mod_idemp_l.
    rewrite (Z.mod_mod_divide _ N p) by assumption.
    rewrite E2. reflexivity. }
  assert (D : (p | 1)).
  { rewrite <- C3. now apply Z.gcd_greatest. }
  apply Z.divide_1_r_nonneg in D; lia.
Qed.

Lemma prime_divisor (b : nat) :
  forall k, 2 <= k -> (Z.to_nat k <= b)%nat -> exists p, Z.prime p /\ (p | k).
Proof.
  induction b as [|b IH]; intros k K2 Kb; [lia|].
  destruct (prime_dec k) as [Hp|Hn].
  - exists k. split; [now apply prime_alt | apply Z.divide_refl].
  - destruct (not_prime_divide k ltac:(lia) Hn) as (n & Hn1 & Hn2).
    destruct (IH n ltac:(lia) ltac:(lia)) as (p & Pp & Pd).
    exists p. split; [assumption | now apply Z.divide_trans with n].
Qed.

(** Two witnesses on distinct primes whose product exceeds the square
    root of [N]. *)
Theorem pocklington_two (N q1 a1 q2 a2 : Z) :
  1 < N -> Z.prime q1 -> Z.prime q2 -> q1 <> q2 ->
  pocklington N q1 a1 = true -> pocklington N q2 a2 = true ->
  N < (q1 * q2) * (q1 * q2) -> Z.prime N.
Proof.
  intros HN H1 H2 Hne C1 C2 Hbig.
  split; [assumption|]. intros d Hd Hdiv.
  destruct (small_factor N d Hd Hdiv) as (k & K2 & Kn & Kd).
  destruct (prime_divisor (Z.to_nat k) k K2 (le_n _)) as (p & Pp & Pk).
  pose proof (Z.prime_ge_2 _ Pp) as P2.
  pose proof (Z.prime_ge_2 _ H1) as Q1.
  pose proof (Z.prime_ge_2 _ H2) as Q2.
  assert (Ple : p <= k) by (apply Z.divide_pos_le; [lia | assumption]).
  assert (PN : (p | N)) by now apply Z.divide_trans with k.
  pose proof (pocklington_step N q1 a1 p HN H1 C1 Pp PN) as D1.
  pose proof (pocklington_step N q2 a2 p HN H2 C2 Pp PN) as D2.
  destruct D1 as [t Ht].
  assert (D : (q2 | t)).
  { apply Z.gauss with q1; [now rewrite Z.mul_comm, <- Ht|].
    apply Z.coprime_prime_l; [assumption|]. intros Q.
    apply (Z.divide_prime_prime _ _ H2 H1) in Q. congruence. }
  destruct D as [u Hu].
  assert (p - 1 = u * (q1 * q2)) by (rewrite Ht, Hu; ring).
  assert (0 < u) by nia.
  nia.
Qed.

Lemma prime_13147 : Z.prime 13147.
Proof. apply trial_prime with (fuel := 200%nat); [lia | vm_compute; reflexivity]. Qed.
Lemma prime_21821 : Z.prime 21821.
Proof. apply trial_prime with (fuel := 200%nat); [lia | vm_compute; reflexivity]. Qed.
Lemma prime_42113237 : Z.prime 42113237.
Proof. apply trial_prime with (fuel := Z.to_nat 7000); [lia | vm_compute; reflexivity]. Qed.
Lemma prime_62826870453001 : Z.prime 62826870453001.
Proof.
  apply pocklington_two with (q1 := 21821) (a1 := 7) (q2 := 13147) (a2 := 7);
    try apply prime_21821; try apply prime_13147; try lia; vm_compute; reflexivity.
Qed.
(** The modulus of the mixing transform is prime. *)
Lemma P_prime : Z.prime Kaitiaki.P.
Proof.
  apply pocklington_two with (q1 := 62826870453001) (a1 := 7) (q2 := 42113237) (a2 := 7);
    try apply prime_62826870453001; try apply prime_42113237; try (unfold Kaitiaki.P; lia);
    vm_compute; reflexivity.
Qed.
End PrimalityFacts.

(* ------------------------------------------------------------------ *)
(** ** Provenance sealer *)

Section MixingProperties.
Import Kaitiaki.
Local Open Scope Z_scope.

Lemma is_hex_digest_inv (h : string) :
  is_hex_digest h = true -> String.length h = 64%nat /\ JS.all_hex h = true.
Proof.
  unfold is_hex_digest. intros H. apply andb_true_iff in H as [L A].
  now apply Nat.eqb_eq in L.
Qed.

Lemma hexToBigInt_digest (h : string) :
  is_hex_digest h = true -> hexToBigInt h = Ok (leading64 h).
Proof.
  intros H. apply is_hex_digest_inv in H as [L A].
  unfold hexToBigInt, leading64, JS.BigInt_hex, JS.be_value.
  change 16%nat with (2 * 8)%nat.
  rewrite hex_parse_slice by (assumption || lia).
  destruct h as [|c h]; [discriminate L | reflexivity].
Qed.

Lemma hex_value_range (c : ascii) (v : Z) :
  JS.hex_value c = Some v -> 0 <= v < 16.
Proof.
  unfold JS.hex_value. generalize (JS.code c). intros n.
  repeat match goal with
         | |- context [if ?b then _ else _] => destruct b eqn:?
         end; intros [= <-]; lia.
Qed.

Lemma be_prefix_bound (k : nat) (h : string) (acc : Z) :
  0 <= acc ->
  0 <= fold_left (fun a b => 256 * a + b) (firstn k (JS.bytes_of_hex h)) acc
    < (acc + 1) * 256 ^ Z.of_nat k.
Proof.
  revert h acc. induction k as [|k IH]; intros h acc Hacc; [cbn; lia|].
  assert (Hp : 0 < 256 ^ Z.of_nat k) by (apply Z.pow_pos_nonneg; lia).
  rewrite Nat2Z.inj_succ, Z.pow_succ_r by lia.
  destruct h as [|c1 [|c2 r]]; cbn [JS.bytes_of_hex firstn fold_left]; try nia.
  destruct (JS.hex_value c1) as [v1|] eqn:E1; cbn [firstn fold_left]; try nia.
  destruct (JS.hex_value c2) as [v2|] eqn:E2; cbn [firstn fold_left]; try nia.
  apply hex_value_range in E1, E2.
  specialize (IH r (256 * acc + (16 * v1 + v2)) ltac:(lia)). nia.
Qed.

Lemma leading64_range (h : string) : 0 <= leading64 h < 2 ^ 64.
Proof.
  unfold leading64, JS.be_value.
  pose proof (be_prefix_bound 8 h 0 ltac:(lia)) as B.
  change ((0 + 1) * 256 ^ Z.of_nat 8) with (2 ^ 64) in B. exact B.
Qed.

(** The sums of two 64-bit values stay below [P]: reducing them modulo
    [P] changes nothing. *)
Lemma mixer_modulus_is_idle (state_a state_b : string) :
  (2 * leading64 state_a + leading64 state_b) mod P
  = 2 * leading64 state_a + leading64 state_b
  /\ (leading64 state_a + leading64 state_b) mod P
     = leading64 state_a + leading64 state_b.
Proof.
  pose proof (leading64_range state_a) as A.
  pose proof (leading64_range state_b) as B.
  assert (HP : 3 * 2 ^ 64 < P) by reflexivity.
  split; apply Z.mod_small; lia.
Qed.

Lemma P_close_to_2_128 : P = 2 ^ 128 - 159.
Proof. reflexivity. Qed.

(** On chain states, [arnoldTransform] returns what the reference mixer
    computes. *)
Lemma arnoldTransform_reference (aHash bHash : string) :
  is_hex_digest aHash = true -> is_hex_digest bHash = true ->
  arnoldTransform aHash bHash = Ok (mixing_reference aHash bHash).
Proof.
  intros Ha Hb. unfold arnoldTransform, mixing_reference.
  rewrite (hexToBigInt_digest _ Ha), (hexToBigInt_digest _ Hb). cbn [bind].
  set (x := (2 * leading64 aHash + leading64 bHash) mod P).
  set (y := (leading64 aHash + leading64 bHash) mod P).
  assert (Hx : 0 <= x < 16 ^ Z.of_nat 32).
  { pose proof (Z.mod_pos_bound (2 * leading64 aHash + leading64 bHash) P eq_refl) as B.
    fold x in B. split; [lia|]. apply Z.lt_trans with P; [lia | reflexivity]. }
  assert (Hy : 0 <= y < 16 ^ Z.of_nat 32).
  { pose proof (Z.mod_pos_bound (leading64 aHash + leading64 bHash) P eq_refl) as B.
    fold y in B. split; [lia|]. apply Z.lt_trans with P; [lia | reflexivity]. }
  rewrite !padStart_toString16 by (assumption || lia).
  change 32%nat with (2 * 16)%nat.
  rewrite bytes_of_hex_fixed.
  rewrite <- (app_nil_s (JS.hex_fixed (2 * 16) y)), bytes_of_hex_fixed.
  cbn [JS.bytes_of_hex]. now rewrite app_nil_r.
Qed.

End MixingProperties.

(** C8.  On any two chain states (64-digit hex digests) [arnoldTransform]
    returns exactly the reference mixer's value: the leading 64 bits of
    each as unsigned integers [a] and [b], [x = (2a + b) mod P] and
    [y = (a + b) mod P], the 128-bit big-endian encodings of [x] and [y]
    concatenated, hashed with SHA-256; and the modulus [P] is the prime
    [2^128 - 159]. *)
Theorem mixing_transform_matches_reference (aHash bHash : string) :
  Kaitiaki.is_hex_digest aHash = true ->
  Kaitiaki.is_hex_digest bHash = true ->
  Kaitiaki.arnoldTransform aHash bHash = Ok (Kaitiaki.mixing_reference aHash bHash)
  /\ Kaitiaki.P = (2 ^ 128 - 159)%Z
  /\ Z.prime Kaitiaki.P.
Proof.
  intros Ha Hb.
  split; [now apply arnoldTransform_reference | split; [reflexivity | exact P_prime]].
Qed.

Lemma mixing_transform_matches_reference_witness :
  Kaitiaki.arnoldTransform (SHA256.sha256 "a") (SHA256.sha256 "b")
  = Ok (Kaitiaki.mixing_reference (SHA256.sha256 "a") (SHA256.sha256 "b")).
Proof.
  apply (mixing_transform_matches_reference (SHA256.sha256 "a") (SHA256.sha256 "b"));
    vm_compute; reflexivity.
Defined.

Section SealProperties.
Import Kaitiaki.
Local Open Scope Z_scope.

Variable PUBLIC_KEY : string.
Variable secretKey : list Z.
Variable sign_detached : list Z -> list Z -> result (list Z).
Variable JSON_stringify : jsval -> result (option string).
Variable toISOString : Z -> string.

Local Abbreviation seal :=
  (sealTransport PUBLIC_KEY secretKey sign_detached JSON_stringify toISOString).
Local Abbreviation seals :=
  (seal_all PUBLIC_KEY secretKey sign_detached JSON_stringify toISOString).
Local Abbreviation wrap :=
  (kaitiakiWrapResponse PUBLIC_KEY secretKey sign_detached JSON_stringify toISOString).
Local Abbreviation json :=
  (kaitiakiJson PUBLIC_KEY secretKey sign_detached JSON_stringify toISOString).

Lemma initial_valid : valid_state (initial PUBLIC_KEY).
Proof. split; apply sha256_digest. Qed.

(** The three ways a seal fails. *)
Lemma seal_throws_on_stringify st env payload domain message :
  JSON_stringify payload = Throw message ->
  seal st env payload domain = Throw message.
Proof. intros E. unfold sealTransport. now rewrite E. Qed.

Lemma seal_throws_on_undefined st env payload domain :
  JSON_stringify payload = Ok None ->
  exists message, seal st env payload domain = Throw message.
Proof. intros E. unfold sealTransport. rewrite E. eexists. reflexivity. Qed.

Lemma seal_throws_on_sign st env payload domain text message :
  JSON_stringify payload = Ok (Some text) ->
  (forall m, sign_detached m secretKey = Throw message) ->
  seal st env payload domain = Throw message.
Proof.
  intros E S. unfold sealTransport. rewrite E. cbn [bind sha256_of].
  now rewrite S.
Qed.

(** A seal on a valid state, of a payload that serializes, under a signer
    that answers: it returns, the position goes up by one, the receipt
    carries the new position, and the new state is the hash of the
    artifact hash and the mixer's output. *)
Lemma seal_step st env payload domain :
  valid_state st ->
  (exists text, JSON_stringify payload = Ok (Some text)) ->
  (forall m, exists sg, sign_detached m secretKey = Ok sg) ->
  exists r st',
    seal st env payload domain = Ok (r, st')
    /\ chainPosition st' = chainPosition st + 1
    /\ position_of r = chainPosition st + 1
    /\ prevPrevState st' = prevState st
    /\ prevState st'
       = SHA256.sha256
           (Compact.artifact_hash (compactReceipt r)
            ++ mixing_reference (prevPrevState st) (prevState st))
    /\ valid_state st'.
Proof.
  intros [V1 V2] [text E] S. unfold sealTransport.
  rewrite E. cbn [bind sha256_of].
  match goal with |- context [sign_detached ?m secretKey] =>
    destruct (S m) as [sg Es]; rewrite Es end.
  cbn [bind]. rewrite (arnoldTransform_reference _ _ V2 V1). cbn [bind].
  eexists. eexists. split; [reflexivity|].
  cbn [chainPosition prevState prevPrevState].
  repeat split; try reflexivity; try assumption.
  apply sha256_digest.
Qed.

Lemma seal_all_positions calls :
  forall st,
  valid_state st ->
  Forall (fun c => exists text, JSON_stringify (snd (fst c)) = Ok (Some text)) calls ->
  (forall m, exists sg, sign_detached m secretKey = Ok sg) ->
  exists rs st',
    seals st calls = Ok (rs, st')
    /\ chainPosition st' = chainPosition st + Z.of_nat (List.length calls)
    /\ map position_of rs
       = map (fun i => chainPosition st + Z.of_nat i) (seq 1 (List.length calls))
    /\ valid_state st'.
Proof.
  induction calls as [|[[env payload] domain] calls IH]; intros st V F S.
  - exists [], st. cbn. repeat split; try apply V. lia.
  - inversion F as [|c cs Hc Hcs]; subst.
    destruct (seal_step st env payload domain V Hc S)
      as (r & st1 & E1 & P1 & R1 & _ & _ & V1).
    destruct (IH st1 V1 Hcs S) as (rs & st2 & E2 & P2 & R2 & V2).
    exists (r :: rs), st2. cbn [seal_all]. rewrite E1. cbn [bind snd fst].
    rewrite E2. cbn [bind snd fst].
    split; [reflexivity|]. split; [|split; [|exact V2]].
    + rewrite P2, P1. cbn [List.length]. lia.
    + cbn [map List.length seq].
      rewrite R1, R2, P1, <- (seq_shift (List.length calls) 1), map_map.
      f_equal. apply map_ext. intros i. lia.
Qed.

(** Whenever a seal returns, the counter has gone up by exactly one and
    the receipt carries the counter as incremented. *)
Lemma seal_advances_by_one st env payload domain r st' :
  seal st env payload domain = Ok (r, st') ->
  chainPosition st' = chainPosition st + 1
  /\ Posc.chain_position (posc (Receipt.layers r)) = chainPosition st'
  /\ PoscLink.chain_position (Seals.posc_link (seals_of r)) = chainPosition st'
  /\ position_of r = chainPosition st'.
Proof.
  unfold sealTransport.
  destruct (JSON_stringify payload) as [[text|]|]; cbn [bind sha256_of];
    try discriminate.
  destruct (sign_detached _ secretKey); cbn [bind]; try discriminate.
  destruct (arnoldTransform _ _); cbn [bind]; try discriminate.
  intros H. injection H as <- <-. repeat split.
Qed.

(** C6.  Every seal that returns has advanced the position counter by
    exactly one and put the incremented counter in its receipt.  From a
    fresh chain, [N] seal calls whose payloads serialize, under a signer
    that answers, all return; the counter ends at [N]; and the receipts
    carry the positions 1, 2, ..., [N] in order, so none repeats and none
    is skipped. *)
Theorem seal_positions_are_consecutive
  (calls : list (Env * jsval * string)) :
  (forall st env payload domain r st',
     seal st env payload domain = Ok (r, st') ->
     chainPosition st' = chainPosition st + 1 /\ position_of r = chainPosition st')
  /\ (Forall (fun c => exists text, JSON_stringify (snd (fst c)) = Ok (Some text)) calls ->
      (forall m, exists sg, sign_detached m secretKey = Ok sg) ->
      exists rs st,
        seals (initial PUBLIC_KEY) calls = Ok (rs, st)
        /\ chainPosition st = Z.of_nat (List.length calls)
        /\ List.length rs = List.length calls
        /\ map position_of rs = map Z.of_nat (seq 1 (List.length calls))
        /\ NoDup (map position_of rs)).
Proof.
  split.
  { intros st env payload domain r st' E.
    destruct (seal_advances_by_one st env payload domain r st' E) as (A & _ & _ & B).
    now split. }
  intros F S.
  destruct (seal_all_positions calls (initial PUBLIC_KEY) initial_valid F S)
    as (rs & st & E & Pn & R & _).
  exists rs, st. cbn [initial chainPosition] in Pn, R.
  assert (R' : map position_of rs = map Z.of_nat (seq 1 (List.length calls))).
  { rewrite R. apply map_ext. intros i. lia. }
  repeat split; try assumption.
  - apply (f_equal (@List.length Z)) in R'.
    now rewrite !length_map, length_seq in R'.
  - rewrite R'. apply Injective_map_NoDup; [|apply seq_NoDup].
    intros a b. apply Nat2Z.inj.
Qed.

(** C7.  When [sealTransport] throws, whether in serializing, in hashing
    an [undefined] serialization or in signing, the Workers wrapper returns
    the data itself and the Express wrapper hands the data itself to the
    original [res.json], sets no header and logs the error, both leaving
    the chain state as it was; and in every case [res.json] is handed one
    body, the data or the data with its receipt. *)
Theorem sealing_failure_is_non_fatal (st : ChainState) (env : Env) (data : jsval) :
  (forall domain message,
     seal st env data (dflt "cloudflare-worker" domain) = Throw message ->
     wrap st env data domain = (data, st))
  /\ (forall req res message,
        seal st env data (method req ++ " " ++ path req) = Throw message ->
        json st env req res data
        = {| response := {| headers := headers res; sent := (sent res ++ [data])%list |};
             console := ["[kaitiaki-middleware] seal error (non-fatal): " ++ message];
             chain := st |})
  /\ (forall domain message,
        JSON_stringify data = Throw message ->
        seal st env data domain = Throw message)
  /\ (forall domain,
        JSON_stringify data = Ok None ->
        exists message, seal st env data domain = Throw message)
  /\ (forall domain text message,
        JSON_stringify data = Ok (Some text) ->
        (forall m, sign_detached m secretKey = Throw message) ->
        seal st env data domain = Throw message)
  /\ (forall req res,
        exists body,
          sent (response (json st env req res data)) = (sent res ++ [body])%list
          /\ (body = data \/ exists c, body = with_kaitiaki data c)).
Proof.
  split; [|split; [|split; [|split; [|split]]]].
  - intros domain message E. unfold kaitiakiWrapResponse. now rewrite E.
  - intros req res message E. unfold kaitiakiJson. now rewrite E.
  - intros domain message. apply seal_throws_on_stringify.
  - intros domain. apply seal_throws_on_undefined.
  - intros domain text message. apply seal_throws_on_sign.
  - intros req res. unfold kaitiakiJson.
    destruct (seal st env data (method req ++ " " ++ path req)) as [[r st']|m].
    + destruct (is_plain_object data); eexists; (split; [reflexivity|]); eauto.
    + eexists. split; [reflexivity|]. now left.
Qed.

End SealProperties.

(** Three calls on the stand-in host: positions 1, 2, 3. *)
Lemma seal_positions_are_consecutive_witness :
  exists rs st,
    Kaitiaki.seal_all Examples.PUBLIC_KEY Examples.secretKey Examples.sign_detached
      Examples.JSON_stringify Examples.toISOString
      (Kaitiaki.initial Examples.PUBLIC_KEY) Examples.three_calls = Ok (rs, st)
    /\ Kaitiaki.chainPosition st = 3%Z
    /\ List.length rs = 3%nat
    /\ map Kaitiaki.position_of rs = [1; 2; 3]%Z
    /\ NoDup (map Kaitiaki.position_of rs).
Proof.
  apply (proj2 (seal_positions_are_consecutive Examples.PUBLIC_KEY Examples.secretKey
                  Examples.sign_detached Examples.JSON_stringify Examples.toISOString
                  Examples.three_calls)).
  - repeat constructor; eexists; reflexivity.
  - intros m. eexists. reflexivity.
Defined.

(** An [undefined] payload on the stand-in host: its serialization is
    [undefined], hashing it throws, and the payload comes back as it was. *)
Lemma sealing_failure_is_non_fatal_witness :
  Kaitiaki.kaitiakiWrapResponse Examples.PUBLIC_KEY Examples.secretKey
    Examples.sign_detached Examples.JSON_stringify Examples.toISOString
    (Kaitiaki.initial Examples.PUBLIC_KEY)
    {| Kaitiaki.ts := 1771891200000; Kaitiaki.rnd := [171; 205] |}%Z
    Kaitiaki.JUndefined None
  = (Kaitiaki.JUndefined, Kaitiaki.initial Examples.PUBLIC_KEY).
Proof.
  eapply (proj1 (sealing_failure_is_non_fatal Examples.PUBLIC_KEY Examples.secretKey
                   Examples.sign_detached Examples.JSON_stringify Examples.toISOString
                   (Kaitiaki.initial Examples.PUBLIC_KEY) _ Kaitiaki.JUndefined) None).
  reflexivity.
Defined.

(* ================================================================== *)
(** * Further properties of the gates *)

Section GateInvariants.
Import Gates.
Local Open Scope Q_scope.

Lemma ltb_false (x y : Q) : Num.ltb x y = false <-> y <= x.
Proof. unfold Num.ltb. rewrite negb_false_iff. apply Qle_bool_iff. Qed.

Lemma ltb_true (x y : Q) : Num.ltb x y = true <-> x < y.
Proof.
  unfold Num.ltb. rewrite negb_true_iff. split; intros H.
  - apply Qnot_le_lt. intros L. apply Qle_bool_iff in L. congruence.
  - destruct (Qle_bool y x) eqn:E; [|reflexivity].
    apply Qle_bool_iff in E. exfalso. now apply (Qlt_not_le x y).
Qed.

Lemma leb_true (x y : Q) : Num.leb x y = true <-> x <= y.
Proof. apply Qle_bool_iff. Qed.

Lemma leb_false (x y : Q) : Num.leb x y = false <-> y < x.
Proof.
  unfold Num.leb. split; intros H.
  - apply Qnot_le_lt. intros L. apply Qle_bool_iff in L. congruence.
  - destruct (Qle_bool x y) eqn:E; [|reflexivity].
    apply Qle_bool_iff in E. exfalso. now apply (Qlt_not_le y x).
Qed.

Lemma ahimsa_scored (ctx : GateContext) : scored_within 0.80 (ahimsaGate ctx).
Proof.
  unfold ahimsaGate, scored_within.
  destruct (includes _ _); [left; split; reflexivity|].
  destruct (_ && _); [left; split; reflexivity|].
  right. destruct (dflt false (patient_facing ctx)); cbn; repeat split; discriminate.
Qed.

Lemma satya_scored (ctx : GateContext) : scored_within 0.66 (satyaGate ctx).
Proof.
  unfold satyaGate, scored_within.
  set (c := dflt 0 (confidence ctx)).
  destruct (Num.ltb c 0 || Num.ltb 1 c) eqn:R; [left; split; reflexivity|].
  destruct (Num.ltb c 0.60) eqn:L; [left; split; reflexivity|].
  destruct (String.eqb (dflt "unknown" (data_quality ctx)) "unknown"
            || String.eqb (dflt "unknown" (data_quality ctx)) "poor");
    [left; split; reflexivity|].
  destruct (negb (JS.truthy (model_version ctx))); [left; split; reflexivity|].
  right. cbn [pass score]. split; [reflexivity|].
  apply orb_false_iff in R as [_ R]. apply ltb_false in R, L.
  unfold Num.Math_min. destruct (Num.leb 1.0 (c * 1.1)) eqn:M.
  - split; discriminate.
  - apply leb_false in M. split; lra.
Qed.

Lemma asteya_scored (ctx : GateContext) : scored_within 0.95 (asteyaGate ctx).
Proof.
  unfold asteyaGate, scored_within.
  destruct (negb (JS.truthy _)); [left; split; reflexivity|].
  destruct (negb (Consent.valid _)); [left; split; reflexivity|].
  right. cbn. repeat split; discriminate.
Qed.

Lemma brahmacharya_scored (ctx : GateContext) :
  scored_within 0.70 (brahmaacharyaGate ctx).
Proof.
  unfold brahmaacharyaGate, scored_within.
  destruct (negb (JS.truthy (scope ctx))); [left; split; reflexivity|].
  destruct (negb (includes _ _)); [left; split; reflexivity|].
  right. destruct (JS.truthy (regulatory_jurisdiction ctx)); cbn;
    repeat split; discriminate.
Qed.

Lemma aparigraha_scored (ctx : GateContext) :
  scored_within 0.72 (aparigrahaGate ctx).
Proof.
  unfold aparigrahaGate, scored_within.
  destruct (_ && _); [left; split; reflexivity|].
  right. destruct (Num.leb 3 _), (dflt false (dissent_flag ctx)); cbn;
    repeat split; discriminate.
Qed.


Lemma blocked_by_empty_iff (now : string) (ctx : GateContext) :
  Verdict.blocked_by (runAllGates now ctx) = [] <-> all_pass ctx = true.
Proof.
  unfold runAllGates, all_pass, entries.
  cbn [Verdict.blocked_by ahimsa satya asteya brahmacharya aparigraha filter snd fst].
  destruct (pass (ahimsaGate ctx)), (pass (satyaGate ctx)), (pass (asteyaGate ctx)),
    (pass (brahmaacharyaGate ctx)), (pass (aparigrahaGate ctx));
    cbn; split; intros H; (reflexivity || discriminate).
Qed.

Lemma raw_score_unfold (now : string) (ctx : GateContext) :
  rf_constitutional_score (Verdict.receipt_fields (runAllGates now ctx))
  = if negb (pass (brahmaacharyaGate ctx)) then 0
    else 0.25 * score (ahimsaGate ctx) + 0.25 * score (satyaGate ctx)
         + 0.15 * score (asteyaGate ctx) + 0.20 * score (brahmaacharyaGate ctx)
         + 0.15 * score (aparigrahaGate ctx).
Proof. reflexivity. Qed.

Lemma passing_composite (now : string) (ctx : GateContext) :
  all_pass ctx = true ->
  0.7555 <= rf_constitutional_score (Verdict.receipt_fields (runAllGates now ctx)).
Proof.
  unfold all_pass. intros H.
  repeat (apply andb_true_iff in H as [H ?]).
  rewrite raw_score_unfold.
  destruct (ahimsa_scored ctx) as [[? _]|(_ & A & _)]; [congruence|].
  destruct (satya_scored ctx) as [[? _]|(_ & S & _)]; [congruence|].
  destruct (asteya_scored ctx) as [[? _]|(_ & T & _)]; [congruence|].
  destruct (brahmacharya_scored ctx) as [[? _]|(B0 & B & _)]; [congruence|].
  destruct (aparigraha_scored ctx) as [[? _]|(_ & P & _)]; [congruence|].
  rewrite B0. cbn [negb]. lra.
Qed.

Lemma pass_iff_unblocked (now : string) (ctx : GateContext) :
  Verdict.pass (runAllGates now ctx) = true
  <-> Verdict.blocked_by (runAllGates now ctx) = [].
Proof.
  split.
  - intros H. destruct (Verdict.blocked_by (runAllGates now ctx)) eqn:E; [reflexivity|].
    rewrite blocked_never_passes in H; [discriminate | congruence].
  - intros E.
    assert (P := passing_composite now ctx (proj1 (blocked_by_empty_iff now ctx) E)).
    revert P E. unfold runAllGates.
    cbn [Verdict.pass Verdict.blocked_by Verdict.receipt_fields rf_constitutional_score].
    intros P E. rewrite E. cbn [List.length Nat.eqb andb].
    apply leb_true. lra.
Qed.






End GateInvariants.

(* ================================================================== *)
(** * Further properties of the consent protocol *)

Section ConsentInvariants.
Import Consent.

Lemma generate_ok_form (g s a : option string) (id : string) :
  generateConsentRecordId g s a = Ok id ->
  id = "CR-" ++ JS.slice0 32 (SHA256.sha256 (canonical g s a))
  /\ JS.truthy g = true /\ JS.truthy s = true /\ JS.truthy a = true.
Proof.
  unfold generateConsentRecordId.
  destruct (JS.truthy g), (JS.truthy s), (JS.truthy a); cbn [negb orb];
    intros H; try discriminate.
  injection H as <-. repeat split.
Qed.

Lemma length_slice0 (n : nat) (s : string) :
  (n <= String.length s)%nat -> String.length (JS.slice0 n s) = n.
Proof.
  revert s. induction n as [|n IH]; intros [|c s] H; cbn in *; try lia.
  now rewrite IH by lia.
Qed.

Lemma all_hex_slice0 (n : nat) (s : string) :
  JS.all_hex s = true -> JS.all_hex (JS.slice0 n s) = true.
Proof.
  revert s. induction n as [|n IH]; intros [|c s] H; cbn in *; try reflexivity.
  destruct (JS.hex_value c); [now apply IH | discriminate].
Qed.

(** X4.  Every id [generateConsentRecordId] returns is [CR-] followed by
    exactly 32 hexadecimal digits, and it returns one exactly when the
    three inputs are present and non-empty. *)
Theorem consent_id_shape (g s a : option string) :
  ((exists id, generateConsentRecordId g s a = Ok id)
   <-> JS.truthy g = true /\ JS.truthy s = true /\ JS.truthy a = true)
  /\ (forall id, generateConsentRecordId g s a = Ok id ->
        exists h, id = "CR-" ++ h
                  /\ String.length h = 32%nat
                  /\ JS.all_hex h = true
                  /\ String.length id = 35%nat).
Proof.
  split.
  - split.
    + intros [id H]. now apply generate_ok_form in H.
    + intros (Hg & Hs & Ha). unfold generateConsentRecordId.
      rewrite Hg, Hs, Ha. eexists. reflexivity.
  - intros id H. apply generate_ok_form in H as [-> _].
    pose proof (sha256_digest (canonical g s a)) as D.
    apply is_hex_digest_inv in D as [L A].
    exists (JS.slice0 32 (SHA256.sha256 (canonical g s a))).
    assert (L32 : String.length (JS.slice0 32 (SHA256.sha256 (canonical g s a))) = 32%nat)
      by (apply length_slice0; lia).
    repeat split; [exact L32 | now apply all_hex_slice0 |].
    revert L32. generalize (JS.slice0 32 (SHA256.sha256 (canonical g s a))).
    intros h L32. cbn [append String.length]. now rewrite L32.
Qed.

Lemma validate_valid_iff (cid g s a : option string) :
  valid (validateConsentRecord cid g s a) = true
  <-> exists id, cid = Some id /\ generateConsentRecordId g s a = Ok id.
Proof.
  unfold validateConsentRecord. split.
  - destruct cid as [[|c r]|]; cbn [JS.truthy negb]; try discriminate.
    cbn [String_ dflt].
    destruct (negb (JS.startsWith "CR-" (String c r))); [discriminate|].
    destruct (generateConsentRecordId g s a) as [expected|m]; [|discriminate].
    destruct (String.eqb (String c r) expected) eqn:E; [|discriminate].
    apply String.eqb_eq in E. subst expected. intros _. now exists (String c r).
  - intros (id & -> & H). rewrite H.
    apply generate_ok_form in H as [-> _].
    generalize (JS.slice0 32 (SHA256.sha256 (canonical g s a))). intros h.
    cbn [append JS.truthy negb String_ dflt].
    replace (JS.startsWith "CR-" (String "C" (String "R" (String "-" h)))) with true.
    + cbn [negb]. now rewrite String.eqb_refl.
    + unfold JS.startsWith. cbn. destruct h; reflexivity.
Qed.

(** X5.  [validateConsentRecord] answers valid for one id only, the id
    [generateConsentRecordId] derives from the same cohort, scope and
    clinician, and for none when any of the three is missing or empty;
    under every other input it answers invalid with a reason that begins
    [CONSENT_INVALID]. *)
Theorem validation_accepts_only_the_derived_id (cid g s a : option string) :
  (valid (validateConsentRecord cid g s a) = true
   <-> exists id, cid = Some id /\ generateConsentRecordId g s a = Ok id)
  /\ (valid (validateConsentRecord cid g s a) = true ->
      JS.truthy g = true /\ JS.truthy s = true /\ JS.truthy a = true)
  /\ (valid (validateConsentRecord cid g s a) = false ->
      JS.startsWith "CONSENT_INVALID: " (reason (validateConsentRecord cid g s a)) = true).
Proof.
  split; [apply validate_valid_iff|]. split.
  - intros H. apply validate_valid_iff in H as (id & _ & H).
    now apply generate_ok_form in H.
  - unfold validateConsentRecord.
    destruct (negb (JS.truthy cid)); [reflexivity|].
    destruct (negb (JS.startsWith "CR-" (String_ cid))); [reflexivity|].
    destruct (generateConsentRecordId g s a) as [expected|m].
    + destruct (negb (String.eqb (String_ cid) expected)); [reflexivity | discriminate].
    + intros _. cbn [reason]. unfold JS.startsWith. cbn. destruct m; reflexivity.
Qed.

(** X6.  The canonical form that is hashed is unambiguous: two triples
    have the same canonical form exactly when their cohorts agree and
    their scopes agree once trimmed and lower-cased, and their clinician
    ids agree once trimmed (case included).  No choice of quotes, commas
    or backslashes in one field can imitate another triple. *)
Theorem canonical_form_is_injective (g s a g' s' a' : option string) :
  canonical g s a = canonical g' s' a'
  <-> JS.toLowerCase (JS.trim (String_ g)) = JS.toLowerCase (JS.trim (String_ g'))
      /\ JS.toLowerCase (JS.trim (String_ s)) = JS.toLowerCase (JS.trim (String_ s'))
      /\ JS.trim (String_ a) = JS.trim (String_ a').
Proof.
  unfold canonical. split.
  - generalize (JS.toLowerCase (JS.trim (String_ g))) as x.
    generalize (JS.toLowerCase (JS.trim (String_ g'))) as x'.
    generalize (JS.toLowerCase (JS.trim (String_ s))) as y.
    generalize (JS.toLowerCase (JS.trim (String_ s'))) as y'.
    generalize (JS.trim (String_ a)) as z.
    generalize (JS.trim (String_ a')) as z'.
    intros z' z y' y x' x H.
    unfold JSON_stringify_triple in H. cbn in H. injection H as H.
    rewrite !app_assoc_s in H.
    apply quote_body_unambiguous in H as [-> H].
    cbn in H. injection H as H. rewrite ?app_assoc_s in H.
    apply quote_body_unambiguous in H as [-> H].
    cbn in H. injection H as H. rewrite ?app_assoc_s in H.
    apply quote_body_unambiguous in H as [-> _].
    repeat split.
  - intros (-> & -> & ->). reflexivity.
Qed.

End ConsentInvariants.

(* ================================================================== *)
(** * What it takes to pass *)

Section PassConditions.
Import Gates.
Local Open Scope Q_scope.

Lemma ahimsa_passes_iff (ctx : GateContext) :
  pass (ahimsaGate ctx) = true
  <-> includes FORBIDDEN_TYPES (dflt "" (assessment_type ctx)) = false
      /\ (dflt 0 (population_size ctx) <= 10000 \/ JS.truthy (equity_flag ctx) = true).
Proof.
  unfold ahimsaGate. cbv zeta.
  destruct (includes FORBIDDEN_TYPES (dflt "" (assessment_type ctx))); cbn [pass];
    [split; [discriminate | intros [? _]; discriminate]|].
  destruct (Num.ltb 10000 (dflt 0 (population_size ctx))) eqn:L;
    destruct (JS.truthy (equity_flag ctx)); cbn [negb andb pass].
  - split; auto.
  - apply ltb_true in L. split; [discriminate|].
    intros [_ [H|H]]; [|discriminate]. exfalso. now apply (Qlt_not_le _ _ L).
  - split; auto.
  - apply ltb_false in L. split; auto.
Qed.

Lemma satya_passes_iff (ctx : GateContext) :
  pass (satyaGate ctx) = true
  <-> 0.60 <= dflt 0 (confidence ctx) /\ dflt 0 (confidence ctx) <= 1
      /\ dflt "unknown" (data_quality ctx) <> "unknown"
      /\ dflt "unknown" (data_quality ctx) <> "poor"
      /\ JS.truthy (model_version ctx) = true.
Proof.
  unfold satyaGate. cbv zeta.
  set (c := dflt 0 (confidence ctx)). set (q := dflt "unknown" (data_quality ctx)).
  destruct (Num.ltb c 0) eqn:L0.
  { apply ltb_true in L0. cbn [orb pass]. split; [discriminate|].
    intros (H & _). exfalso. apply (Qlt_not_le _ _ L0). lra. }
  destruct (Num.ltb 1 c) eqn:L1.
  { apply ltb_true in L1. cbn [orb pass]. split; [discriminate|].
    intros (_ & H & _). exfalso. now apply (Qlt_not_le _ _ L1). }
  cbn [orb]. destruct (Num.ltb c 0.60) eqn:L2.
  { apply ltb_true in L2. cbn [pass]. split; [discriminate|].
    intros (H & _). exfalso. now apply (Qlt_not_le _ _ L2). }
  apply ltb_false in L1, L2.
  destruct (String.eqb q "unknown") eqn:E1.
  { apply String.eqb_eq in E1. cbn [orb pass]. split; [discriminate|].
    intros (_ & _ & H & _). contradiction. }
  destruct (String.eqb q "poor") eqn:E2.
  { apply String.eqb_eq in E2. cbn [orb pass]. split; [discriminate|].
    intros (_ & _ & _ & H & _). contradiction. }
  apply String.eqb_neq in E1, E2. cbn [orb].
  destruct (JS.truthy (model_version ctx)); cbn [negb pass].
  - split; [intros _; repeat split; assumption | reflexivity].
  - split; [discriminate | intros (_ & _ & _ & _ & H); discriminate].
Qed.

Lemma asteya_passes_iff (ctx : GateContext) :
  pass (asteyaGate ctx) = true
  <-> exists id, consent_record_id ctx = Some id
                 /\ Consent.generateConsentRecordId
                      (cohort ctx) (scope ctx) (clinician_id ctx) = Ok id.
Proof.
  rewrite <- validate_valid_iff. unfold asteyaGate.
  destruct (JS.truthy (consent_record_id ctx)) eqn:T; cbn [negb].
  - destruct (Consent.valid _); cbn [negb pass]; split; congruence.
  - cbn [pass]. split; [discriminate|].
    unfold Consent.validateConsentRecord. rewrite T. discriminate.
Qed.

Lemma brahmacharya_passes_iff (ctx : GateContext) :
  pass (brahmaacharyaGate ctx) = true
  <-> exists s, scope ctx = Some s /\ In s VALIDATED_SCOPES.
Proof.
  split.
  - intros H. destruct (scope ctx) as [s|] eqn:E.
    + exists s. split; [reflexivity|].
      unfold brahmaacharyaGate in H. rewrite E in H.
      destruct s as [|c s]; [discriminate H|]. cbn [JS.truthy negb Consent.String_ dflt] in H.
      destruct (includes VALIDATED_SCOPES (String c s)) eqn:I; [|discriminate H].
      unfold includes in I. apply existsb_exists in I as (x & Hin & Hx).
      apply String.eqb_eq in Hx. now subst x.
    + unfold brahmaacharyaGate in H. rewrite E in H. discriminate H.
  - intros (s & E & Hin). unfold brahmaacharyaGate. rewrite E.
    assert (T : JS.truthy (Some s) = true).
    { cbn in Hin. destruct Hin as [<-|[<-|[<-|[<-|[<-|[<-|[]]]]]]]; reflexivity. }
    rewrite T. cbn [negb Consent.String_ dflt].
    assert (I : includes VALIDATED_SCOPES s = true).
    { unfold includes. apply existsb_exists. exists s. split; [assumption|].
      apply String.eqb_refl. }
    rewrite I. cbn [negb]. now destruct (JS.truthy (regulatory_jurisdiction ctx)).
Qed.

Lemma aparigraha_passes_iff (ctx : GateContext) :
  pass (aparigrahaGate ctx) = true
  <-> 2 <= dflt 1 (model_count ctx) \/ dflt false (dissent_flag ctx) = true.
Proof.
  unfold aparigrahaGate. cbv zeta.
  destruct (Num.ltb (dflt 1 (model_count ctx)) 2) eqn:L;
    destruct (dflt false (dissent_flag ctx)); cbn [negb andb pass].
  - split; auto.
  - apply ltb_true in L. split; [discriminate|].
    intros [H|H]; [|discriminate]. exfalso. now apply (Qlt_not_le _ _ L).
  - split; auto.
  - apply ltb_false in L. split; auto.
Qed.

Lemma run_passes_iff (now : string) (ctx : GateContext) :
  Verdict.pass (runAllGates now ctx) = true
  <-> (includes FORBIDDEN_TYPES (dflt "" (assessment_type ctx)) = false
       /\ (dflt 0 (population_size ctx) <= 10000 \/ JS.truthy (equity_flag ctx) = true))
      /\ (0.60 <= dflt 0 (confidence ctx) /\ dflt 0 (confidence ctx) <= 1
          /\ dflt "unknown" (data_quality ctx) <> "unknown"
          /\ dflt "unknown" (data_quality ctx) <> "poor"
          /\ JS.truthy (model_version ctx) = true)
      /\ (exists id, consent_record_id ctx = Some id
                     /\ Consent.generateConsentRecordId
                          (cohort ctx) (scope ctx) (clinician_id ctx) = Ok id)
      /\ (exists s, scope ctx = Some s /\ In s VALIDATED_SCOPES)
      /\ (2 <= dflt 1 (model_count ctx) \/ dflt false (dissent_flag ctx) = true).
Proof.
  rewrite pass_iff_unblocked, blocked_by_empty_iff. unfold all_pass.
  rewrite !andb_true_iff.
  rewrite ahimsa_passes_iff, satya_passes_iff, asteya_passes_iff,
    brahmacharya_passes_iff, aparigraha_passes_iff.
  tauto.
Qed.

(** X7.  [runAllGates] passes exactly when: the assessment type is not
    forbidden; the population is at most 10000 or an equity flag is given;
    the confidence lies in [0.60, 1]; the data quality is neither
    [unknown] (the default) nor [poor]; a model version is given; the
    consent record id is the one derived from the cohort, scope and
    clinician; the scope is one of the six validated scopes; and at least
    two models are used or dissent is flagged.  Nothing else is needed. *)
Theorem pass_conditions (now : string) (ctx : GateContext) :
  Verdict.pass (runAllGates now ctx) = true
  <-> (includes FORBIDDEN_TYPES (dflt "" (assessment_type ctx)) = false
       /\ (dflt 0 (population_size ctx) <= 10000 \/ JS.truthy (equity_flag ctx) = true))
      /\ (0.60 <= dflt 0 (confidence ctx) /\ dflt 0 (confidence ctx) <= 1
          /\ dflt "unknown" (data_quality ctx) <> "unknown"
          /\ dflt "unknown" (data_quality ctx) <> "poor"
          /\ JS.truthy (model_version ctx) = true)
      /\ (exists id, consent_record_id ctx = Some id
                     /\ Consent.generateConsentRecordId
                          (cohort ctx) (scope ctx) (clinician_id ctx) = Ok id)
      /\ (exists s, scope ctx = Some s /\ In s VALIDATED_SCOPES)
      /\ (2 <= dflt 1 (model_count ctx) \/ dflt false (dissent_flag ctx) = true).
Proof.
  rewrite pass_iff_unblocked, blocked_by_empty_iff. unfold all_pass.
  rewrite !andb_true_iff.
  rewrite ahimsa_passes_iff, satya_passes_iff, asteya_passes_iff,
    brahmacharya_passes_iff, aparigraha_passes_iff.
  tauto.
Qed.

Lemma advisory_same_verdicts (pf : option bool) (rj : option string) (ctx : GateContext) :
  satyaGate (with_advisory pf rj ctx) = satyaGate ctx
  /\ asteyaGate (with_advisory pf rj ctx) = asteyaGate ctx
  /\ aparigrahaGate (with_advisory pf rj ctx) = aparigrahaGate ctx
  /\ pass (ahimsaGate (with_advisory pf rj ctx)) = pass (ahimsaGate ctx)
  /\ reason (ahimsaGate (with_advisory pf rj ctx)) = reason (ahimsaGate ctx)
  /\ pass (brahmaacharyaGate (with_advisory pf rj ctx)) = pass (brahmaacharyaGate ctx)
  /\ reason (brahmaacharyaGate (with_advisory pf rj ctx))
     = reason (brahmaacharyaGate ctx).
Proof.
  repeat split.
  - unfold ahimsaGate. cbn [assessment_type population_size equity_flag patient_facing
                              with_advisory].
    destruct (includes _ _); [reflexivity|]. now destruct (_ && _).
  - unfold ahimsaGate. cbn [assessment_type population_size equity_flag patient_facing
                              with_advisory].
    destruct (includes _ _); [reflexivity|]. now destruct (_ && _).
  - unfold brahmaacharyaGate. cbn [scope regulatory_jurisdiction with_advisory].
    destruct (negb (JS.truthy (scope ctx))); [reflexivity|]. now destruct (negb _).
  - unfold brahmaacharyaGate. cbn [scope regulatory_jurisdiction with_advisory].
    destruct (negb (JS.truthy (scope ctx))); [reflexivity|]. now destruct (negb _).
Qed.

(** X8.  The two advisory properties never change the verdict: whatever
    [patient_facing] and [regulatory_jurisdiction] are set to, [runAllGates]
    gives the same pass and the same blocking list; they move only the
    scores of the ahimsa and brahmacharya gates. *)
Theorem advisory_fields_never_block
  (now now' : string) (pf : option bool) (rj : option string) (ctx : GateContext) :
  Verdict.pass (runAllGates now (with_advisory pf rj ctx))
    = Verdict.pass (runAllGates now' ctx)
  /\ Verdict.blocked_by (runAllGates now (with_advisory pf rj ctx))
     = Verdict.blocked_by (runAllGates now' ctx).
Proof.
  destruct (advisory_same_verdicts pf rj ctx) as (S & T & P & A1 & A2 & B1 & B2).
  assert (E : Verdict.blocked_by (runAllGates now (with_advisory pf rj ctx))
              = Verdict.blocked_by (runAllGates now' ctx)).
  { unfold runAllGates, entries.
    cbn [Verdict.blocked_by ahimsa satya asteya brahmacharya aparigraha filter snd fst].
    rewrite S, T, P, A1, B1.
    destruct (pass (ahimsaGate ctx)), (pass (satyaGate ctx)), (pass (asteyaGate ctx)),
      (pass (brahmaacharyaGate ctx)), (pass (aparigrahaGate ctx));
      cbn [negb filter map snd fst]; rewrite ?A2, ?B2; reflexivity. }
  split; [|exact E].
  apply eq_true_iff_eq. rewrite !pass_iff_unblocked. now rewrite E.
Qed.

End PassConditions.

(* ================================================================== *)
(** * Propagating a chain between services *)

Section PropagationProperties.
Import Kaitiaki Propagation.
Local Open Scope Z_scope.

Lemma link_to_id (own id : string) :
  JS.trim id <> "" ->
  Chain.chainReceipt (Some (fresh own)) (Chain.ParentId id)
  = Ok {| Chain.receipt_id := Some own; Chain.parent_receipt_id := Some id;
          Chain.chain_depth := Some 1; Chain.chain_root := Some id |}.
Proof.
  intros H. unfold Chain.chainReceipt, fresh.
  destruct (String.eqb (JS.trim id) "") eqn:E.
  - apply String.eqb_eq in E. contradiction.
  - cbn [negb]. rewrite truthy_nonempty by now apply trim_nonblank_nonempty.
    reflexivity.
Qed.

Lemma extract_nonblank (req : option Request) (id : string) :
  extractParentReceipt req = Some id -> JS.trim id <> "".
Proof.
  destruct req as [req|]; [|discriminate]. unfold extractParentReceipt.
  assert (V : forall o,
             match get_prop "x-kaitiaki-parent-receipt" (headers req) with
             | JStr s => if negb (String.eqb (JS.trim s) "") then Some s else None
             | _ => None
             end = o -> o = Some id -> JS.trim id <> "").
  { intros o <-. destruct (get_prop _ (headers req)); try discriminate.
    destruct (String.eqb (JS.trim s) "") eqn:E; [discriminate|].
    intros [= ->]. now apply String.eqb_neq. }
  cbv zeta.
  destruct (get_prop "parent_receipt_id" (body req)); try (now apply V).
  destruct (String.eqb (JS.trim s) "") eqn:E; cbn [negb]; [now apply V|].
  intros [= ->]. now apply String.eqb_neq.
Qed.

Lemma link_extracted (own : string) (req : option Request) :
  Chain.chainReceipt (Some (fresh own)) (parent_ref (extractParentReceipt req))
  = Ok (match extractParentReceipt req with
        | Some id =>
            {| Chain.receipt_id := Some own; Chain.parent_receipt_id := Some id;
               Chain.chain_depth := Some 1; Chain.chain_root := Some id |}
        | None =>
            {| Chain.receipt_id := Some own; Chain.parent_receipt_id := None;
               Chain.chain_depth := Some 0; Chain.chain_root := Some own |}
        end).
Proof.
  destruct (extractParentReceipt req) as [id|] eqn:E; [|reflexivity].
  cbn [parent_ref]. apply link_to_id. now apply (extract_nonblank req).
Qed.

Lemma build_ok (id : string) :
  JS.trim id <> "" ->
  buildChainHeaders (JStr id) = Ok [("X-Kaitiaki-Parent-Receipt", id)].
Proof.
  intros H. unfold buildChainHeaders.
  destruct (String.eqb (JS.trim id) "") eqn:E; [|reflexivity].
  apply String.eqb_eq in E. contradiction.
Qed.

Lemma extract_received (id : string) (b : jsval) :
  JS.trim id <> "" ->
  (forall s, get_prop "parent_receipt_id" b = JStr s -> JS.trim s = "") ->
  extractParentReceipt
    (Some {| body := b; headers := received [("X-Kaitiaki-Parent-Receipt", id)] |})
  = Some id.
Proof.
  intros H B. unfold extractParentReceipt. cbn [body headers].
  assert (Hh : get_prop "x-kaitiaki-parent-receipt"
                 (received [("X-Kaitiaki-Parent-Receipt", id)]) = JStr id)
    by reflexivity.
  rewrite Hh. cbv zeta.
  assert (N : negb (String.eqb (JS.trim id) "") = true).
  { apply negb_true_iff, String.eqb_neq, H. }
  rewrite N.
  destruct (get_prop "parent_receipt_id" b) eqn:E; try reflexivity.
  rewrite (B s eq_refl). reflexivity.
Qed.

(** X9.  What [extractParentReceipt] returns is never blank; a non-blank
    string [parent_receipt_id] of the body wins over the header; the
    header is read when the body has none; and with neither, or with no
    request, the answer is [null]. *)
Theorem parent_is_read_from_body_then_header (req : Request) :
  (forall id, extractParentReceipt (Some req) = Some id ->
     JS.trim id <> "" /\ id <> ""
     /\ (get_prop "parent_receipt_id" (body req) = JStr id
         \/ get_prop "x-kaitiaki-parent-receipt" (headers req) = JStr id))
  /\ (forall id, get_prop "parent_receipt_id" (body req) = JStr id ->
        JS.trim id <> "" -> extractParentReceipt (Some req) = Some id)
  /\ (forall id,
        (forall s, get_prop "parent_receipt_id" (body req) = JStr s -> JS.trim s = "") ->
        get_prop "x-kaitiaki-parent-receipt" (headers req) = JStr id ->
        JS.trim id <> "" -> extractParentReceipt (Some req) = Some id)
  /\ ((forall s, get_prop "parent_receipt_id" (body req) = JStr s -> JS.trim s = "") ->
      (forall s, get_prop "x-kaitiaki-parent-receipt" (headers req) = JStr s ->
                 JS.trim s = "") ->
      extractParentReceipt (Some req) = None)
  /\ extractParentReceipt None = None.
Proof.
  split; [|split; [|split; [|split]]].
  - intros id E. pose proof (extract_nonblank _ _ E) as N.
    split; [exact N|]. split; [now apply trim_nonblank_nonempty|].
    revert E. unfold extractParentReceipt. cbv zeta.
    destruct (get_prop "parent_receipt_id" (body req)) as [| | | |s| |];
      try (destruct (get_prop _ (headers req)) as [| | | |t| |]; try discriminate;
           destruct (negb (String.eqb (JS.trim t) "")); [|discriminate];
           intros [= ->]; now right).
    destruct (negb (String.eqb (JS.trim s) "")); [intros [= ->]; now left|].
    destruct (get_prop _ (headers req)) as [| | | |t| |]; try discriminate.
    destruct (negb (String.eqb (JS.trim t) "")); [|discriminate].
    intros [= ->]; now right.
  - intros id E N. unfold extractParentReceipt. rewrite E. cbv zeta.
    apply String.eqb_neq in N. now rewrite N.
  - intros id B E N. unfold extractParentReceipt. rewrite E. cbv zeta.
    apply String.eqb_neq in N. rewrite N. cbn [negb].
    destruct (get_prop "parent_receipt_id" (body req)) as [| | | |s| |];
      try reflexivity.
    now rewrite (B s eq_refl).
  - intros B H. unfold extractParentReceipt. cbv zeta.
    assert (V : match get_prop "x-kaitiaki-parent-receipt" (headers req) with
                | JStr s => if negb (String.eqb (JS.trim s) "") then Some s else None
                | _ => None
                end = None).
    { destruct (get_prop _ (headers req)) as [| | | |t| |]; try reflexivity.
      now rewrite (H t eq_refl). }
    rewrite V.
    destruct (get_prop "parent_receipt_id" (body req)) as [| | | |s| |];
      try reflexivity.
    now rewrite (B s eq_refl).
  - reflexivity.
Qed.

(** X10.  [buildChainHeaders] throws exactly on what is not a non-blank
    string; on a non-blank id it returns one header, which the receiving
    service, where the names arrive in lower case, reads back as that id
    unless the body names a parent itself; read under the name as sent,
    the header is not found. *)
Theorem chain_headers_round_trip (id : string) (b : jsval) :
  JS.trim id <> "" ->
  (forall s, get_prop "parent_receipt_id" b = JStr s -> JS.trim s = "") ->
  exists sent,
    buildChainHeaders (JStr id) = Ok sent
    /\ extractParentReceipt (Some {| body := b; headers := received sent |}) = Some id
    /\ extractParentReceipt
         (Some {| body := b; headers := JObj (map (fun h => (fst h, JStr (snd h))) sent) |})
       = None
    /\ (forall v, (exists m, buildChainHeaders v = Throw m)
                  <-> ~ exists s, v = JStr s /\ JS.trim s <> "").
Proof.
  intros H B. exists [("X-Kaitiaki-Parent-Receipt", id)].
  split; [now apply build_ok|]. split; [now apply extract_received|]. split.
  - unfold extractParentReceipt. cbn [body headers map fst snd].
    assert (Hh : get_prop "x-kaitiaki-parent-receipt"
                   (JObj [("X-Kaitiaki-Parent-Receipt", JStr id)]) = JUndefined)
      by reflexivity.
    rewrite Hh. cbv zeta.
    destruct (get_prop "parent_receipt_id" b) eqn:E; try reflexivity.
    now rewrite (B s eq_refl).
  - intros v. unfold buildChainHeaders. split.
    + intros [m E] (s & -> & N). apply String.eqb_neq in N. rewrite N in E.
      discriminate.
    + intros N. destruct v as [| | | |s| |]; try (eexists; reflexivity).
      destruct (String.eqb (JS.trim s) "") eqn:E; [eexists; reflexivity|].
      exfalso. apply N. exists s. split; [reflexivity|]. now apply String.eqb_neq.
Qed.

Lemma link_all_from (ids : list string) :
  forall (p : Chain.Receipt) (pid root : string) (d : Z),
  Chain.receipt_id p = Some pid -> pid <> "" ->
  Chain.chain_depth p = Some d -> Chain.chain_root p = Some root ->
  Forall (fun id => id <> "") ids ->
  exists rs,
    link_all (Chain.ParentReceipt p) ids = Ok rs
    /\ List.length rs = List.length ids
    /\ forall k r, nth_error rs k = Some r ->
         Chain.receipt_id r = nth_error ids k
         /\ Chain.chain_depth r = Some (d + 1 + Z.of_nat k)
         /\ Chain.chain_root r = Some root
         /\ Chain.parent_receipt_id r = nth_error (pid :: ids) k.
Proof.
  induction ids as [|id ids IH]; intros p pid root d Hp Hne Hd Hr F.
  - exists []. split; [reflexivity|]. split; [reflexivity|].
    intros [|k] r; discriminate.
  - inversion F as [|x xs Hid Hids]; subst.
    set (r0 := {| Chain.receipt_id := Some id; Chain.parent_receipt_id := Some pid;
                  Chain.chain_depth := Some (d + 1); Chain.chain_root := Some root |}).
    assert (E : Chain.chainReceipt (Some (fresh id)) (Chain.ParentReceipt p) = Ok r0).
    { destruct p as [prid pp pd pr]. cbn in Hp, Hd, Hr. subst prid pd pr.
      unfold Chain.chainReceipt, fresh.
      cbn [Chain.receipt_id Chain.chain_depth Chain.chain_root dflt].
      rewrite truthy_nonempty by assumption. reflexivity. }
    destruct (IH r0 id root (d + 1) eq_refl Hid eq_refl eq_refl Hids)
      as (rs & E2 & L & N).
    exists (r0 :: rs). cbn [link_all]. rewrite E. cbn [bind]. rewrite E2. cbn [bind].
    split; [reflexivity|]. split; [cbn [List.length]; now rewrite L|].
    intros [|k] r Hk.
    + cbn in Hk. injection Hk as <-. cbn. repeat split. f_equal. lia.
    + cbn [nth_error] in Hk. destruct (N k r Hk) as (A & B & C & D).
      cbn [nth_error]. repeat split; try assumption.
      rewrite B. f_equal. lia.
Qed.

(** X11.  A chain built in one process, each receipt linked to the full
    receipt before it, counts its hops: the receipt of index [k] is at
    depth [k], names the receipt before it as parent, and carries the id
    of the first receipt as root, provided no id is empty. *)
Theorem full_parent_chain_counts_hops (origin : string) (ids : list string) :
  origin <> "" -> Forall (fun id => id <> "") ids ->
  exists rs,
    link_all Chain.NoParent (origin :: ids) = Ok rs
    /\ List.length rs = S (List.length ids)
    /\ forall k r, nth_error rs k = Some r ->
         Chain.receipt_id r = nth_error (origin :: ids) k
         /\ Chain.chain_depth r = Some (Z.of_nat k)
         /\ Chain.chain_root r = Some origin
         /\ Chain.parent_receipt_id r
            = match k with O => None | S j => nth_error (origin :: ids) j end.
Proof.
  intros Ho F.
  set (r0 := {| Chain.receipt_id := Some origin; Chain.parent_receipt_id := None;
                Chain.chain_depth := Some 0; Chain.chain_root := Some origin |}).
  destruct (link_all_from ids r0 origin origin 0 eq_refl Ho eq_refl eq_refl F)
    as (rs & E & L & N).
  exists (r0 :: rs). cbn [link_all].
  change (Chain.chainReceipt (Some (fresh origin)) Chain.NoParent) with (Ok r0).
  cbn [bind]. rewrite E. cbn [bind].
  split; [reflexivity|]. split; [cbn [List.length]; now rewrite L|].
  intros [|k] r Hk.
  - cbn in Hk. injection Hk as <-. cbn. repeat split.
  - cbn [nth_error] in Hk. destruct (N k r Hk) as (A & B & C & D).
    cbn [nth_error]. repeat split; try assumption.
    rewrite B. f_equal. lia.
Qed.

Lemma relay_all_from (ids : list string) :
  forall (b : jsval) (pid : string),
  JS.trim pid <> "" ->
  (forall s, get_prop "parent_receipt_id" b = JStr s -> JS.trim s = "") ->
  Forall (fun id => JS.trim id <> "") ids ->
  exists rs,
    relay_all (Some {| body := b;
                       headers := received [("X-Kaitiaki-Parent-Receipt", pid)] |}) ids
    = Ok rs
    /\ List.length rs = List.length ids
    /\ forall k r, nth_error rs k = Some r ->
         Chain.receipt_id r = nth_error ids k
         /\ Chain.chain_depth r = Some 1
         /\ Chain.chain_root r = nth_error (pid :: ids) k
         /\ Chain.parent_receipt_id r = nth_error (pid :: ids) k.
Proof.
  induction ids as [|id ids IH]; intros b pid Hp B F.
  - exists []. split; [reflexivity|]. split; [reflexivity|].
    intros [|k] r; discriminate.
  - inversion F as [|x xs Hid Hids]; subst.
    destruct (IH JUndefined id Hid ltac:(discriminate) Hids) as (rs & E2 & L & N).
    eexists. cbn [relay_all].
    rewrite (extract_received pid b Hp B). cbn [parent_ref].
    rewrite (link_to_id id pid Hp). cbn [bind].
    rewrite (build_ok id Hid). cbn [bind]. rewrite E2. cbn [bind].
    split; [reflexivity|]. split; [cbn [List.length]; now rewrite L|].
    intros [|k] r Hk.
    + cbn in Hk. injection Hk as <-. cbn. repeat split.
    + cbn [nth_error] in Hk. destruct (N k r Hk) as (A & D & C & P0).
      cbn [nth_error]. repeat split; assumption.
Qed.

(** X12.  A chain built across services, each one reading the id that
    the one before it sent in [buildChainHeaders], forgets its origin:
    every receipt after the first is at depth 1 and names its direct
    parent as root, however long the chain. *)
Theorem relayed_chain_forgets_origin (origin : string) (ids : list string) :
  JS.trim origin <> "" -> Forall (fun id => JS.trim id <> "") ids ->
  exists rs,
    relay_all None (origin :: ids) = Ok rs
    /\ List.length rs = S (List.length ids)
    /\ forall k r, nth_error rs k = Some r ->
         Chain.receipt_id r = nth_error (origin :: ids) k
         /\ match k with
            | O => Chain.chain_depth r = Some 0
                   /\ Chain.chain_root r = Some origin
                   /\ Chain.parent_receipt_id r = None
            | S j => Chain.chain_depth r = Some 1
                     /\ Chain.chain_root r = nth_error (origin :: ids) j
                     /\ Chain.parent_receipt_id r = nth_error (origin :: ids) j
            end.
Proof.
  intros Ho F.
  destruct (relay_all_from ids JUndefined origin Ho ltac:(discriminate) F)
    as (rs & E & L & N).
  eexists. cbn [relay_all extractParentReceipt parent_ref].
  change (Chain.chainReceipt (Some (fresh origin)) Chain.NoParent)
    with (Ok {| Chain.receipt_id := Some origin; Chain.parent_receipt_id := None;
                Chain.chain_depth := Some 0; Chain.chain_root := Some origin |}).
  cbn [bind]. rewrite (build_ok origin Ho). cbn [bind]. rewrite E. cbn [bind].
  split; [reflexivity|]. split; [cbn [List.length]; now rewrite L|].
  intros [|k] r Hk.
  - cbn in Hk. injection Hk as <-. cbn. repeat split.
  - cbn [nth_error] in Hk. destruct (N k r Hk) as (A & D & C & P0).
    cbn [nth_error]. repeat split; assumption.
Qed.

End PropagationProperties.

(* ================================================================== *)
(** * The routes *)

Section RouteProperties.
Import Gates Server.
Local Open Scope Q_scope.

Lemma asteya_pass_value (ctx : GateContext) :
  pass (asteyaGate ctx) = true ->
  asteyaGate ctx = {| pass := true; score := 0.95; reason := "ASTEYA_PASS" |}.
Proof.
  unfold asteyaGate. destruct (negb (JS.truthy _)); [discriminate|].
  destruct (negb (Consent.valid _)); [discriminate | reflexivity].
Qed.

Lemma brahmacharya_pass_value (ctx : GateContext) :
  pass (brahmaacharyaGate ctx) = true ->
  brahmaacharyaGate ctx
  = {| pass := true;
       score := if JS.truthy (regulatory_jurisdiction ctx) then 0.90 else 0.70;
       reason := "BRAHMACHARYA_PASS" |}.
Proof.
  unfold brahmaacharyaGate. destruct (negb (JS.truthy (scope ctx))); [discriminate|].
  cbv zeta. destruct (negb (includes _ _)); [discriminate | reflexivity].
Qed.

Lemma all_pass_of_run (now : string) (ctx : GateContext) :
  Verdict.pass (runAllGates now ctx) = true ->
  pass (asteyaGate ctx) = true /\ pass (brahmaacharyaGate ctx) = true.
Proof.
  rewrite pass_iff_unblocked, blocked_by_empty_iff. unfold all_pass.
  rewrite !andb_true_iff. tauto.
Qed.

(** X13.  [POST /api/v1/assess] passes the gates exactly when the body,
    with the route's defaults (confidence 0.75, data quality [good], two
    models, population 0, type [population_mortality]), meets the
    conditions of [runAllGates] and its population is at most 10000: the
    route does not forward [equity_flag], so no body of a larger
    population passes, whatever equity flag it carries. *)
Theorem assess_route_conditions (now : string) (body : GateContext) :
  (Verdict.pass (runAllGates now (assess_ctx (Some body))) = true
   <-> includes FORBIDDEN_TYPES (dflt "population_mortality" (assessment_type body)) = false
       /\ dflt 0 (population_size body) <= 10000
       /\ (0.60 <= dflt 0.75 (confidence body) /\ dflt 0.75 (confidence body) <= 1
           /\ dflt "good" (data_quality body) <> "unknown"
           /\ dflt "good" (data_quality body) <> "poor"
           /\ JS.truthy (model_version body) = true)
       /\ (exists id, consent_record_id body = Some id
                      /\ Consent.generateConsentRecordId
                           (cohort body) (scope body) (clinician_id body) = Ok id)
       /\ (exists s, scope body = Some s /\ In s VALIDATED_SCOPES)
       /\ (2 <= dflt 2 (model_count body) \/ dflt false (dissent_flag body) = true))
  /\ (10000 < dflt 0 (population_size body) ->
      pass (ahimsaGate (assess_ctx (Some body))) = false
      /\ pass (ahimsaGate body)
         = negb (includes FORBIDDEN_TYPES (dflt "" (assessment_type body)))
           && JS.truthy (equity_flag body))
  /\ assess_ctx None = assess_ctx (Some Examples.empty).
Proof.
  split; [|split; [|reflexivity]].
  - rewrite run_passes_iff. unfold assess_ctx.
    cbn [dflt equity_flag population_size patient_facing assessment_type confidence
         data_quality model_version consent_record_id cohort scope clinician_id
         regulatory_jurisdiction model_count dissent_flag JS.truthy].
    intuition discriminate.
  - intros L. split.
    + destruct (pass (ahimsaGate (assess_ctx (Some body)))) eqn:E; [|reflexivity].
      apply ahimsa_passes_iff in E as [_ [E|E]]; [|discriminate E].
      exfalso. apply (Qlt_not_le _ _ L). exact E.
    + unfold ahimsaGate. cbv zeta. apply ltb_true in L. rewrite L.
      destruct (includes FORBIDDEN_TYPES _); [reflexivity|].
      now destruct (JS.truthy (equity_flag body)).
Qed.

(** X14.  [POST /api/v1/drug_discovery_ingest] passes the gates exactly
    when the consent record id is the one derived from the cohort, the
    scope (by default [drug_discovery_integration]) and the clinician,
    and that scope is a validated one; no other gate can block on this
    route, and every request that passes scores 0.848. *)
Theorem drug_discovery_route_conditions (now : string) (body : GateContext) :
  (Verdict.pass (runAllGates now (drug_discovery_ingest_ctx (Some body))) = true
   <-> (exists id, consent_record_id body = Some id
                   /\ Consent.generateConsentRecordId
                        (cohort body)
                        (nullish (scope body) "drug_discovery_integration")
                        (clinician_id body) = Ok id)
       /\ (exists s, nullish (scope body) "drug_discovery_integration" = Some s
                     /\ In s VALIDATED_SCOPES))
  /\ pass (ahimsaGate (drug_discovery_ingest_ctx (Some body))) = true
  /\ pass (satyaGate (drug_discovery_ingest_ctx (Some body))) = true
  /\ pass (aparigrahaGate (drug_discovery_ingest_ctx (Some body))) = true
  /\ (Verdict.pass (runAllGates now (drug_discovery_ingest_ctx (Some body))) = true ->
      Verdict.constitutional_score
        (runAllGates now (drug_discovery_ingest_ctx (Some body))) == 0.848).
Proof.
  split; [|split; [|split; [|split]]]; try reflexivity.
  - rewrite run_passes_iff. unfold drug_discovery_ingest_ctx.
    cbn [dflt equity_flag population_size patient_facing assessment_type confidence
         data_quality model_version consent_record_id cohort scope clinician_id
         regulatory_jurisdiction model_count dissent_flag JS.truthy].
    assert (F : includes FORBIDDEN_TYPES "population_mortality" = false) by reflexivity.
    assert (Q1 : 0 <= 10000) by discriminate.
    assert (Q2 : 0.60 <= 0.80) by discriminate.
    assert (Q3 : 0.80 <= 1) by discriminate.
    assert (Q4 : 2 <= 2) by discriminate.
    assert (D1 : "good" <> "unknown") by discriminate.
    assert (D2 : "good" <> "poor") by discriminate.
    intuition.
  - intros H. apply all_pass_of_run in H as [T B].
    apply asteya_pass_value in T. apply brahmacharya_pass_value in B.
    unfold runAllGates. cbv zeta.
    cbn [Verdict.constitutional_score ahimsa satya asteya brahmacharya aparigraha].
    rewrite T, B. reflexivity.
Qed.

Lemma max_zero_range (s : Q) :
  (0.60 <= Math_max 0 (1 - s) /\ Math_max 0 (1 - s) <= 1) <-> (0 <= s /\ s <= 0.4).
Proof.
  unfold Math_max. destruct (Num.leb 0 (1 - s)) eqn:E.
  - apply leb_true in E. split; intros [A B]; split; lra.
  - apply leb_false in E. split; intros [A B]; split; lra.
Qed.

(** X15.  [POST /api/v1/dr_bot_ingest] derives the confidence from the
    adversarial score as [max(0, 1 - score)], or 0.70 without one; so the
    route passes the gates exactly when the score is absent or lies in
    [0, 0.4], the consent record id is the derived one, and the scope (by
    default [dr_bot_integration]) is validated.  A negative score gives a
    confidence above 1, which blocks. *)
Theorem dr_bot_route_conditions (now : string) (body : DrBotBody) :
  (Verdict.pass (runAllGates now (dr_bot_ingest_ctx (Some body))) = true
   <-> match adversarial_score body with
       | Some s => 0 <= s /\ s <= 0.4
       | None => True
       end
       /\ (exists id, consent_record_id (gate_properties body) = Some id
                      /\ Consent.generateConsentRecordId
                           (cohort (gate_properties body))
                           (nullish (scope (gate_properties body)) "dr_bot_integration")
                           (clinician_id (gate_properties body)) = Ok id)
       /\ (exists s, nullish (scope (gate_properties body)) "dr_bot_integration" = Some s
                     /\ In s VALIDATED_SCOPES))
  /\ pass (ahimsaGate (dr_bot_ingest_ctx (Some body))) = true
  /\ aparigrahaGate (dr_bot_ingest_ctx (Some body))
     = {| pass := true; score := 0.80; reason := "APARIGRAHA_PASS" |}
  /\ (forall s, adversarial_score body = Some s -> s < 0 ->
        reason (satyaGate (dr_bot_ingest_ctx (Some body)))
        = "SATYA_VIOLATION: confidence must be a number in [0, 1]").
Proof.
  split; [|split; [|split]]; try reflexivity.
  - rewrite run_passes_iff. unfold dr_bot_ingest_ctx.
    cbn [dflt equity_flag population_size patient_facing assessment_type confidence
         data_quality model_version consent_record_id cohort scope clinician_id
         regulatory_jurisdiction model_count dissent_flag JS.truthy].
    assert (F : includes FORBIDDEN_TYPES "population_mortality" = false) by reflexivity.
    assert (Q1 : 0 <= 10000) by discriminate.
    assert (Q4 : 2 <= 2) by discriminate.
    assert (D1 : "good" <> "unknown") by discriminate.
    assert (D2 : "good" <> "poor") by discriminate.
    destruct (adversarial_score body) as [s|].
    + pose proof (max_zero_range s) as M. intuition.
    + assert (Q2 : 0.60 <= 0.70) by discriminate.
      assert (Q3 : 0.70 <= 1) by discriminate.
      intuition.
  - intros s E L. unfold satyaGate, dr_bot_ingest_ctx. cbv zeta.
    cbn [confidence dflt]. rewrite E.
    assert (M : Num.ltb 1 (Math_max 0 (1 - s)) = true).
    { apply ltb_true. unfold Math_max. destruct (Num.leb 0 (1 - s)) eqn:E1.
      - lra.
      - apply leb_false in E1. lra. }
    rewrite M, orb_true_r. reflexivity.
Qed.

(** X16.  The chained receipt of the two ingest routes is always built:
    its id is the local one; with a parent id found in the request it is
    at depth 1 with that id as parent and as root, and otherwise it is a
    root at depth 0.  It is never deeper, whatever the depth of the
    parent that sent the request. *)
Theorem ingest_receipts_are_one_hop
  (now : Z) (random : string) (req : option Propagation.Request) :
  ddChainedReceipt now random req
  = Ok (match Propagation.extractParentReceipt req with
        | Some id =>
            {| Chain.receipt_id := Some ("KT-AB-DD-" ++ JS.decimal now ++ "-" ++ random);
               Chain.parent_receipt_id := Some id;
               Chain.chain_depth := Some 1%Z;
               Chain.chain_root := Some id |}
        | None =>
            {| Chain.receipt_id := Some ("KT-AB-DD-" ++ JS.decimal now ++ "-" ++ random);
               Chain.parent_receipt_id := None;
               Chain.chain_depth := Some 0%Z;
               Chain.chain_root := Some ("KT-AB-DD-" ++ JS.decimal now ++ "-" ++ random) |}
        end)
  /\ drBotChainedReceipt now random req
     = Ok (match Propagation.extractParentReceipt req with
           | Some id =>
               {| Chain.receipt_id :=
                    Some ("KT-AB-DRBOT-" ++ JS.decimal now ++ "-" ++ random);
                  Chain.parent_receipt_id := Some id;
                  Chain.chain_depth := Some 1%Z;
                  Chain.chain_root := Some id |}
           | None =>
               {| Chain.receipt_id :=
                    Some ("KT-AB-DRBOT-" ++ JS.decimal now ++ "-" ++ random);
                  Chain.parent_receipt_id := None;
                  Chain.chain_depth := Some 0%Z;
                  Chain.chain_root :=
                    Some ("KT-AB-DRBOT-" ++ JS.decimal now ++ "-" ++ random) |}
           end).
Proof.
  split; [unfold ddChainedReceipt | unfold drBotChainedReceipt]; cbv zeta;
    apply link_extracted.
Qed.

End RouteProperties.

(* ================================================================== *)
(** * Further properties of the transport seal *)

Section BlankStrings.

Lemma chars_rev_string (s acc : string) :
  list_ascii_of_string (JS.rev_string s acc)
  = (rev (list_ascii_of_string s) ++ list_ascii_of_string acc)%list.
Proof.
  revert acc. induction s as [|c s IH]; intros acc; [reflexivity|].
  cbn [JS.rev_string list_ascii_of_string rev]. rewrite IH.
  cbn [list_ascii_of_string]. now rewrite <- app_assoc.
Qed.

Lemma trimStart_empty (t : string) :
  JS.trimStart t = "" -> forallb JS.is_space (list_ascii_of_string t) = true.
Proof.
  induction t as [|c t IH]; [reflexivity|]. cbn [JS.trimStart list_ascii_of_string forallb].
  destruct (JS.is_space c); [exact IH | discriminate].
Qed.

(** A string that starts with a character other than white space is not
    blank. *)
Lemma trim_nonblank (c : ascii) (r : string) :
  JS.is_space c = false -> JS.trim (String c r) <> "".
Proof.
  intros Hc E. unfold JS.trim in E. cbn [JS.trimStart] in E. rewrite Hc in E.
  unfold JS.trimEnd in E.
  apply (f_equal list_ascii_of_string) in E. rewrite chars_rev_string in E.
  cbn [list_ascii_of_string] in E. rewrite app_nil_r in E.
  apply (f_equal (@rev ascii)) in E. rewrite rev_involutive in E. cbn [rev] in E.
  assert (T : JS.trimStart (JS.rev_string (String c r) "") = "").
  { rewrite <- (string_of_list_ascii_of_string (JS.trimStart _)). now rewrite E. }
  apply trimStart_empty in T. rewrite chars_rev_string in T.
  cbn [list_ascii_of_string rev] in T. rewrite app_nil_r in T.
  rewrite forallb_app in T. apply andb_true_iff in T as [_ T].
  cbn [forallb] in T. rewrite Hc in T. discriminate.
Qed.

Lemma length_hex_of_bytes (bs : list Z) :
  String.length (JS.hex_of_bytes bs) = (2 * List.length bs)%nat.
Proof.
  induction bs as [|b bs IH]; [reflexivity|].
  cbn [JS.hex_of_bytes List.length]. rewrite length_app_s, length_hex_fixed, IH. lia.
Qed.

Lemma all_hex_of_bytes (bs : list Z) : JS.all_hex (JS.hex_of_bytes bs) = true.
Proof.
  induction bs as [|b bs IH]; [reflexivity|].
  cbn [JS.hex_of_bytes]. now rewrite all_hex_app, all_hex_fixed, IH.
Qed.

End BlankStrings.

Section TransportInvariants.
Import Kaitiaki Verifier.
Local Open Scope Z_scope.

Variable PUBLIC_KEY : string.
Variable secretKey : list Z.
Variable sign_detached : list Z -> list Z -> result (list Z).
Variable JSON_stringify : jsval -> result (option string).
Variable toISOString : Z -> string.

Local Abbreviation seal :=
  (sealTransport PUBLIC_KEY secretKey sign_detached JSON_stringify toISOString).
Local Abbreviation seals :=
  (seal_all PUBLIC_KEY secretKey sign_detached JSON_stringify toISOString).
Local Abbreviation wrap :=
  (kaitiakiWrapResponse PUBLIC_KEY secretKey sign_detached JSON_stringify toISOString).
Local Abbreviation json :=
  (kaitiakiJson PUBLIC_KEY secretKey sign_detached JSON_stringify toISOString).

(** A seal that returns on a valid state. *)
Lemma seal_inversion st env payload domain r st' :
  valid_state st ->
  seal st env payload domain = Ok (r, st') ->
  exists text sg,
    JSON_stringify payload = Ok (Some text)
    /\ sign_detached
         (JS.bytes_of_hex
            (SHA256.sha256 (SHA256.sha256 text
                            ++ SHA256.sha256 (domain ++ "|" ++ JS.decimal (ts env)))))
         secretKey = Ok sg
    /\ Helix.artifact_hash (helix_of r)
       = SHA256.sha256 (SHA256.sha256 text
                        ++ SHA256.sha256 (domain ++ "|" ++ JS.decimal (ts env)))
    /\ Helix.signature (helix_of r) = JS.hex_of_bytes sg
    /\ Receipt.receipt_id r
       = ("KT-" ++ JS.decimal (ts env) ++ "-" ++ JS.hex_of_bytes (rnd env))%string
    /\ Posc.previous_state (posc_of r) = prevState st
    /\ Posc.state (posc_of r)
       = SHA256.sha256 (Helix.artifact_hash (helix_of r)
                        ++ mixing_reference (prevPrevState st) (prevState st))
    /\ Posc.genesis_hash (posc_of r) = GENESIS_HASH PUBLIC_KEY
    /\ consistent r
    /\ prevState st' = Posc.state (posc_of r)
    /\ prevPrevState st' = prevState st
    /\ valid_state st'.
Proof.
  intros [V1 V2]. unfold sealTransport.
  destruct (JSON_stringify payload) as [[text|]|]; cbn [bind sha256_of];
    try discriminate.
  destruct (sign_detached _ secretKey) as [sg|] eqn:Es; cbn [bind]; try discriminate.
  rewrite (arnoldTransform_reference _ _ V2 V1). cbn [bind].
  intros H. injection H as <- <-. exists text, sg.
  split; [reflexivity|]. split; [exact Es|].
  cbn [helix_of posc_of seals_of Receipt.layers helix posc Kaitiaki.seals
       Helix.artifact_hash
       Helix.signature Receipt.receipt_id Posc.previous_state Posc.state
       Posc.genesis_hash prevState prevPrevState].
  repeat (split; [reflexivity|]).
  split; [repeat split|]. repeat (split; [reflexivity|]).
  split; [apply sha256_digest | exact V1].
Qed.

Lemma seal_keeps_valid st env payload domain r st' :
  valid_state st ->
  seal st env payload domain = Ok (r, st') ->
  valid_state st'.
Proof.
  intros V E. destruct (seal_inversion _ _ _ _ _ _ V E) as (text & sg & H).
  apply H.
Qed.

(** X17.  On a valid chain state a seal fails only through its host:
    when the payload does not serialize (a throw or [undefined]) or the
    signer throws on the artifact hash.  The mixer and the parsing of the
    states never fail, and after [res.json], sealed or not, the state is
    valid again. *)
Theorem seal_fails_only_through_host
  (st : ChainState) (env : Env) (payload : jsval) (domain : string) :
  valid_state st ->
  ((exists message, seal st env payload domain = Throw message)
   <-> (exists message, JSON_stringify payload = Throw message)
       \/ JSON_stringify payload = Ok None
       \/ (exists text message,
             JSON_stringify payload = Ok (Some text)
             /\ sign_detached
                  (JS.bytes_of_hex
                     (SHA256.sha256
                        (SHA256.sha256 text
                         ++ SHA256.sha256 (domain ++ "|" ++ JS.decimal (ts env)))))
                  secretKey = Throw message))
  /\ (forall req res, valid_state (chain (json st env req res payload)))
  /\ (forall dom, valid_state (snd (wrap st env payload dom))).
Proof.
  intros V. split; [|split].
  - destruct V as [V1 V2]. unfold sealTransport.
    destruct (JSON_stringify payload) as [[text|]|m] eqn:E; cbn [bind sha256_of].
    + destruct (sign_detached _ secretKey) as [sg|m] eqn:Es; cbn [bind].
      * rewrite (arnoldTransform_reference _ _ V2 V1). cbn [bind]. split.
        -- intros [m H]. discriminate.
        -- intros [[m H]|[H|(t & m & H & S)]]; try discriminate.
           injection H as H. subst t. rewrite Es in S. discriminate.
      * split; [|intros _; now exists m].
        intros _. right. right. exists text, m. now split.
    + split; [intros _; right; now left | intros _; eexists; reflexivity].
    + split; [intros _; left; now exists m | intros _; now exists m].
  - intros req res. unfold kaitiakiJson.
    destruct (seal st env payload (method req ++ " " ++ path req)) as [[r st']|m] eqn:E.
    + pose proof (seal_keeps_valid _ _ _ _ _ _ V E) as H.
      destruct (is_plain_object payload); exact H.
    + exact V.
  - intros dom. unfold kaitiakiWrapResponse.
    destruct (seal st env payload (dflt "cloudflare-worker" dom)) as [[r st']|m] eqn:E.
    + pose proof (seal_keeps_valid _ _ _ _ _ _ V E) as H.
      destruct (is_plain_object payload); exact H.
    + exact V.
Qed.

Lemma last_after {A} (l : list A) (x d : A) : last (x :: l) d = last l x.
Proof.
  revert x d. induction l as [|y l IH]; intros x d; [reflexivity|].
  change (last (x :: y :: l) d) with (last (y :: l) d). now rewrite !IH.
Qed.

(** X18.  The receipts of a run of seals form a hash chain that can be
    checked from the receipts alone: each records the state before it,
    its own state is the hash of its artifact hash and the mix of the two
    states before it, its three layers agree, and it names the genesis
    hash; the run leaves the state of its last receipt. *)
Theorem receipts_form_a_hash_chain
  (calls : list (Env * jsval * string)) :
  forall (st st' : ChainState) (rs : list Receipt.t),
  valid_state st ->
  seals st calls = Ok (rs, st') ->
  entangled (prevPrevState st) (prevState st) rs
  /\ Forall consistent rs
  /\ Forall (fun r => Posc.genesis_hash (posc_of r) = GENESIS_HASH PUBLIC_KEY) rs
  /\ prevState st' = last (map (fun r => Posc.state (posc_of r)) rs) (prevState st)
  /\ List.length rs = List.length calls
  /\ valid_state st'.
Proof.
  induction calls as [|[[env payload] domain] calls IH]; intros st st' rs V E.
  - cbn in E. injection E as <- <-. cbn. repeat split; try constructor; apply V.
  - cbn [seal_all] in E.
    destruct (seal st env payload domain) as [[r st1]|m] eqn:E1; cbn [bind] in E;
      [|discriminate].
    cbn [snd fst] in E.
    destruct (seals st1 calls) as [[rs1 st2]|m] eqn:E2; cbn [bind] in E;
      [|discriminate].
    cbn [snd fst] in E. injection E as <- <-.
    destruct (seal_inversion _ _ _ _ _ _ V E1)
      as (text & sg & _ & _ & _ & _ & _ & P1 & P2 & G & C & S1 & S2 & V1).
    destruct (IH st1 st2 rs1 V1 E2) as (En & Cn & Gn & Ln & Len & V2).
    rewrite S1, S2 in En.
    split; [cbn [entangled]; repeat split; assumption|].
    split; [now constructor|]. split; [now constructor|].
    split; [|split; [cbn [List.length]; now rewrite Len | exact V2]].
    rewrite Ln, S1. cbn [map]. symmetry. apply last_after.
Qed.

Lemma lookup_set_same {A} (k : string) (v : A) (l : list (string * A)) :
  Propagation.lookup k (set_prop k v l) = Some v.
Proof.
  induction l as [|[k' old] l IH]; cbn [set_prop Propagation.lookup].
  - now rewrite String.eqb_refl.
  - destruct (String.eqb k' k) eqn:E; cbn [Propagation.lookup]; rewrite E;
      [reflexivity | exact IH].
Qed.

Lemma lookup_set_other {A} (k k' : string) (v : A) (l : list (string * A)) :
  k' <> k -> Propagation.lookup k' (set_prop k v l) = Propagation.lookup k' l.
Proof.
  intros N. induction l as [|[k0 old] l IH]; cbn [set_prop Propagation.lookup].
  - apply not_eq_sym, String.eqb_neq in N. now rewrite N.
  - destruct (String.eqb k0 k) eqn:E; cbn [Propagation.lookup].
    + apply String.eqb_eq in E. subst k0.
      apply not_eq_sym, String.eqb_neq in N. now rewrite N.
    + destruct (String.eqb k0 k'); [reflexivity | exact IH].
Qed.

Lemma seal_fields st env payload domain r st' :
  seal st env payload domain = Ok (r, st') ->
  Receipt.receipt_id r
  = ("KT-" ++ JS.decimal (ts env) ++ "-" ++ JS.hex_of_bytes (rnd env))%string
  /\ Receipt.public_key r = PUBLIC_KEY
  /\ Receipt.timestamp r = toISOString (ts env)
  /\ position_of r = chainPosition st + 1.
Proof.
  unfold sealTransport.
  destruct (JSON_stringify payload) as [[text|]|]; cbn [bind sha256_of];
    try discriminate.
  destruct (sign_detached _ secretKey); cbn [bind]; try discriminate.
  destruct (arnoldTransform _ _); cbn [bind]; try discriminate.
  intros H. injection H as <- <-. repeat split.
Qed.

(** X19.  When the seal returns, the Express wrapper sets the three
    receipt headers (the id, the position as a decimal, the first 16
    characters of the public key followed by three dots) and leaves every
    other header as it was, logs nothing, and moves the chain on.  A plain
    object goes out with its receipt under [_kaitiaki] and all its other
    properties unchanged; any other body goes out as it is. *)
Theorem sealed_response_carries_receipt
  (st st' : ChainState) (env : Env) (req : Request) (res : Response) (data : jsval)
  (r : Receipt.t) :
  seal st env data (method req ++ " " ++ path req) = Ok (r, st') ->
  chain (json st env req res data) = st'
  /\ console (json st env req res data) = []
  /\ Propagation.lookup "X-Kaitiaki-Receipt-Id"
       (headers (response (json st env req res data)))
     = Some ("KT-" ++ JS.decimal (ts env) ++ "-" ++ JS.hex_of_bytes (rnd env))%string
  /\ Propagation.lookup "X-Kaitiaki-Chain-Position"
       (headers (response (json st env req res data)))
     = Some (JS.decimal (chainPosition st + 1))
  /\ Propagation.lookup "X-Kaitiaki-Public-Key"
       (headers (response (json st env req res data)))
     = Some (JS.slice0 16 PUBLIC_KEY ++ "...")%string
  /\ (forall name,
        name <> "X-Kaitiaki-Receipt-Id" -> name <> "X-Kaitiaki-Chain-Position" ->
        name <> "X-Kaitiaki-Public-Key" ->
        Propagation.lookup name (headers (response (json st env req res data)))
        = Propagation.lookup name (headers res))
  /\ exists body,
       sent (response (json st env req res data)) = (sent res ++ [body])%list
       /\ match data with
          | JObj props =>
              exists props',
                body = JObj props'
                /\ Propagation.lookup "_kaitiaki" props'
                   = Some (compact_value (compactReceipt r))
                /\ forall k, k <> "_kaitiaki" ->
                     Propagation.lookup k props' = Propagation.lookup k props
          | _ => body = data
          end.
Proof.
  intros E. destruct (seal_fields _ _ _ _ _ _ E) as (I & K & _ & Pn).
  unfold position_of in Pn. unfold kaitiakiJson. rewrite E. cbv zeta.
  assert (H : forall b,
            headers (response
              (if is_plain_object data
               then {| response := originalJson (with_kaitiaki data (compactReceipt r)) b;
                       console := []; chain := st' |}
               else {| response := originalJson data b; console := []; chain := st' |}))
            = headers b) by (intros b; now destruct (is_plain_object data)).
  split; [now destruct (is_plain_object data)|].
  split; [now destruct (is_plain_object data)|].
  rewrite !H. unfold setHeader. cbn [headers].
  split; [|split; [|split; [|split]]].
  - rewrite !lookup_set_other by discriminate. rewrite lookup_set_same.
    cbn [compactReceipt Compact.receipt_id]. now rewrite I.
  - rewrite lookup_set_other by discriminate. rewrite lookup_set_same.
    now rewrite Pn.
  - rewrite lookup_set_same. cbn [compactReceipt Compact.public_key]. now rewrite K.
  - intros name N1 N2 N3. now rewrite !lookup_set_other by assumption.
  - destruct data as [| | | | | |props]; cbn [is_plain_object response sent originalJson];
      eexists; (split; [reflexivity|]); try reflexivity.
    cbn [with_kaitiaki]. eexists. split; [reflexivity|].
    split; [apply lookup_set_same | intros k N; now apply lookup_set_other].
Qed.

(** X20.  The two wrappers agree: under the domain that the Express
    wrapper builds from the request, [kaitiakiWrapResponse] returns the
    very body that the Express wrapper hands to the original [res.json],
    and both leave the same chain state. *)
Theorem wrappers_agree
  (st : ChainState) (env : Env) (req : Request) (res : Response) (data : jsval) :
  sent (response (json st env req res data))
  = (sent res ++ [fst (wrap st env data (Some (method req ++ " " ++ path req)%string))])%list
  /\ chain (json st env req res data)
     = snd (wrap st env data (Some (method req ++ " " ++ path req)%string))
  /\ (forall other, is_plain_object data = false ->
        fst (wrap st env data other) = data)
  /\ wrap st env data None = wrap st env data (Some "cloudflare-worker").
Proof.
  unfold kaitiakiJson, kaitiakiWrapResponse. cbn [dflt].
  split; [|split; [|split; [|reflexivity]]].
  - destruct (seal st env data (method req ++ " " ++ path req)) as [[r st']|m];
      [destruct (is_plain_object data)|]; reflexivity.
  - destruct (seal st env data (method req ++ " " ++ path req)) as [[r st']|m];
      [destruct (is_plain_object data)|]; reflexivity.
  - intros other N. destruct (seal st env data (dflt "cloudflare-worker" other))
      as [[r st']|m]; [rewrite N|]; reflexivity.
Qed.

(** X22.  The id of every receipt that a seal issues is [KT-], the
    timestamp in decimal, a dash, and two hexadecimal digits for each
    random byte; it is never blank, so [buildChainHeaders] accepts it and
    [chainReceipt] takes it as a parent at depth 1. *)
Theorem sealed_ids_are_parents
  (st st' : ChainState) (env : Env) (payload : jsval) (domain own : string)
  (r : Receipt.t) :
  seal st env payload domain = Ok (r, st') ->
  Receipt.receipt_id r
  = ("KT-" ++ JS.decimal (ts env) ++ "-" ++ JS.hex_of_bytes (rnd env))%string
  /\ String.length (JS.hex_of_bytes (rnd env)) = (2 * List.length (rnd env))%nat
  /\ JS.all_hex (JS.hex_of_bytes (rnd env)) = true
  /\ Propagation.buildChainHeaders (JStr (Receipt.receipt_id r))
     = Ok [("X-Kaitiaki-Parent-Receipt", Receipt.receipt_id r)]
  /\ Chain.chainReceipt (Some (Propagation.fresh own))
       (Chain.ParentId (Receipt.receipt_id r))
     = Ok {| Chain.receipt_id := Some own;
             Chain.parent_receipt_id := Some (Receipt.receipt_id r);
             Chain.chain_depth := Some 1;
             Chain.chain_root := Some (Receipt.receipt_id r) |}.
Proof.
  intros E. destruct (seal_fields _ _ _ _ _ _ E) as (I & _).
  assert (N : JS.trim (Receipt.receipt_id r) <> "").
  { rewrite I. cbn [append]. now apply trim_nonblank. }
  split; [exact I|]. split; [|split; [|split]].
  - apply length_hex_of_bytes.
  - apply all_hex_of_bytes.
  - now apply build_ok.
  - now apply link_to_id.
Qed.

End TransportInvariants.

Section MixerReach.
Import Kaitiaki.
Local Open Scope Z_scope.

Lemma hex_parse_bound (s : string) :
  forall acc v,
  0 <= acc -> JS.hex_parse s acc = Some v ->
  acc * 16 ^ Z.of_nat (String.length s) <= v
  < (acc + 1) * 16 ^ Z.of_nat (String.length s).
Proof.
  induction s as [|c s IH]; intros acc v Hacc H.
  - cbn in H. injection H as <-. cbn. lia.
  - cbn [JS.hex_parse] in H. destruct (JS.hex_value c) as [d|] eqn:E; [|discriminate].
    apply hex_value_range in E.
    specialize (IH (16 * acc + d) v ltac:(lia) H).
    cbn [String.length]. rewrite Nat2Z.inj_succ, Z.pow_succ_r by lia.
    assert (Hp : 0 < 16 ^ Z.of_nat (String.length s)) by (apply Z.pow_pos_nonneg; lia).
    nia.
Qed.

Lemma length_slice0_le (n : nat) (s : string) :
  (String.length (JS.slice0 n s) <= n)%nat.
Proof.
  revert s. induction n as [|n IH]; intros [|c s]; cbn; try lia.
  specialize (IH s). lia.
Qed.

Lemma hexToBigInt_range (h : string) (a : Z) :
  hexToBigInt h = Ok a -> 0 <= a < 2 ^ 64.
Proof.
  unfold hexToBigInt, JS.BigInt_hex.
  destruct (JS.slice0 16 h) as [|c s] eqn:E; [discriminate|]. rewrite <- E.
  destruct (JS.hex_parse (JS.slice0 16 h) 0) as [v|] eqn:Hv; [|discriminate].
  intros [= <-]. pose proof (hex_parse_bound _ _ _ (Z.le_refl 0) Hv) as B.
  pose proof (length_slice0_le 16 h) as L.
  assert (M : 16 ^ Z.of_nat (String.length (JS.slice0 16 h)) <= 16 ^ 16)
    by (apply Z.pow_le_mono_r; lia).
  change (2 ^ 64) with (16 ^ 16). lia.
Qed.

(** X21.  The mixer reads only the first 16 hexadecimal digits of each
    state, so 64 of its 256 bits; the two values it combines are below
    [2^64], their combinations below [2^66], and the reduction modulo [P]
    never changes them.  It throws exactly when one of the two prefixes
    is not a number. *)
Theorem mixer_reads_64_bits (aHash bHash : string) :
  (forall aHash' bHash',
     JS.slice0 16 aHash' = JS.slice0 16 aHash ->
     JS.slice0 16 bHash' = JS.slice0 16 bHash ->
     arnoldTransform aHash' bHash' = arnoldTransform aHash bHash)
  /\ (forall a b,
        hexToBigInt aHash = Ok a -> hexToBigInt bHash = Ok b ->
        0 <= a < 2 ^ 64 /\ 0 <= b < 2 ^ 64
        /\ (2 * a + b) mod P = 2 * a + b /\ (a + b) mod P = a + b
        /\ 2 * a + b < 2 ^ 66
        /\ arnoldTransform aHash bHash
           = Ok (SHA256.sha256_bytes
                   (JS.bytes_of_hex
                      (JS.padStart0 32 (JS.toString16 (2 * a + b))
                       ++ JS.padStart0 32 (JS.toString16 (a + b))))))
  /\ ((exists message, arnoldTransform aHash bHash = Throw message)
      <-> (exists message, hexToBigInt aHash = Throw message)
          \/ (exists message, hexToBigInt bHash = Throw message)).
Proof.
  split; [|split].
  - intros aHash' bHash' Ea Eb. unfold arnoldTransform, hexToBigInt.
    now rewrite Ea, Eb.
  - intros a b Ha Hb.
    pose proof (hexToBigInt_range _ _ Ha) as Ra.
    pose proof (hexToBigInt_range _ _ Hb) as Rb.
    assert (HP : 3 * 2 ^ 64 < P) by reflexivity.
    assert (X : (2 * a + b) mod P = 2 * a + b) by (apply Z.mod_small; lia).
    assert (Y : (a + b) mod P = a + b) by (apply Z.mod_small; lia).
    split; [exact Ra|]. split; [exact Rb|]. split; [exact X|]. split; [exact Y|].
    split; [change (2 ^ 66) with (4 * 2 ^ 64); lia|].
    unfold arnoldTransform. rewrite Ha, Hb. cbn [bind]. cbv zeta. now rewrite X, Y.
  - unfold arnoldTransform.
    destruct (hexToBigInt aHash) as [a|ma]; cbn [bind].
    + destruct (hexToBigInt bHash) as [b|mb]; cbn [bind].
      * split; [intros [m H]; discriminate |].
        intros [[m H]|[m H]]; discriminate.
      * split; [intros _; right; now exists mb | intros _; now exists mb].
    + split; [intros _; left; now exists ma | intros _; now exists ma].
Qed.

End MixerReach.

(* ================================================================== *)
(** * The explanations of the advisor *)

Section ExplainerProperties.
Import Gates.
Local Open Scope Q_scope.

Variable Number_toString : Q -> string.

Local Abbreviation simulate := (Explainer.simulate Number_toString).
Local Abbreviation forbidden_type := (Explainer.forbidden_type).
Local Abbreviation equity_missing := (Explainer.equity_missing Number_toString).
Local Abbreviation low_confidence := (Explainer.low_confidence Number_toString).

Lemma push_eq (c : bool) (m : string) (l : list string) :
  Explainer.push c m l = (l ++ (if c then [m] else []))%list.
Proof. destruct c; cbn; [reflexivity | now rewrite app_nil_r]. Qed.

Lemma ltb_compat (x y y' : Q) : y == y' -> Num.ltb x y = Num.ltb x y'.
Proof.
  intros E. destruct (Num.ltb x y') eqn:L.
  - apply ltb_true. apply ltb_true in L. now rewrite E.
  - apply ltb_false. apply ltb_false in L. now rewrite E.
Qed.

Lemma ltb_compat_l (x x' y : Q) : x == x' -> Num.ltb x y = Num.ltb x' y.
Proof.
  intros E. destruct (Num.ltb x' y) eqn:L.
  - apply ltb_true. apply ltb_true in L. now rewrite E.
  - apply ltb_false. apply ltb_false in L. now rewrite E.
Qed.

(** [x || 0] is [x] with 0 for [undefined]. *)
Lemma or_num_zero (x : option Q) : Explainer.or_num x 0 == dflt 0 x.
Proof.
  destruct x as [q|]; cbn; [|reflexivity].
  destruct (Qeq_bool q 0) eqn:E; [|reflexivity].
  apply Qeq_bool_iff in E. now rewrite E.
Qed.

Lemma includes_option (xs : list string) (x : option string) :
  Gates.includes xs "" = false ->
  Explainer.includes xs x = Gates.includes xs (dflt "" x).
Proof. intros H. destruct x; cbn; [reflexivity | now rewrite H]. Qed.

(** What the last block of [explainGates] adds on the verdict of
    [aparigrahaGate]. *)
Lemma aparigraha_explained (ctx : GateContext) (l : list string) :
  (if Num.ltb (Explainer.or_num (option_map score (Some (aparigrahaGate ctx))) 1) 0.75
   then
     if Num.ltb (Explainer.or_num (model_count ctx) 1) 2
        && negb (dflt false (dissent_flag ctx))
     then Explainer.push true Explainer.single_model l
     else Explainer.push (negb (dflt false (dissent_flag ctx))) Explainer.no_dissent l
   else l)
  = (l ++ (if pass (aparigrahaGate ctx)
              && negb (Num.leb 3 (dflt 1 (model_count ctx)))
              && negb (dflt false (dissent_flag ctx))
           then [Explainer.no_dissent] else []))%list.
Proof.
  unfold aparigrahaGate. cbv zeta.
  destruct (Num.ltb (dflt 1 (model_count ctx)) 2) eqn:L2;
    destruct (dflt false (dissent_flag ctx)) eqn:D;
    destruct (Num.leb 3 (dflt 1 (model_count ctx))) eqn:L3;
    cbn [andb negb pass score option_map Explainer.or_num];
    try (cbn; now rewrite app_nil_r).
  assert (M : Num.ltb (Explainer.or_num (model_count ctx) 1) 2 = false).
  { apply ltb_false in L2. apply ltb_false.
    destruct (model_count ctx) as [q|]; cbn [dflt Explainer.or_num] in *.
    - destruct (Qeq_bool q 0) eqn:E; [|exact L2].
      apply Qeq_bool_iff in E. lra.
    - lra. }
  change (Qeq_bool 0.72 0) with false. cbv iota.
  change (Num.ltb 0.72 0.75) with true. cbv iota.
  rewrite M. cbn [andb]. reflexivity.
Qed.

(** The explanations of a simulation, block by block. *)
Lemma simulate_blocks (now : string) (ctx : GateContext) :
  simulate now ctx
  = ((if negb (pass (ahimsaGate ctx))
      then (if Gates.includes FORBIDDEN_TYPES (dflt "" (assessment_type ctx))
            then [forbidden_type ctx] else [])
           ++ (if Num.ltb 10000 (dflt 0 (population_size ctx))
                  && negb (JS.truthy (equity_flag ctx))
               then [equity_missing ctx] else [])
      else if dflt false (patient_facing ctx) then [Explainer.patient_facing] else [])
     ++ (if negb (pass (satyaGate ctx))
         then (if Num.ltb (dflt 0 (confidence ctx)) 0.60
               then [low_confidence ctx] else [])
              ++ (if negb (JS.truthy (model_version ctx))
                  then [Explainer.no_model_version] else [])
              ++ (if negb (Explainer.includes ["good"; "high"; "excellent"]
                             (data_quality ctx))
                  then [Explainer.poor_data ctx] else [])
         else [])
     ++ (if negb (pass (asteyaGate ctx))
         then [if negb (JS.truthy (consent_record_id ctx))
               then Explainer.no_consent else Explainer.invalid_consent]
         else [])
     ++ (if negb (pass (brahmaacharyaGate ctx))
         then [Explainer.invalid_scope ctx]
         else if negb (JS.truthy (regulatory_jurisdiction ctx))
              then [Explainer.no_jurisdiction] else [])
     ++ (if pass (aparigrahaGate ctx)
            && negb (Num.leb 3 (dflt 1 (model_count ctx)))
            && negb (dflt false (dissent_flag ctx))
         then [Explainer.no_dissent] else []))%list.
Proof.
  unfold Explainer.simulate, Explainer.explainGates, Explainer.flatGates, runAllGates.
  cbv zeta.
  cbn [Verdict.yamas ahimsa satya asteya brahmacharya aparigraha
       Explainer.ahimsa Explainer.satya Explainer.asteya Explainer.brahmacharya
       Explainer.aparigraha Explainer.fails].
  rewrite aparigraha_explained.
  rewrite (ltb_compat 10000 _ _ (or_num_zero (population_size ctx))).
  rewrite (ltb_compat_l _ _ 0.60 (or_num_zero (confidence ctx))).
  rewrite (includes_option Explainer.FORBIDDEN_TYPES (assessment_type ctx) eq_refl).
  change Explainer.FORBIDDEN_TYPES with FORBIDDEN_TYPES.
  destruct (negb (pass (ahimsaGate ctx))), (negb (pass (satyaGate ctx))),
    (negb (pass (asteyaGate ctx))), (negb (pass (brahmaacharyaGate ctx))),
    (negb (JS.truthy (consent_record_id ctx)));
    rewrite ?push_eq; cbn [app]; rewrite <- ?app_assoc, ?app_nil_r; reflexivity.
Qed.

(** Membership in the explanations, case by case. *)
Ltac explained H :=
  repeat match type of H with
         | In _ (_ ++ _) => apply in_app_or in H; destruct H as [H|H]
         | In _ (if ?c then _ else _) => let E := fresh "E" in destruct c eqn:E
         | In _ [] => destruct H
         | In _ (_ :: _) => destruct H as [H|H]
         | (if ?c then _ else _) = _ => let E := fresh "E" in destruct c eqn:E
         end.

(** Two of the twelve messages differ within their first sixteen
    characters, whatever the context. *)
Ltac differ H :=
  unfold Explainer.forbidden_type, Explainer.equity_missing, Explainer.patient_facing,
    Explainer.low_confidence, Explainer.no_model_version, Explainer.poor_data,
    Explainer.no_consent, Explainer.invalid_consent, Explainer.invalid_scope,
    Explainer.no_jurisdiction, Explainer.single_model, Explainer.no_dissent in H;
  cbn [append] in H; discriminate H.

Lemma never_single_model (now : string) (ctx : GateContext) :
  ~ In Explainer.single_model (simulate now ctx).
Proof.
  rewrite simulate_blocks. intros H. explained H; differ H.
Qed.

Lemma no_dissent_iff (now : string) (ctx : GateContext) :
  In Explainer.no_dissent (simulate now ctx)
  <-> pass (aparigrahaGate ctx)
      && negb (Num.leb 3 (dflt 1 (model_count ctx)))
      && negb (dflt false (dissent_flag ctx)) = true.
Proof.
  rewrite simulate_blocks. split.
  - intros H. explained H; try differ H; reflexivity.
  - intros H. rewrite H. rewrite !in_app_iff. do 4 right. now left.
Qed.

(** X23.  On the verdicts of [runAllGates] the advisor never gives the
    single-model warning: a blocked gate scores 0, which [|| 1] turns
    into 1.  The only thing said about aparigraha is the dissent note, on
    a gate that has passed with two models and no dissent; so a request
    that aparigraha alone blocks fails with notes at most, and with no
    explanation at all when it states a jurisdiction and is not
    patient-facing. *)
Theorem single_model_warning_is_unreachable (now : string) (ctx : GateContext) :
  ~ In Explainer.single_model (simulate now ctx)
  /\ (In Explainer.no_dissent (simulate now ctx)
      <-> 2 <= dflt 1 (model_count ctx) /\ dflt 1 (model_count ctx) < 3
          /\ dflt false (dissent_flag ctx) = false)
  /\ (pass (aparigrahaGate ctx) = false ->
      Verdict.pass (runAllGates now ctx) = false
      /\ ~ In Explainer.no_dissent (simulate now ctx)
      /\ (pass (ahimsaGate ctx) = true -> pass (satyaGate ctx) = true ->
          pass (asteyaGate ctx) = true -> pass (brahmaacharyaGate ctx) = true ->
          simulate now ctx
          = ((if dflt false (patient_facing ctx) then [Explainer.patient_facing] else [])
             ++ (if negb (JS.truthy (regulatory_jurisdiction ctx))
                 then [Explainer.no_jurisdiction] else []))%list)).
Proof.
  split; [apply never_single_model|]. split.
  - rewrite no_dissent_iff, !andb_true_iff, !negb_true_iff, aparigraha_passes_iff.
    rewrite leb_false. split.
    + intros [[[A|A] B] C]; [|congruence]. now repeat split.
    + intros (A & B & C). repeat split; try assumption. now left.
  - intros P. split; [|split].
    + destruct (Verdict.pass (runAllGates now ctx)) eqn:E; [|reflexivity].
      apply pass_iff_unblocked, blocked_by_empty_iff in E. unfold all_pass in E.
      rewrite P in E. now rewrite !andb_false_r in E.
    + rewrite no_dissent_iff, P. discriminate.
    + intros A S T B. rewrite simulate_blocks, A, S, T, B, P. cbn [negb andb app].
      now rewrite !app_nil_r.
Qed.

Lemma poor_data_iff (now : string) (ctx : GateContext) :
  In (Explainer.poor_data ctx) (simulate now ctx)
  <-> pass (satyaGate ctx) = false
      /\ Explainer.includes ["good"; "high"; "excellent"] (data_quality ctx) = false.
Proof.
  rewrite simulate_blocks. split.
  - intros H. explained H; try differ H.
    all: split; [now apply negb_true_iff | now apply negb_true_iff].
  - intros [S D]. rewrite S, D. cbn [negb]. rewrite !in_app_iff.
    right. left. right. right. now left.
Qed.

(** X24.  A block by ahimsa, asteya or brahmacharya is always explained,
    and a block by satya is explained whenever the confidence is at most
    1; a confidence above 1, with a model version and a data quality of
    [good], [high] or [excellent], blocks without any explanation of
    satya.  The data-quality warning is given, on a satya block, for
    every quality other than those three, which is more than the gate
    itself refuses. *)
Theorem blocks_and_their_explanations (now : string) (ctx : GateContext) :
  (pass (ahimsaGate ctx) = false ->
   In (forbidden_type ctx) (simulate now ctx)
   \/ In (equity_missing ctx) (simulate now ctx))
  /\ (pass (asteyaGate ctx) = false ->
      In (if JS.truthy (consent_record_id ctx)
          then Explainer.invalid_consent else Explainer.no_consent) (simulate now ctx))
  /\ (pass (brahmaacharyaGate ctx) = false ->
      In (Explainer.invalid_scope ctx) (simulate now ctx))
  /\ (pass (satyaGate ctx) = false -> dflt 0 (confidence ctx) <= 1 ->
      In (low_confidence ctx) (simulate now ctx)
      \/ In Explainer.no_model_version (simulate now ctx)
      \/ In (Explainer.poor_data ctx) (simulate now ctx))
  /\ (1 < dflt 0 (confidence ctx) -> JS.truthy (model_version ctx) = true ->
      Explainer.includes ["good"; "high"; "excellent"] (data_quality ctx) = true ->
      pass (satyaGate ctx) = false
      /\ ~ In (low_confidence ctx) (simulate now ctx)
      /\ ~ In Explainer.no_model_version (simulate now ctx)
      /\ ~ In (Explainer.poor_data ctx) (simulate now ctx))
  /\ (In (Explainer.poor_data ctx) (simulate now ctx)
      <-> pass (satyaGate ctx) = false
          /\ Explainer.includes ["good"; "high"; "excellent"] (data_quality ctx) = false).
Proof.
  split; [|split; [|split; [|split; [|split]]]].
  - intros P. rewrite simulate_blocks, P. cbn [negb]. rewrite !in_app_iff.
    revert P. unfold ahimsaGate. cbv zeta.
    destruct (Gates.includes FORBIDDEN_TYPES (dflt "" (assessment_type ctx)));
      [intros _; left; left; left; now left|].
    destruct (Num.ltb 10000 (dflt 0 (population_size ctx))
              && negb (JS.truthy (equity_flag ctx)));
      [intros _; right; left; right; now left | discriminate].
  - intros P. rewrite simulate_blocks, P. cbn [negb]. rewrite !in_app_iff.
    right. right. left. destruct (JS.truthy (consent_record_id ctx)); now left.
  - intros P. rewrite simulate_blocks, P. cbn [negb]. rewrite !in_app_iff.
    do 3 right. left. now left.
  - intros P C. rewrite simulate_blocks, P. cbn [negb]. rewrite !in_app_iff.
    revert P. unfold satyaGate. cbv zeta.
    destruct (Num.ltb (dflt 0 (confidence ctx)) 0) eqn:L0.
    { intros _. left. right. left. left.
      apply ltb_true in L0.
      assert (L : Num.ltb (dflt 0 (confidence ctx)) 0.60 = true) by (apply ltb_true; lra).
      rewrite L. now left. }
    destruct (Num.ltb 1 (dflt 0 (confidence ctx))) eqn:L1.
    { apply ltb_true in L1. exfalso. now apply (Qlt_not_le _ _ L1). }
    cbn [orb].
    destruct (Num.ltb (dflt 0 (confidence ctx)) 0.60);
      [intros _; left; right; left; left; now left|].
    destruct (data_quality ctx) as [q|]; cbn [dflt Explainer.includes].
    + destruct (String.eqb q "unknown") eqn:E1.
      { apply String.eqb_eq in E1. subst q. intros _. right. right. right. left.
        right. right. now left. }
      destruct (String.eqb q "poor") eqn:E2.
      { apply String.eqb_eq in E2. subst q. intros _. right. right. right. left.
        right. right. now left. }
      cbn [orb]. destruct (negb (JS.truthy (model_version ctx)));
        [intros _; right; left; right; left; right; left; now left | discriminate].
    + intros _. right. right. right. left. right. right. now left.
  - intros C M D.
    assert (P : pass (satyaGate ctx) = false).
    { unfold satyaGate. cbv zeta. apply ltb_true in C. rewrite C, orb_true_r.
      reflexivity. }
    split; [exact P|].
    assert (L : Num.ltb (dflt 0 (confidence ctx)) 0.60 = false)
      by (apply ltb_false; lra).
    rewrite simulate_blocks, P, L, M, D. cbn [negb app].
    repeat split; intros H; explained H; differ H.
  - apply poor_data_iff.
Qed.

(** X25.  A request that passes every gate is told notes only: the
    patient-facing note, the jurisdiction note and the dissent note, each
    when it applies, in this order, and nothing else. *)
Theorem passing_requests_get_notes_only (now : string) (ctx : GateContext) :
  Verdict.pass (runAllGates now ctx) = true ->
  simulate now ctx
  = ((if dflt false (patient_facing ctx) then [Explainer.patient_facing] else [])
     ++ (if negb (JS.truthy (regulatory_jurisdiction ctx))
         then [Explainer.no_jurisdiction] else [])
     ++ (if negb (Num.leb 3 (dflt 1 (model_count ctx)))
            && negb (dflt false (dissent_flag ctx))
         then [Explainer.no_dissent] else []))%list
  /\ Forall (fun e => JS.startsWith "NOTE: " e = true) (simulate now ctx).
Proof.
  intros E. apply pass_iff_unblocked, blocked_by_empty_iff in E. unfold all_pass in E.
  rewrite !andb_true_iff in E. destruct E as ((((A & S) & T) & B) & P).
  assert (X : simulate now ctx
              = ((if dflt false (patient_facing ctx)
                  then [Explainer.patient_facing] else [])
                 ++ (if negb (JS.truthy (regulatory_jurisdiction ctx))
                     then [Explainer.no_jurisdiction] else [])
                 ++ (if negb (Num.leb 3 (dflt 1 (model_count ctx)))
                        && negb (dflt false (dissent_flag ctx))
                     then [Explainer.no_dissent] else []))%list).
  { rewrite simulate_blocks, A, S, T, B, P. cbn [negb andb app]. reflexivity. }
  split; [exact X|]. rewrite X.
  destruct (dflt false (patient_facing ctx)),
    (negb (JS.truthy (regulatory_jurisdiction ctx))),
    (negb (Num.leb 3 (dflt 1 (model_count ctx))) && negb (dflt false (dissent_flag ctx)));
    cbn [app]; repeat constructor.
Qed.

End ExplainerProperties.

(* ================================================================== *)
(** * Worked instances *)

(** A receipt id sent on, read back downstream. *)
Lemma chain_headers_round_trip_witness :
  exists sent,
    Propagation.buildChainHeaders (Kaitiaki.JStr "KT-1771891200000-abcd") = Ok sent
    /\ Propagation.extractParentReceipt
         (Some {| Propagation.body := Kaitiaki.JUndefined;
                  Propagation.headers := Propagation.received sent |})
       = Some "KT-1771891200000-abcd".
Proof.
  destruct (chain_headers_round_trip "KT-1771891200000-abcd" Kaitiaki.JUndefined)
    as (sent & B & E & _).
  - vm_compute. discriminate.
  - intros s. discriminate.
  - exists sent. now split.
Defined.

(** Three receipts linked in one process: depths 0, 1, 2 and one root. *)
Lemma full_parent_chain_counts_hops_witness :
  exists rs,
    Propagation.link_all Chain.NoParent ["KT-1-0a0a"; "KT-2-0b0b"; "KT-3-0c0c"] = Ok rs
    /\ map Chain.chain_depth rs = [Some 0; Some 1; Some 2]%Z
    /\ map Chain.chain_root rs = [Some "KT-1-0a0a"; Some "KT-1-0a0a"; Some "KT-1-0a0a"].
Proof.
  destruct (full_parent_chain_counts_hops "KT-1-0a0a" ["KT-2-0b0b"; "KT-3-0c0c"])
    as (rs & E & _ & _).
  - discriminate.
  - repeat constructor; discriminate.
  - exists rs. split; [exact E|]. vm_compute in E. injection E as <-. now split.
Defined.

(** The same three receipts relayed between services: depths 0, 1, 1,
    and the third names the second as root. *)
Lemma relayed_chain_forgets_origin_witness :
  exists rs,
    Propagation.relay_all None ["KT-1-0a0a"; "KT-2-0b0b"; "KT-3-0c0c"] = Ok rs
    /\ map Chain.chain_depth rs = [Some 0; Some 1; Some 1]%Z
    /\ map Chain.chain_root rs = [Some "KT-1-0a0a"; Some "KT-1-0a0a"; Some "KT-2-0b0b"].
Proof.
  destruct (relayed_chain_forgets_origin "KT-1-0a0a" ["KT-2-0b0b"; "KT-3-0c0c"])
    as (rs & E & _ & _).
  - vm_compute. discriminate.
  - repeat constructor; vm_compute; discriminate.
  - exists rs. split; [exact E|]. vm_compute in E. injection E as <-. now split.
Defined.

(** On a fresh chain, the health body seals: the stand-in host neither
    fails to serialize it nor to sign. *)
Lemma seal_fails_only_through_host_witness :
  ~ exists message,
      Kaitiaki.sealTransport Examples.PUBLIC_KEY Examples.secretKey
        Examples.sign_detached Scenarios.JSON_stringify Examples.toISOString
        (Kaitiaki.initial Examples.PUBLIC_KEY) Scenarios.first_call
        Scenarios.health_body "GET /api/health" = Throw message.
Proof.
  intros H.
  apply (proj1 (seal_fails_only_through_host Examples.PUBLIC_KEY Examples.secretKey
                  Examples.sign_detached Scenarios.JSON_stringify Examples.toISOString
                  (Kaitiaki.initial Examples.PUBLIC_KEY) Scenarios.first_call
                  Scenarios.health_body "GET /api/health"
                  ltac:(split; vm_compute; reflexivity))) in H.
  destruct H as [[m H]|[H|(t & m & _ & H)]]; discriminate H.
Defined.

(** Three seals from a fresh chain: the receipts are entangled from the
    genesis hash on. *)
Lemma receipts_form_a_hash_chain_witness :
  exists rs st',
    Kaitiaki.seal_all Examples.PUBLIC_KEY Examples.secretKey Examples.sign_detached
      Examples.JSON_stringify Examples.toISOString
      (Kaitiaki.initial Examples.PUBLIC_KEY) Examples.three_calls = Ok (rs, st')
    /\ Verifier.entangled
         (Kaitiaki.prevPrevState (Kaitiaki.initial Examples.PUBLIC_KEY))
         (Kaitiaki.prevState (Kaitiaki.initial Examples.PUBLIC_KEY)) rs
    /\ List.length rs = List.length Examples.three_calls.
Proof.
  destruct (seal_all_positions Examples.PUBLIC_KEY Examples.secretKey
              Examples.sign_detached Examples.JSON_stringify Examples.toISOString
              Examples.three_calls (Kaitiaki.initial Examples.PUBLIC_KEY)
              ltac:(split; vm_compute; reflexivity)
              ltac:(repeat constructor; eexists; reflexivity)
              ltac:(intros m; eexists; reflexivity))
    as (rs & st' & E & _).
  exists rs, st'. split; [exact E|].
  destruct (receipts_form_a_hash_chain Examples.PUBLIC_KEY Examples.secretKey
              Examples.sign_detached Examples.JSON_stringify Examples.toISOString
              Examples.three_calls (Kaitiaki.initial Examples.PUBLIC_KEY) st' rs
              ltac:(split; vm_compute; reflexivity) E)
    as (A & _ & _ & _ & L & _).
  split; [exact A | exact L].
Defined.

(** The health body sealed first on a fresh chain: position header 1. *)
Lemma sealed_response_carries_receipt_witness :
  Propagation.lookup "X-Kaitiaki-Chain-Position"
    (Kaitiaki.headers
       (Kaitiaki.response
          (Kaitiaki.kaitiakiJson Examples.PUBLIC_KEY Examples.secretKey
             Examples.sign_detached Scenarios.JSON_stringify Examples.toISOString
             (Kaitiaki.initial Examples.PUBLIC_KEY) Scenarios.first_call
             Scenarios.health Scenarios.blank_response Scenarios.health_body)))
  = Some "1".
Proof.
  destruct (seal_step Examples.PUBLIC_KEY Examples.secretKey
              Examples.sign_detached Scenarios.JSON_stringify Examples.toISOString
              (Kaitiaki.initial Examples.PUBLIC_KEY) Scenarios.first_call
              Scenarios.health_body
              (Kaitiaki.method Scenarios.health ++ " " ++ Kaitiaki.path Scenarios.health)
              ltac:(split; vm_compute; reflexivity)
              ltac:(eexists; reflexivity)
              ltac:(intros m; eexists; reflexivity))
    as (r & st' & E & _).
  exact (proj1 (proj2 (proj2 (proj2
           (sealed_response_carries_receipt Examples.PUBLIC_KEY Examples.secretKey
              Examples.sign_detached Scenarios.JSON_stringify Examples.toISOString
              (Kaitiaki.initial Examples.PUBLIC_KEY) st' Scenarios.first_call
              Scenarios.health Scenarios.blank_response Scenarios.health_body r E))))).
Defined.

(** The id of that first receipt, taken as a parent. *)
Lemma sealed_ids_are_parents_witness :
  exists r st',
    Kaitiaki.sealTransport Examples.PUBLIC_KEY Examples.secretKey
      Examples.sign_detached Scenarios.JSON_stringify Examples.toISOString
      (Kaitiaki.initial Examples.PUBLIC_KEY) Scenarios.first_call
      Scenarios.health_body "GET /api/health" = Ok (r, st')
    /\ Kaitiaki.Receipt.receipt_id r = "KT-1771891200000-abcd"
    /\ Propagation.buildChainHeaders (Kaitiaki.JStr (Kaitiaki.Receipt.receipt_id r))
       = Ok [("X-Kaitiaki-Parent-Receipt", "KT-1771891200000-abcd")].
Proof.
  destruct (seal_step Examples.PUBLIC_KEY Examples.secretKey
              Examples.sign_detached Scenarios.JSON_stringify Examples.toISOString
              (Kaitiaki.initial Examples.PUBLIC_KEY) Scenarios.first_call
              Scenarios.health_body "GET /api/health"
              ltac:(split; vm_compute; reflexivity)
              ltac:(eexists; reflexivity)
              ltac:(intros m; eexists; reflexivity))
    as (r & st' & E & _).
  exists r, st'. split; [exact E|].
  destruct (sealed_ids_are_parents Examples.PUBLIC_KEY Examples.secretKey
              Examples.sign_detached Scenarios.JSON_stringify Examples.toISOString
              (Kaitiaki.initial Examples.PUBLIC_KEY) st' Scenarios.first_call
              Scenarios.health_body "GET /api/health" "KT-AB-DD-1-abcd" r E)
    as (I & _ & _ & B & _).
  rewrite B, I. split; reflexivity.
Defined.

(** The end-to-end request passes and is told the dissent note only. *)
Lemma passing_requests_get_notes_only_witness :
  Explainer.simulate Scenarios.Number_toString Examples.now Examples.end_to_end
  = [Explainer.no_dissent].
Proof.
  apply (proj1 (passing_requests_get_notes_only Scenarios.Number_toString
                  Examples.now Examples.end_to_end ltac:(vm_compute; reflexivity))).
Defined.

(** The same request on one model is blocked by aparigraha and is told
    nothing. *)
Lemma single_model_warning_is_unreachable_witness :
  Gates.Verdict.pass (Gates.runAllGates Examples.now Scenarios.one_model) = false
  /\ Explainer.simulate Scenarios.Number_toString Examples.now Scenarios.one_model = [].
Proof.
  destruct (proj2 (proj2 (single_model_warning_is_unreachable
                            Scenarios.Number_toString Examples.now Scenarios.one_model))
              ltac:(vm_compute; reflexivity))
    as (V & _ & S).
  split; [exact V|].
  apply S; vm_compute; reflexivity.
Defined.
